(** * TallyUp calculator: arithmetic engine, formatter, memory store and
      input state machine, embedded from [src/js/utils.js],
      [src/js/display.js], [src/js/calculator.js] and the operations module
      (classes [Operations] and [MemoryOperations]).

    JavaScript numbers are IEEE-754 binary64 values.  They are modelled by
    [spec_float] of the Standard Library with [prec = 53] and [emax = 1024];
    every arithmetic operator of the source is the correctly rounded
    operation of that specification, and the conversions between numbers
    and strings ([parseFloat], [toString], [toFixed], [toExponential]) are
    computed in exact integer arithmetic as ECMAScript defines them.

    Strings are [string], that is byte strings; the texts the display
    handles are ASCII, for which the length in bytes is the length
    JavaScript reports.  A value that the source inspects with [typeof] is
    a [value].  An object of the source is a record, and a method takes the
    object and returns the object it leaves behind.  The clock that
    [addToHistory] reads is an argument of the methods that reach it.  The
    DOM (CSS classes, ARIA labels, feedback animations, logging) carries no
    state that the calculator reads back and is left out; the text of the
    input element is kept as [displayInput]. *)

From Stdlib Require Import ZArith List String Ascii Bool Lia.
From Stdlib Require Import Floats.SpecFloat.
Import ListNotations.
Open Scope string_scope.
Open Scope Z_scope.

(** ** ECMAScript built-ins used by the source *)
Module JS.

Definition number := spec_float.

Definition prec : Z := 53.
Definition emax : Z := 1024.

Definition NaN : number := S754_nan.
Definition Infinity : number := S754_infinity false.
Definition NegInfinity : number := S754_infinity true.
Definition pzero : number := S754_zero false.

(** The Number value of an integer (round to nearest, ties to even). *)
Definition ofZ (z : Z) : number := binary_normalize prec emax z 0 false.

Definition add (a b : number) : number := SFadd prec emax a b.
Definition sub (a b : number) : number := SFsub prec emax a b.
Definition mul (a b : number) : number := SFmul prec emax a b.
Definition div (a b : number) : number := SFdiv prec emax a b.
Definition neg (a : number) : number := SFopp a.

(** [a === b], [a < b] and [a >= b] on numbers. *)
Definition eqb (a b : number) : bool := SFeqb a b.
Definition ltb (a b : number) : bool := SFltb a b.
Definition gtb (a b : number) : bool := SFltb b a.
Definition geb (a b : number) : bool := SFleb b a.

Definition is_nan (a : number) : bool :=
  match a with S754_nan => true | _ => false end.

Definition is_finite (a : number) : bool :=
  match a with S754_nan | S754_infinity _ => false | _ => true end.

Definition Math_abs (a : number) : number := SFabs a.

(** [Number.EPSILON] is 2^-52. *)
Definition EPSILON : number := S754_finite false 4503599627370496 (-104).

(** The Number value of [(-1)^s * m * 10^e]: the decimal literal rounded
    to nearest, ties to even.  Exponents far outside the binary64 range
    are settled without building the power of ten. *)
Definition ofDecimal (s : bool) (m : Z) (e : Z) : number :=
  match m with
  | Zpos p =>
      if 0 <=? e then
        if 310 <? e then S754_infinity s
        else binary_normalize prec emax (if s then - (m * 10 ^ e) else m * 10 ^ e) 0 s
      else if e + Z.log2 m <? -1100 then S754_zero s
      else SFdiv prec emax (S754_finite s p 0)
                 (S754_finite false (Z.to_pos (10 ^ (- e))) 0)
  | _ => S754_zero s
  end.

(** [Math.pow(10, p)] for a small non-negative integer [p]: the power is
    an integer, and its Number value is returned. *)
Definition Math_pow10 (p : nat) : number := ofZ (10 ^ Z.of_nat p).

(** [Math.round]: the integer closest to [x], ties towards +Infinity;
    a result of zero keeps the sign of [x]. *)
Definition Math_round (x : number) : number :=
  match x with
  | S754_finite s m e =>
      if 0 <=? e then x
      else
        let den := 2 ^ (- e) in
        let num := if s then Zneg m else Zpos m in
        let n := (2 * num + den) / (2 * den) in
        if n =? 0 then S754_zero s else ofZ n
  | _ => x
  end.

(** [Math.sqrt]: the correctly rounded square root. *)
Definition Math_sqrt (x : number) : number := SFsqrt prec emax x.

(** [x % 1]: the fractional part of [x], with the sign of [x]; it is
    always representable. *)
Definition rem1 (x : number) : number :=
  match x with
  | S754_finite s m e =>
      if 0 <=? e then S754_zero s
      else
        let r := Zpos m mod 2 ^ (- e) in
        if r =? 0 then S754_zero s
        else binary_normalize prec emax (if s then - r else r) e s
  | S754_zero _ => x
  | _ => NaN
  end.

(** *** Characters and digit strings *)

Definition is_digit (c : ascii) : bool :=
  let n := nat_of_ascii c in (48 <=? n)%nat && (n <=? 57)%nat.

Definition digit_val (c : ascii) : Z := Z.of_nat (nat_of_ascii c) - 48.

Definition digit_char (d : Z) : ascii := ascii_of_nat (Z.to_nat (48 + d)).

(** Decimal digits of a non-negative integer, most significant first. *)
Fixpoint digits_fuel (fuel : nat) (n : Z) (acc : string) : string :=
  match fuel with
  | O => acc
  | S f =>
      let acc' := String (digit_char (n mod 10)) acc in
      if n <? 10 then acc' else digits_fuel f (n / 10) acc'
  end.

Definition digits (n : Z) : string :=
  digits_fuel (S (Z.to_nat (Z.log2 n))) n "".

Fixpoint zeros (n : nat) : string :=
  match n with O => "" | S k => String "0" (zeros k) end.

(** Value of a run of decimal digits read left to right. *)
Fixpoint digits_value (s : string) (acc : Z) : Z :=
  match s with
  | String c r => digits_value r (10 * acc + digit_val c)
  | EmptyString => acc
  end.

(** Longest prefix of decimal digits, and the rest. *)
Fixpoint span_digits (s : string) : string * string :=
  match s with
  | String c r =>
      if is_digit c then let (d, t) := span_digits r in (String c d, t)
      else ("", s)
  | EmptyString => ("", "")
  end.

Fixpoint string_rev_app (s acc : string) : string :=
  match s with
  | String c r => string_rev_app r (String c acc)
  | EmptyString => acc
  end.

(** [s.includes(c)] for a one-character pattern. *)
Fixpoint includes (s : string) (c : ascii) : bool :=
  match s with
  | String d r => if Ascii.eqb d c then true else includes r c
  | EmptyString => false
  end.

(** [s.slice(0, -1)]. *)
Fixpoint drop_last (s : string) : string :=
  match s with
  | String c EmptyString => ""
  | String c r => String c (drop_last r)
  | EmptyString => ""
  end.

Definition take (n : nat) (s : string) : string := substring 0 n s.
Definition drop (n : nat) (s : string) : string := substring n (length s - n) s.

(** *** String to Number *)

Definition is_space (c : ascii) : bool :=
  let n := nat_of_ascii c in
  ((9 <=? n)%nat && (n <=? 13)%nat) || (n =? 32)%nat.

Fixpoint trim_left (s : string) : string :=
  match s with
  | String c r => if is_space c then trim_left r else s
  | EmptyString => s
  end.

Definition trim_right (s : string) : string :=
  string_rev_app (trim_left (string_rev_app s "")) "".

(** Optional exponent part [e], [e+] or [e-] followed by digits; it is
    taken only when at least one digit follows. *)
Definition exponent_part (s : string) : Z * string :=
  match s with
  | String c r =>
      if Ascii.eqb c "e" || Ascii.eqb c "E" then
        let '(neg, r') :=
          match r with
          | String "+" t => (false, t)
          | String "-" t => (true, t)
          | _ => (false, r)
          end in
        let (d, t) := span_digits r' in
        match d with
        | EmptyString => (0, s)
        | _ => ((if neg then - digits_value d 0 else digits_value d 0), t)
        end
      else (0, s)
  | EmptyString => (0, s)
  end.

(** Longest prefix that is an unsigned decimal literal: the literal's
    digits as an integer, its decimal exponent, and the rest of the
    string; [None] when no prefix is a literal. *)
Definition unsigned_decimal (s : string) : option (Z * Z * string) :=
  let (ip, r1) := span_digits s in
  let '(fp, r2) :=
    match r1 with
    | String "." t => span_digits t
    | _ => ("", r1)
    end in
  match ip, fp with
  | EmptyString, EmptyString => None
  | _, _ =>
      let (x, r3) := exponent_part r2 in
      Some (digits_value (ip ++ fp) 0, x - Z.of_nat (length fp), r3)
  end.

Definition sign_prefix (s : string) : bool * string :=
  match s with
  | String "+" r => (false, r)
  | String "-" r => (true, r)
  | _ => (false, s)
  end.

(** Longest prefix that is a signed decimal literal or [Infinity]. *)
Definition str_decimal_prefix (s : string) : option (number * string) :=
  let (sg, r) := sign_prefix s in
  if prefix "Infinity" r then
    Some (S754_infinity sg, drop 8 r)
  else
    match unsigned_decimal r with
    | Some (m, e, t) => Some (ofDecimal sg m e, t)
    | None => None
    end.

(** [parseFloat(s)]. *)
Definition parseFloat (s : string) : number :=
  match str_decimal_prefix (trim_left s) with
  | Some (x, _) => x
  | None => NaN
  end.

(** Digits of a radix-2, 8 or 16 integer literal. *)
Definition radix_digit (radix : Z) (c : ascii) : option Z :=
  let n := Z.of_nat (nat_of_ascii c) in
  let d :=
    if (48 <=? n) && (n <=? 57) then n - 48
    else if (97 <=? n) && (n <=? 102) then n - 87
    else if (65 <=? n) && (n <=? 70) then n - 55
    else 16 in
  if d <? radix then Some d else None.

Fixpoint radix_value (radix : Z) (s : string) (acc : Z) : option Z :=
  match s with
  | String c r =>
      match radix_digit radix c with
      | Some d => radix_value radix r (radix * acc + d)
      | None => None
      end
  | EmptyString => Some acc
  end.

Definition radix_literal (s : string) : option number :=
  match s with
  | String "0" (String c (String d r)) =>
      let body := String d r in
      let radix :=
        if Ascii.eqb c "x" || Ascii.eqb c "X" then 16
        else if Ascii.eqb c "o" || Ascii.eqb c "O" then 8
        else if Ascii.eqb c "b" || Ascii.eqb c "B" then 2
        else 0 in
      if radix =? 0 then None
      else match radix_value radix body 0 with
           | Some v => Some (ofZ v)
           | None => None
           end
  | _ => None
  end.

(** [Number(s)] for a string: the whole trimmed string has to be a
    numeric literal; the empty string is [0]. *)
Definition StringToNumber (s : string) : number :=
  let t := trim_right (trim_left s) in
  match t with
  | EmptyString => pzero
  | _ =>
      match radix_literal t with
      | Some x => x
      | None =>
          match str_decimal_prefix t with
          | Some (x, EmptyString) => x
          | _ => NaN
          end
      end
  end.

(** *** Number to string *)

(** A positive finite number [m * 2^e] as an exact fraction. *)
Definition frac_of (m : positive) (e : Z) : Z * Z :=
  if 0 <=? e then (Zpos m * 2 ^ e, 1) else (Zpos m, 2 ^ (- e)).

(** [P / Q] divided by [10^j] is [scale_num P j / scale_den Q j]. *)
Definition scale_num (P j : Z) : Z := if 0 <=? j then P else P * 10 ^ (- j).
Definition scale_den (Q j : Z) : Z := if 0 <=? j then Q * 10 ^ j else Q.

Fixpoint mag_search (fuel : nat) (P Q n : Z) : Z :=
  match fuel with
  | O => n
  | S f =>
      if scale_num P n <? scale_den Q n then n
      else mag_search f P Q (n + 1)
  end.

(** The least [n] with [P / Q < 10^n]. *)
Definition mag10 (P Q : Z) : Z :=
  mag_search 5 P Q ((Z.log2 P - Z.log2 Q) * 30103 / 100000 - 1).

(** Of the two [k]-digit decimals around [x = P / Q] (with
    [10^(n0-1) <= x < 10^n0]), one whose Number value is [x], the closer
    one when both are, the even one on a tie. *)
Definition nearest_digits (P Q n0 k : Z) : Z * Z :=
  let j := n0 - k in
  let num := scale_num P j in
  let den := scale_den Q j in
  let lo := num / den in
  let r := num mod den in
  let hi := lo + 1 in
  let s :=
    if (den <? 2 * r) || ((den =? 2 * r) && Z.even hi) then hi else lo in
  if s =? 10 ^ k then (10 ^ (k - 1), n0 + 1) else (s, n0).

Definition shortest_step (x : number) (P Q n0 k : Z) : option (Z * Z) :=
  let j := n0 - k in
  let lo := scale_num P j / scale_den Q j in
  let hi := lo + 1 in
  let ok_lo := eqb (ofDecimal false lo j) x in
  let ok_hi := eqb (ofDecimal false hi j) x in
  if ok_lo && ok_hi then Some (nearest_digits P Q n0 k)
  else if ok_lo then Some (lo, n0)
  else if ok_hi then
    Some (if hi =? 10 ^ k then (10 ^ (k - 1), n0 + 1) else (hi, n0))
  else None.

(** The shortest digit string [s] (of [k] digits) and exponent [n] with
    [s * 10^(n-k)] read back as [x]; seventeen digits always do. *)
Fixpoint shortest_search (fuel : nat) (x : number) (P Q n0 k : Z)
  : Z * Z * Z :=
  match fuel with
  | O => (nearest_digits P Q n0 k, k)
  | S f =>
      match shortest_step x P Q n0 k with
      | Some sn => (sn, k)
      | None => shortest_search f x P Q n0 (k + 1)
      end
  end.

Definition exponent_suffix (e : Z) : string :=
  "e" ++ (if 0 <=? e then "+" else "-") ++ digits (Z.abs e).

(** [Number.prototype.toString()] in radix 10. *)
Definition Number_toString (x : number) : string :=
  match x with
  | S754_nan => "NaN"
  | S754_infinity s => if s then "-Infinity" else "Infinity"
  | S754_zero _ => "0"
  | S754_finite sg m e =>
      let (P, Q) := frac_of m e in
      let n0 := mag10 P Q in
      let '(s, n, k) :=
        shortest_search 16 (S754_finite false m e) P Q n0 1 in
      let ds := digits s in
      let body :=
        if (k <=? n) && (n <=? 21) then ds ++ zeros (Z.to_nat (n - k))
        else if (0 <? n) && (n <=? 21) then
          take (Z.to_nat n) ds ++ "." ++ drop (Z.to_nat n) ds
        else if (-6 <? n) && (n <=? 0) then
          "0." ++ zeros (Z.to_nat (- n)) ++ ds
        else if k =? 1 then ds ++ exponent_suffix (n - 1)
        else take 1 ds ++ "." ++ drop 1 ds ++ exponent_suffix (n - 1) in
      (if sg then "-" else "") ++ body
  end.

(** Digits of [n] with a point before the last [f] of them. *)
Definition fixed_string (n : Z) (f : nat) : string :=
  let m := digits n in
  match f with
  | O => m
  | _ =>
      let k := length m in
      let m' := if (k <=? f)%nat then zeros (f + 1 - k) ++ m else m in
      let k' := length m' in
      take (k' - f) m' ++ "." ++ drop (k' - f) m'
  end.

(** [Number.prototype.toFixed(f)] for [0 <= f <= 100]. *)
Definition Number_toFixed (x : number) (f : nat) : string :=
  match x with
  | S754_finite s m e =>
      let (P, Q) := frac_of m e in
      if 10 ^ 21 * Q <=? P then Number_toString x
      else
        let n := (2 * P * 10 ^ Z.of_nat f + Q) / (2 * Q) in
        (if s then "-" else "") ++ fixed_string n f
  | S754_zero _ => fixed_string 0 f
  | _ => Number_toString x
  end.

(** [Number.prototype.toExponential(f)] for [0 <= f <= 100]. *)
Definition Number_toExponential (x : number) (f : nat) : string :=
  let mantissa (n : Z) :=
    let ds := digits n in
    match f with
    | O => ds
    | _ => take 1 ds ++ "." ++ drop 1 ds
    end in
  match x with
  | S754_finite s m e =>
      let (P, Q) := frac_of m e in
      let e0 := mag10 P Q - 1 in
      let j := e0 - Z.of_nat f in
      let num := scale_num P j in
      let den := scale_den Q j in
      let n := (2 * num + den) / (2 * den) in
      let '(n', e') :=
        if n =? 10 ^ (Z.of_nat f + 1) then (10 ^ Z.of_nat f, e0 + 1)
        else (n, e0) in
      (if s then "-" else "") ++ mantissa n' ++ exponent_suffix e'
  | S754_zero _ =>
      match f with
      | O => "0e+0"
      | _ => "0." ++ zeros f ++ "e+0"
      end
  | _ => Number_toString x
  end.

(** *** Values *)

(** The values the source tells apart with [typeof]. *)
Inductive value :=
| VNum (n : number)
| VStr (s : string)
| VBool (b : bool)
| VNull
| VUndefined.

Definition is_number (v : value) : bool :=
  match v with VNum _ => true | _ => false end.

Definition ToNumber (v : value) : number :=
  match v with
  | VNum n => n
  | VStr s => StringToNumber s
  | VBool b => if b then ofZ 1 else pzero
  | VNull => pzero
  | VUndefined => NaN
  end.

(** The global [isNaN] and [isFinite] convert their argument first. *)
Definition isNaN (v : value) : bool := is_nan (ToNumber v).
Definition isFinite (v : value) : bool := is_finite (ToNumber v).

(** *** Strings *)

(** [s.split(c)] for a one-character separator. *)
Fixpoint split (c : ascii) (s : string) : list string :=
  match s with
  | String d r =>
      if Ascii.eqb d c then "" :: split c r
      else match split c r with
           | p :: ps => String d p :: ps
           | [] => [String d ""]
           end
  | EmptyString => [""]
  end.

(** [parts.join(sep)]. *)
Fixpoint join (sep : string) (parts : list string) : string :=
  match parts with
  | [] => ""
  | [p] => p
  | p :: ps => p ++ sep ++ join sep ps
  end.

(** Word characters of a regular expression: letters, digits, [_]. *)
Definition is_word (c : ascii) : bool :=
  let n := nat_of_ascii c in
  ((48 <=? n)%nat && (n <=? 57)%nat) || ((65 <=? n)%nat && (n <=? 90)%nat)
  || ((97 <=? n)%nat && (n <=? 122)%nat) || (n =? 95)%nat.

Fixpoint digit_run (s : string) : nat :=
  match s with
  | String c r => if is_digit c then S (digit_run r) else O
  | EmptyString => O
  end.

End JS.

Import JS.

(** ** [Utils] (src/js/utils.js) *)
Module Utils.

(** [str.replace(/\B(?=(\d{3})+(?!\d))/g, ',')]: a comma goes in at every
    position that is not a word boundary and is followed by a run of
    digits whose length is a positive multiple of three. *)
Fixpoint group_thousands (prev : option ascii) (s : string) : string :=
  match s with
  | String c r =>
      let before := match prev with Some p => is_word p | None => false end in
      let run := digit_run s in
      let here :=
        Bool.eqb before (is_word c) && (3 <=? run)%nat && (run mod 3 =? 0)%nat in
      if here then String "," (String c (group_thousands (Some c) r))
      else String c (group_thousands (Some c) r)
  | EmptyString => ""
  end.

Definition addThousandsSeparator (numStr : string) : string :=
  match split "." numStr with
  | p :: ps => join "." (group_thousands None p :: ps)
  | [] => ""
  end.

(** [numStr.replace(/,/g, '')]. *)
Fixpoint removeThousandsSeparator (numStr : string) : string :=
  match numStr with
  | String c r =>
      if Ascii.eqb c "," then removeThousandsSeparator r
      else String c (removeThousandsSeparator r)
  | EmptyString => ""
  end.

Definition formatNumber_with (maxDecimals : nat) (num : value) : string :=
  match num with
  | VNum n =>
      if is_nan n then "Error"
      else if negb (is_finite n) then
        if gtb n pzero then "Infinity" else "-Infinity"
      else if geb (Math_abs n) (ofDecimal false 1 15) then
        Number_toExponential n 6
      else if ltb (Math_abs n) (ofDecimal false 1 (-10)) && negb (eqb n pzero)
      then Number_toExponential n 6
      else
        let formatted :=
          Number_toString (parseFloat (Number_toFixed n maxDecimals)) in
        if geb (Math_abs n) (ofZ 1000) then addThousandsSeparator formatted
        else formatted
  | _ => "Error"
  end.

(** [formatNumber(num)] with the default [maxDecimals = 10]. *)
Definition formatNumber (num : value) : string := formatNumber_with 10 num.

Definition toNumber (str : string) : number :=
  parseFloat (removeThousandsSeparator str).

(** [isValidNumber(str)]; the global [isNaN] converts the cleaned string
    with [Number]. *)
Definition isValidNumber (str : value) : bool :=
  match str with
  | VStr s =>
      let cleaned := removeThousandsSeparator s in
      negb (isNaN (VStr cleaned)) && negb (isNaN (VNum (parseFloat cleaned)))
  | _ => false
  end.

(** [hasDecimals(num)]: [num % 1 !== 0]. *)
Definition hasDecimals (num : number) : bool := negb (eqb (rem1 num) pzero).

Definition limitDecimals_with (places : nat) (num : number) : number :=
  JS.div (Math_round (JS.mul num (Math_pow10 places))) (Math_pow10 places).

(** [limitDecimals(num)] with the default [places = 10]. *)
Definition limitDecimals (num : number) : number := limitDecimals_with 10 num.

Definition isOperator (op : string) : bool :=
  existsb (String.eqb op) ["+"; "-"; "×"; "÷"; "*"; "/"].

(** [normalizeOperator(op)], for [op] that is not the name of a property
    every object inherits: the lookup in [operatorMap] finds the six
    operator symbols only. *)
Definition normalizeOperator (op : string) : string :=
  if String.eqb op "*" then "×"
  else if String.eqb op "/" then "÷"
  else op.

End Utils.

(** ** [Operations] (operations module) *)
Module Operations.

Definition add (a b : number) : number := JS.add a b.
Definition subtract (a b : number) : number := JS.sub a b.
Definition multiply (a b : number) : number := JS.mul a b.

(** [divide] answers the string ['Error'] for 0/0 and a signed infinity
    for any other division by zero. *)
Definition divide (a b : number) : value :=
  if eqb b pzero then
    if eqb a pzero then VStr "Error"
    else VNum (if gtb a pzero then Infinity else NegInfinity)
  else VNum (JS.div a b).

Definition percentage (v : number) : number := JS.div v (ofZ 100).

(** [sqrt(value)]: ['Error'] below zero. *)
Definition sqrt (v : number) : value :=
  if ltb v pzero then VStr "Error" else VNum (Math_sqrt v).

(** [reciprocal(value)]: ['Error'] at zero. *)
Definition reciprocal (v : number) : value :=
  if eqb v pzero then VStr "Error" else VNum (JS.div (ofZ 1) v).

Definition abs (v : number) : number := Math_abs v.

Definition negate (v : number) : number := neg v.

Definition fixPrecision_with (precision : nat) (v : number) : number :=
  if ltb (Math_abs v) EPSILON then pzero
  else
    let factor := Math_pow10 precision in
    JS.div (Math_round (JS.mul v factor)) factor.

(** [fixPrecision(value)] with the default [precision = 15]. *)
Definition fixPrecision (v : number) : number := fixPrecision_with 15 v.

(** [calculate(a, b, operator)].  After the [isNaN(result)] test every use
    of [result] converts it to a number, so the conversion is done once. *)
Definition calculate (a b : value) (operator : string) : value :=
  match a, b with
  | VNum x, VNum y =>
      if is_nan x || is_nan y then VStr "Error"
      else
        let result :=
          if String.eqb operator "+" then Some (VNum (add x y))
          else if String.eqb operator "-" then Some (VNum (subtract x y))
          else if String.eqb operator "×" || String.eqb operator "*" then
            Some (VNum (multiply x y))
          else if String.eqb operator "÷" || String.eqb operator "/" then
            Some (divide x y)
          else None in
        match result with
        | None => VStr "Error"
        | Some r =>
            if isNaN r then VStr "Error"
            else if negb (isFinite r) then
              if gtb (ToNumber r) pzero then VStr "Infinity"
              else VStr "-Infinity"
            else VNum (fixPrecision (ToNumber r))
        end
  | _, _ => VStr "Error"
  end.

Definition isValidResult (result : value) : bool :=
  match result with
  | VStr s => existsb (String.eqb s) ["Error"; "Infinity"; "-Infinity"]
  | VNum n => negb (is_nan n)
  | _ => false
  end.

(** [formatOperation(a, operator, b = null)]. *)
Definition formatOperation (a : value) (operator : string) (b : option value)
  : string :=
  let formattedA := Utils.formatNumber a in
  match b with
  | None =>
      if String.eqb operator "sqrt" then "√" ++ formattedA
      else if String.eqb operator "reciprocal" then "1/" ++ formattedA
      else if String.eqb operator "negate" then "-" ++ formattedA
      else if String.eqb operator "percentage" then formattedA ++ "%"
      else formattedA
  | Some b' =>
      formattedA ++ " " ++ operator ++ " " ++ Utils.formatNumber b'
  end.

End Operations.

(** ** [MemoryOperations] (operations module) *)
Module MemoryOperations.

Record entry := {
  timestamp : string;
  operation : string;
  result : value
}.

Record t := {
  memory : number;
  history : list entry
}.

(** The constructor. *)
Definition new : t := {| memory := pzero; history := [] |}.

(** [typeof value === 'number' && !isNaN(value)]. *)
Definition accepts (v : value) : bool :=
  match v with VNum n => negb (is_nan n) | _ => false end.

Definition store (v : value) (m : t) : t :=
  if accepts v then {| memory := ToNumber v; history := history m |} else m.

Definition recall (m : t) : number := memory m.

Definition clear (m : t) : t := {| memory := pzero; history := history m |}.

Definition add (v : value) (m : t) : t :=
  if accepts v then
    {| memory := JS.add (memory m) (ToNumber v); history := history m |}
  else m.

Definition subtract (v : value) (m : t) : t :=
  if accepts v then
    {| memory := JS.sub (memory m) (ToNumber v); history := history m |}
  else m.

Definition hasValue (m : t) : bool := negb (eqb (memory m) pzero).

(** [array.slice(0, end)] for an integer [end]: a negative [end] counts
    from the back. *)
Definition slice0 {A : Type} (l : list A) (stop : Z) : list A :=
  let len := Z.of_nat (List.length l) in
  let k := if stop <? 0 then Z.max (len + stop) 0 else Z.min stop len in
  firstn (Z.to_nat k) l.

(** [addToHistory(operation, result)]; [now] is the reading of the clock
    ([new Date().toISOString()]). *)
Definition addToHistory (now : string) (op : string) (res : value) (m : t) : t :=
  let e := {| timestamp := now; operation := op; result := res |} in
  let h := e :: history m in
  {| memory := memory m;
     history := if (100 <? List.length h)%nat then slice0 h 100 else h |}.

Definition getHistory_with (limit : Z) (m : t) : list entry :=
  slice0 (history m) limit.

(** [getHistory()] with the default [limit = 10]. *)
Definition getHistory (m : t) : list entry := getHistory_with 10 m.

Definition clearHistory (m : t) : t := {| memory := memory m; history := [] |}.

End MemoryOperations.

(** ** [Display] (src/js/display.js) *)
Module Display.

(** [displayInput] is the text of the input element, [expression] the text
    of the expression line. *)
Record t := {
  currentValue : string;
  expression : string;
  isError : bool;
  displayInput : string
}.

Definition is_sentinel (s : string) : bool :=
  String.eqb s "Error" || String.eqb s "Infinity" || String.eqb s "-Infinity".

Definition updateDisplay (v : string) (d : t) : t :=
  let v' := match v with EmptyString => "0" | _ => v end in
  let displayValue :=
    if (15 <? length v')%nat && negb (includes v' "e") then
      Number_toExponential (parseFloat v') 6
    else v' in
  {| currentValue := v';
     expression := expression d;
     isError := is_sentinel v';
     displayInput := displayValue |}.

Definition updateExpression (expr : string) (d : t) : t :=
  {| currentValue := currentValue d;
     expression := expr;
     isError := isError d;
     displayInput := displayInput d |}.

Definition setErrorState (e : bool) (d : t) : t :=
  {| currentValue := currentValue d;
     expression := expression d;
     isError := e;
     displayInput := displayInput d |}.

Definition clearError (d : t) : t := setErrorState false d.

Definition setCurrentValue (v : string) (d : t) : t :=
  {| currentValue := v;
     expression := expression d;
     isError := isError d;
     displayInput := displayInput d |}.

(** The state the constructor leaves after [init()]. *)
Definition new : t :=
  updateExpression ""
    (updateDisplay "0"
       {| currentValue := "0"; expression := ""; isError := false;
          displayInput := "" |}).

Definition appendDigit (digit : string) (d : t) : t :=
  let d1 := if isError d then setCurrentValue "0" (clearError d) else d in
  if String.eqb (currentValue d1) "0" && negb (String.eqb digit ".") then
    updateDisplay digit (setCurrentValue digit d1)
  else if String.eqb digit "." && includes (currentValue d1) "." then d1
  else if (15 <=? length (currentValue d1))%nat then d1
  else
    let v := currentValue d1 ++ digit in
    updateDisplay v (setCurrentValue v d1).

Definition getCurrentValue (d : t) : number :=
  if isError d then pzero else Utils.toNumber (currentValue d).

Definition clear (d : t) : t :=
  let d1 :=
    {| currentValue := "0"; expression := ""; isError := false;
       displayInput := displayInput d |} in
  updateExpression "" (updateDisplay "0" d1).

Definition deleteLast (d : t) : t :=
  if isError d then clear d
  else
    let v :=
      if (1 <? length (currentValue d))%nat then drop_last (currentValue d)
      else "0" in
    updateDisplay v (setCurrentValue v d).

(** [showResult(result, operation = '')]. *)
Definition showResult (res : value) (op : string) (d : t) : t :=
  let d1 :=
    if Operations.isValidResult res then
      match res with
      | VNum _ => updateDisplay (Utils.formatNumber res) d
      | VStr s => updateDisplay s d
      | _ => d
      end
    else updateDisplay "Error" d in
  match op with
  | EmptyString => d1
  | _ => updateExpression (op ++ " =") d1
  end.

Definition isShowingZero (d : t) : bool := String.eqb (currentValue d) "0".

Definition hasDecimal (d : t) : bool := includes (currentValue d) ".".

Definition showAsPercentage (d : t) : t :=
  let v := getCurrentValue d in
  let p := Operations.percentage v in
  updateExpression (Utils.formatNumber (VNum v) ++ "%")
    (updateDisplay (Utils.formatNumber (VNum p)) d).

End Display.

(** ** [Calculator] (src/js/calculator.js) *)
Module Calculator.

Record state := {
  previousValue : option number;
  currentOperator : option string;
  waitingForOperand : bool;
  lastOperation : option (string * number);
  justCalculated : bool
}.

Record t := {
  display : Display.t;
  memory : MemoryOperations.t;
  st : state
}.

Definition new : t :=
  {| display := Display.new;
     memory := MemoryOperations.new;
     st := {| previousValue := None; currentOperator := None;
              waitingForOperand := false; lastOperation := None;
              justCalculated := false |} |}.

Definition with_display (d : Display.t) (c : t) : t :=
  {| display := d; memory := memory c; st := st c |}.

Definition with_state (s : state) (c : t) : t :=
  {| display := display c; memory := memory c; st := s |}.

Definition resetState (c : t) : t :=
  with_state
    {| previousValue := None; currentOperator := None;
       waitingForOperand := false; lastOperation := None;
       justCalculated := justCalculated (st c) |} c.

Definition set_justCalculated (b : bool) (c : t) : t :=
  with_state
    {| previousValue := previousValue (st c);
       currentOperator := currentOperator (st c);
       waitingForOperand := waitingForOperand (st c);
       lastOperation := lastOperation (st c);
       justCalculated := b |} c.

Definition inputNumber (digit : string) (c : t) : t :=
  if waitingForOperand (st c) then
    with_state
      {| previousValue := previousValue (st c);
         currentOperator := currentOperator (st c);
         waitingForOperand := false;
         lastOperation := lastOperation (st c);
         justCalculated := false |}
      (with_display (Display.updateDisplay digit (display c)) c)
  else
    let c1 :=
      if justCalculated (st c) then
        set_justCalculated false (with_display (Display.clear (display c)) c)
      else c in
    with_display (Display.appendDigit digit (display c1)) c1.

(** A string is truthy when it is not empty; [null] is not. *)
Definition truthy (op : option string) : bool :=
  match op with
  | Some EmptyString | None => false
  | Some _ => true
  end.

(** [calculate()]: the result, or [None] for [null]; the evaluation is
    recorded in the history.  [now] is the reading of the clock. *)
Definition calculate (now : string) (c : t) : t * option number :=
  let currentValue := Display.getCurrentValue (display c) in
  match previousValue (st c), currentOperator (st c) with
  | Some prev, Some op =>
      let res := Operations.calculate (VNum prev) (VNum currentValue) op in
      let operation :=
        Operations.formatOperation (VNum prev) op (Some (VNum currentValue)) in
      let c' :=
        {| display := display c;
           memory := MemoryOperations.addToHistory now operation res (memory c);
           st := st c |} in
      (c', match res with VNum r => Some r | _ => None end)
  | _, _ => (c, Some currentValue)
  end.

Definition inputOperator (now : string) (operator : string) (c : t) : t :=
  let currentValue := Display.getCurrentValue (display c) in
  let c1 :=
    match previousValue (st c) with
    | None =>
        with_state
          {| previousValue := Some currentValue;
             currentOperator := currentOperator (st c);
             waitingForOperand := waitingForOperand (st c);
             lastOperation := lastOperation (st c);
             justCalculated := justCalculated (st c) |} c
    | Some _ =>
        if truthy (currentOperator (st c)) && negb (waitingForOperand (st c))
        then
          let (c', res) := calculate now c in
          match res with
          | Some r =>
              with_state
                {| previousValue := Some r;
                   currentOperator := currentOperator (st c');
                   waitingForOperand := waitingForOperand (st c');
                   lastOperation := lastOperation (st c');
                   justCalculated := justCalculated (st c') |}
                (with_display
                   (Display.updateDisplay (Utils.formatNumber (VNum r))
                      (display c')) c')
          | None => c'
          end
        else
          with_state
            {| previousValue := Some currentValue;
               currentOperator := currentOperator (st c);
               waitingForOperand := waitingForOperand (st c);
               lastOperation := lastOperation (st c);
               justCalculated := justCalculated (st c) |} c
    end in
  let c2 :=
    with_state
      {| previousValue := previousValue (st c1);
         currentOperator := Some operator;
         waitingForOperand := true;
         lastOperation := lastOperation (st c1);
         justCalculated := false |} c1 in
  let prev :=
    match previousValue (st c2) with Some p => VNum p | None => VNull end in
  with_display
    (Display.updateExpression (Utils.formatNumber prev ++ " " ++ operator)
       (display c2)) c2.

Definition equals (now : string) (c : t) : t :=
  match previousValue (st c) with
  | Some prev =>
      if truthy (currentOperator (st c)) then
        let (c1, res) := calculate now c in
        match res with
        | Some r =>
            let op :=
              match currentOperator (st c1) with Some o => o | None => "" end in
            let operation :=
              Operations.formatOperation (VNum prev) op
                (Some (VNum (Display.getCurrentValue (display c1)))) in
            let c2 :=
              with_display (Display.showResult (VNum r) operation (display c1)) c1 in
            let c3 :=
              with_state
                {| previousValue := previousValue (st c2);
                   currentOperator := currentOperator (st c2);
                   waitingForOperand := waitingForOperand (st c2);
                   lastOperation :=
                     Some (op, Display.getCurrentValue (display c2));
                   justCalculated := justCalculated (st c2) |} c2 in
            set_justCalculated true (resetState c3)
        | None =>
            resetState
              (with_display (Display.showResult (VStr "Error") "" (display c1)) c1)
        end
      else c
  | None => c
  end.

Definition clear (c : t) : t :=
  resetState (with_display (Display.clear (display c)) c).

(** [delete()]. *)
Definition delete (c : t) : t :=
  if waitingForOperand (st c) then c
  else with_display (Display.deleteLast (display c)) c.

Definition inputDecimal (c : t) : t :=
  if waitingForOperand (st c) then
    with_state
      {| previousValue := previousValue (st c);
         currentOperator := currentOperator (st c);
         waitingForOperand := false;
         lastOperation := lastOperation (st c);
         justCalculated := justCalculated (st c) |}
      (with_display (Display.updateDisplay "0." (display c)) c)
  else if Display.hasDecimal (display c) then c
  else with_display (Display.appendDigit "." (display c)) c.

Definition percentage (c : t) : t :=
  set_justCalculated true
    (with_display (Display.showAsPercentage (display c)) c).

(** The events of the keypad and the keyboard, and [performAction]. *)
Inductive event :=
| Digit (d : string)
| Operator (op : string)
| Equals
| Clear
| Delete
| Decimal
| Percentage.

(** One event handled to completion; [now] is the clock reading that the
    handler would take. *)
Definition handle (now : string) (e : event) (c : t) : t :=
  match e with
  | Digit d => inputNumber d c
  | Operator op => inputOperator now op c
  | Equals => equals now c
  | Clear => clear c
  | Delete => delete c
  | Decimal => inputDecimal c
  | Percentage => percentage c
  end.

(** [performAction(action)]. *)
Definition performAction (now : string) (action : string) (c : t) : t :=
  if String.eqb action "clear" then clear c
  else if String.eqb action "delete" then delete c
  else if String.eqb action "decimal" then inputDecimal c
  else if String.eqb action "calculate" then equals now c
  else if String.eqb action "percentage" then percentage c
  else c.

(** [/[0-9]/.test(key)]: some character of [key] is a decimal digit. *)
Fixpoint has_digit (key : string) : bool :=
  match key with
  | String ch r => is_digit ch || has_digit r
  | EmptyString => false
  end.

(** [handleKeyPress(event)] for [event.key = key]. *)
Definition handleKeyPress (now : string) (key : string) (c : t) : t :=
  if has_digit key then inputNumber key c
  else if String.eqb key "." then performAction now "decimal" c
  else if String.eqb key "+" || String.eqb key "-" then inputOperator now key c
  else if String.eqb key "*" then inputOperator now "×" c
  else if String.eqb key "/" then inputOperator now "÷" c
  else if String.eqb key "=" || String.eqb key "Enter" then
    performAction now "calculate" c
  else if String.eqb key "Escape" then performAction now "clear" c
  else if String.eqb key "Backspace" then performAction now "delete" c
  else if String.eqb key "%" then performAction now "percentage" c
  else c.

(** [handleButtonClick(button)] for the [data-number], [data-operator] and
    [data-action] attributes of the button; an absent attribute is
    [None]. *)
Definition handleButtonClick (now : string)
  (number operator action : option string) (c : t) : t :=
  match number with
  | Some digit => inputNumber digit c
  | None =>
      if truthy operator then
        inputOperator now (match operator with Some o => o | None => "" end) c
      else if truthy action then
        performAction now (match action with Some a => a | None => "" end) c
      else c
  end.

(** A run of events from a state, each with its clock reading. *)
Fixpoint run (evs : list (string * event)) (c : t) : t :=
  match evs with
  | [] => c
  | (now, e) :: rest => run rest (handle now e c)
  end.

End Calculator.

(** ** Vocabulary of the properties *)
Module Spec.

Import Calculator.

(** Not of type number, or [NaN]. *)
Definition not_a_number (v : value) : bool :=
  match v with VNum n => is_nan n | _ => true end.

(** Not of type number, or [NaN], or an infinity. *)
Definition non_finite_or_non_numeric (v : value) : bool :=
  match v with VNum n => negb (is_finite n) | _ => true end.

(** A sequence of [addToHistory] calls: clock reading, description,
    result. *)
Definition call : Type := string * string * value.

Definition entry_of (c : call) : MemoryOperations.entry :=
  let '(now, op, r) := c in
  {| MemoryOperations.timestamp := now;
     MemoryOperations.operation := op;
     MemoryOperations.result := r |}.

Definition record_all (calls : list call) (m : MemoryOperations.t)
  : MemoryOperations.t :=
  fold_left
    (fun m c => let '(now, op, r) := c in
                MemoryOperations.addToHistory now op r m)
    calls m.

(** States of the calculator that some run of events reaches. *)
Inductive reachable : Calculator.t -> Prop :=
| reach_new : reachable Calculator.new
| reach_step now e c : reachable c -> reachable (handle now e c).

(** The error flag of the display agrees with the text it holds. *)
Definition flag_agrees (d : Display.t) : Prop :=
  Display.isError d = Display.is_sentinel (Display.currentValue d).

(** Key presses, all at one clock reading. *)
Definition keys (evs : list event) : list (string * event) :=
  map (fun e => ("2024-01-01T00:00:00.000Z", e)) evs.

(** 5 ÷ 0, before the next key. *)
Definition five_div_zero : Calculator.t :=
  run (keys [Digit "5"; Operator "÷"; Digit "0"]) Calculator.new.

(** 5 ÷ 0 = + : an error is showing and an operator is pending. *)
Definition error_then_plus : Calculator.t :=
  run (keys [Digit "5"; Operator "÷"; Digit "0"; Equals; Operator "+"])
    Calculator.new.

(** 1 ÷ 3 + : a chained result is showing and an operator is pending. *)
Definition third_then_plus : Calculator.t :=
  run (keys [Digit "1"; Operator "÷"; Digit "3"; Operator "+"])
    Calculator.new.

(** 5 + : the example of operator re-selection. *)
Definition five_plus : Calculator.t :=
  run (keys [Digit "5"; Operator "+"]) Calculator.new.


(** [(-1)^s * m] as an integer. *)
Definition signed (s : bool) (m : positive) : Z :=
  if s then Zneg m else Zpos m.





(** The normal form of the integer [(-1)^s * p] when [p] has at most 53
    bits: the mantissa is shifted up to 53 bits. *)
Definition canon (s : bool) (p : positive) : number :=
  S754_finite s (Z.to_pos (Zpos p * 2 ^ (53 - Zpos (digits2_pos p))))
    (Zpos (digits2_pos p) - 53).

(** Every character of [s] is a decimal digit. *)
Fixpoint all_digits (s : string) : bool :=
  match s with
  | String c r => is_digit c && all_digits r
  | EmptyString => true
  end.

(** The sign as [toString] and [toFixed] write it. *)
Definition sign_str (s : bool) : string := if s then "-" else "".

(** The first guess of [mag10] for a number of binary magnitude [a] is at
    most one decade above and at most five below the decimal magnitude. *)
Definition est_ok (a : Z) : bool :=
  let est := a * 30103 / 100000 - 1 in
  ((est <=? 0) || (10 ^ (est - 1) <=? 2 ^ a)) && (2 ^ (a + 1) <=? 10 ^ (est + 5)).


(** Occurrences of the character [c] in [s]. *)
Fixpoint count_char (c : ascii) (s : string) : nat :=
  match s with
  | String d r => ((if Ascii.eqb d c then 1 else 0) + count_char c r)%nat
  | EmptyString => 0%nat
  end.

(** A key of the numeric pad: one decimal digit or the decimal point. *)
Definition is_key (k : string) : bool :=
  match k with
  | String c EmptyString => is_digit c || Ascii.eqb c "."
  | _ => false
  end.

(** A digit key: one decimal digit. *)
Definition is_digit_key (k : string) : bool :=
  match k with
  | String c EmptyString => is_digit c
  | _ => false
  end.

(** The keys [ks] entered into a display, one [appendDigit] each. *)
Definition type_keys (ks : list string) (d : Display.t) : Display.t :=
  fold_left (fun d k => Display.appendDigit k d) ks d.

(** The text a display holds is a typed numeral: at most 15 characters,
    at most one decimal point. *)
Definition typed_numeral (d : Display.t) : Prop :=
  (length (Display.currentValue d) <= 15)%nat /\
  (count_char "." (Display.currentValue d) <= 1)%nat.

(** What the calculator keeps of its memory store: the accumulator is 0,
    the history has at most 100 entries, and every recorded result is one
    the display accepts. *)
Definition memory_inv (m : MemoryOperations.t) : Prop :=
  MemoryOperations.memory m = pzero /\
  (List.length (MemoryOperations.history m) <= 100)%nat /\
  Forall (fun e => Operations.isValidResult (MemoryOperations.result e) = true)
    (MemoryOperations.history m).

(** The normal form of [(-1)^s * p * 2^k] when [p] has at most 53 bits;
    [canon s p] is [scaled s p 0]. *)
Definition scaled (s : bool) (p : positive) (k : Z) : number :=
  S754_finite s (Z.to_pos (Zpos p * 2 ^ (53 - Zpos (digits2_pos p))))
    (k + Zpos (digits2_pos p) - 53).

(** The characters of a text, one key each. *)
Fixpoint keys_of (s : string) : list string :=
  match s with
  | String c r => String c "" :: keys_of r
  | EmptyString => []
  end.

(** The digit keys that enter the non-negative integer [n]. *)
Definition type_number (n : Z) : list event := map Digit (keys_of (digits n)).

(** A state in which the next digit starts a new number. *)
Definition starts_number (c : Calculator.t) : Prop :=
  waitingForOperand (st c) = true \/ justCalculated (st c) = true \/
  Display.isError (display c) = true \/ Display.currentValue (display c) = "0".

(** The calculator after the numeral [text] has been entered in state [c]:
    the display holds and shows [text]; the expression line is emptied
    when a result was showing. *)
Definition entered (text : string) (c : Calculator.t) : Calculator.t :=
  {| display :=
       {| Display.currentValue := text;
          Display.expression :=
            if negb (waitingForOperand (st c)) && justCalculated (st c) then ""
            else Display.expression (display c);
          Display.isError := false;
          Display.displayInput := text |};
     memory := memory c;
     st := {| previousValue := previousValue (st c);
              currentOperator := currentOperator (st c);
              waitingForOperand := false;
              lastOperation := lastOperation (st c);
              justCalculated := false |} |}.

(** The integer [a op b] when it is an integer of magnitude at most
    295147, the range in which [fixPrecision] is exact. *)
Definition exact_result (a b : Z) (op : string) : option Z :=
  let within n := if Z.abs n <=? 295147 then Some n else None in
  if String.eqb op "+" then within (a + b)
  else if String.eqb op "-" then within (a - b)
  else if String.eqb op "×" then within (a * b)
  else if String.eqb op "÷" then
    if (b =? 0) || negb (a mod b =? 0) then None else within (a / b)
  else None.

(** The keys of [a op b =]. *)
Definition press (a : Z) (op : string) (b : Z) : list (string * event) :=
  keys (type_number a ++ [Operator op] ++ type_number b ++ [Equals]).

(** The keys of [a op1 b op2 c =]. *)
Definition press_chain (a : Z) (op1 : string) (b : Z) (op2 : string) (c : Z)
  : list (string * event) :=
  keys (type_number a ++ [Operator op1] ++ type_number b ++ [Operator op2]
        ++ type_number c ++ [Equals]).

(** The decimal numeral of an integer, grouped in thousands from 1000
    on. *)
Definition numeral (n : Z) : string :=
  if 1000 <=? Z.abs n
  then Utils.group_thousands None (sign_str (n <? 0) ++ digits (Z.abs n))
  else sign_str (n <? 0) ++ digits (Z.abs n).

(** The text starts with the letter E. *)
Definition starts_E (s : string) : bool :=
  match s with
  | String c _ => Ascii.eqb c "E"
  | EmptyString => false
  end.


(** 5 ÷ 0 = : the failed evaluation is showing. *)
Definition division_error : Calculator.t :=
  run (keys [Digit "5"; Operator "÷"; Digit "0"; Equals]) Calculator.new.

(** 5 + F5 % through the keyboard: the key name is on the display, reads as
    [NaN], and the percentage of it shows an error while 5 is pending. *)
Definition percent_after_key : Calculator.t :=
  percentage (handleKeyPress "t" "F5" five_plus).




End Spec.

Import Spec.

(** A positive base to a non-negative exponent is positive. *)
Ltac pow_pos H b e :=
  assert (H : 0 < b ^ e) by (apply Z.pow_pos_nonneg; lia).

Ltac pow_pos_new b e := let H := fresh "Hpow" in pow_pos H b e.

(** Powers are monotone in a non-negative exponent. *)
Ltac pow_mono b e1 e2 :=
  let H := fresh "Hmono" in
  assert (H : b ^ e1 <= b ^ e2) by (apply Z.pow_le_mono_r; lia).

(** ** Facts on binary64 rounding *)
Section Binary64.

(** Powers of two at the binary constructors of the exponent. *)
Lemma pow2_xO p : 2 ^ Zpos p~0 = 2 ^ Zpos p * 2 ^ Zpos p.
Proof.
  rewrite <- Z.pow_add_r by lia. f_equal. lia.
Qed.

Lemma pow2_xI p : 2 ^ Zpos p~1 = 2 * (2 ^ Zpos p * 2 ^ Zpos p).
Proof.
  rewrite <- pow2_xO, <- Z.pow_succ_r by lia. f_equal.
Qed.

(** [digits2_pos] counts the bits of a positive number. *)
Lemma digits2_size p : digits2_pos p = Pos.size p.
Proof. induction p; cbn; congruence. Qed.

Lemma digits2_bounds p :
  2 ^ (Zpos (digits2_pos p) - 1) <= Zpos p < 2 ^ Zpos (digits2_pos p).
Proof.
  rewrite digits2_size. split.
  - assert (H := Pos.size_le p).
    assert (E : Zpos (2 ^ Pos.size p) = 2 ^ Zpos (Pos.size p)) by (now rewrite Pos2Z.inj_pow).
    assert (2 ^ Zpos (Pos.size p) <= 2 * Zpos p) by (rewrite <- E; exact H).
    replace (Zpos (Pos.size p)) with (Z.succ (Zpos (Pos.size p) - 1)) in H0 by lia.
    rewrite Z.pow_succ_r in H0 by lia. lia.
  - assert (H := Pos.size_gt p).
    assert (E : Zpos (2 ^ Pos.size p) = 2 ^ Zpos (Pos.size p)) by (now rewrite Pos2Z.inj_pow).
    rewrite <- E. exact H.
Qed.

(** digits are characterised by the bounds *)
Lemma digits2_unique p d :
  2 ^ (d - 1) <= Zpos p < 2 ^ d -> Zpos (digits2_pos p) = d.
Proof.
  intros [H1 H2]. destruct (digits2_bounds p) as [B1 B2].
  assert (0 < d). { destruct (Z.ltb_spec 0 d); auto. rewrite Z.pow_neg_r in H1 by lia. 
    destruct (Z.eq_dec d 0). subst. cbn in H2. lia. rewrite (Z.pow_neg_r 2 d) in H2 by lia. lia. }
  destruct (Z.lt_trichotomy (Zpos (digits2_pos p)) d) as [L | [E | G]]; auto.
  - pow_mono 2 (Zpos (digits2_pos p)) (d - 1). lia.
  - pow_mono 2 d (Zpos (digits2_pos p) - 1). lia.
Qed.

(** Appending [d] zero bits multiplies by [2^d]. *)
Lemma iter_xO p d : Zpos (Pos.iter xO p d) = Zpos p * 2 ^ Zpos d.
Proof.
  revert p. induction d using Pos.peano_ind; intros p.
  - cbn. lia.
  - rewrite Pos.iter_succ, Pos2Z.inj_succ, Z.pow_succ_r by lia.
    rewrite Pos2Z.inj_xO, IHd. lia.
Qed.

(** One step of the right shift halves the mantissa; [p] steps divide it
    by [2^p]. *)
Lemma shr_1_m r : 0 <= shr_m r -> shr_m (shr_1 r) = shr_m r / 2.
Proof.
  destruct r as [m b s]. cbn. intros H.
  destruct m as [|[p|p|]|p]; cbn; try lia.
  - rewrite Pos2Z.inj_xI. apply Z.div_unique with 1; lia.
  - rewrite Pos2Z.inj_xO. apply Z.div_unique with 0; lia.
Qed.

Lemma iter_shr_m p :
  forall r, 0 <= shr_m r -> shr_m (iter_pos shr_1 p r) = shr_m r / 2 ^ Zpos p.
Proof.
  induction p as [p IH | p IH |]; intros r H; cbn [iter_pos].
  - pow_pos P 2 (Zpos p).
    assert (H1 : 0 <= shr_m (shr_1 r)) by (rewrite shr_1_m by auto; apply Z.div_pos; lia).
    assert (H2 : 0 <= shr_m (iter_pos shr_1 p (shr_1 r)))
      by (rewrite IH by auto; apply Z.div_pos; lia).
    rewrite (IH _ H2), (IH _ H1), shr_1_m by auto.
    rewrite !Z.div_div by lia. f_equal.
    now rewrite pow2_xI.
  - pow_pos P 2 (Zpos p).
    assert (H2 : 0 <= shr_m (iter_pos shr_1 p r))
      by (rewrite IH by auto; apply Z.div_pos; lia).
    rewrite (IH _ H2), (IH _ H).
    rewrite !Z.div_div by lia. f_equal.
    now rewrite pow2_xO.
  - now rewrite shr_1_m.
Qed.

Lemma Zdigits2_bound m : 0 <= m -> m < 2 ^ Zdigits2 m.
Proof.
  destruct m as [|p|p]; cbn [Zdigits2]; try lia.
  intros _. apply digits2_bounds.
Qed.

Lemma shr_record_of_loc_m m l : shr_m (shr_record_of_loc m l) = m.
Proof. destruct l as [|[]]; reflexivity. Qed.

Lemma fexp_ge e : e - 53 <= fexp 53 1024 e.
Proof. unfold fexp. lia. Qed.

(** [shr_fexp] divides the mantissa by a power of two and raises the
    exponent at least to the one the format asks for. *)
Lemma shr_fexp_m m e l :
  0 <= m ->
  shr_m (fst (shr_fexp 53 1024 m e l))
  = m / 2 ^ (snd (shr_fexp 53 1024 m e l) - e) /\
  e <= snd (shr_fexp 53 1024 m e l) /\
  fexp 53 1024 (Zdigits2 m + e) <= snd (shr_fexp 53 1024 m e l).
Proof.
  intros H. unfold shr_fexp, shr.
  destruct (fexp 53 1024 (Zdigits2 m + e) - e) as [|p|p] eqn:E; cbn [fst snd].
  - rewrite shr_record_of_loc_m, Z.sub_diag, Z.div_1_r. lia.
  - rewrite iter_shr_m by (rewrite shr_record_of_loc_m; lia).
    rewrite shr_record_of_loc_m. replace (e + Zpos p - e) with (Zpos p) by lia. lia.
  - rewrite shr_record_of_loc_m, Z.sub_diag, Z.div_1_r. lia.
Qed.

(** So the mantissa it leaves fits 53 bits. *)
Lemma shr_fexp_bound m e l :
  0 <= m -> 0 <= shr_m (fst (shr_fexp 53 1024 m e l)) < 2 ^ 53.
Proof.
  intros H. destruct (shr_fexp_m m e l H) as (-> & He & Hf).
  set (e' := snd (shr_fexp 53 1024 m e l)) in *.
  pow_pos P 2 (e' - e).
  split; [apply Z.div_pos; lia|].
  apply Z.div_lt_upper_bound; [lia|].
  rewrite <- Z.pow_add_r by lia.
  assert (B := Zdigits2_bound m H).
  assert (F := fexp_ge (Zdigits2 m + e)).
  pow_mono 2 (Zdigits2 m) (e' - e + 53).
  lia.
Qed.

Lemma round_nearest_even_range m l :
  0 <= m -> m <= round_nearest_even m l <= m + 1.
Proof.
  intros H. destruct l as [|[]]; cbn; try lia. destruct (Z.even m); lia.
Qed.



(** A 53-bit mantissa with an exponent in range is left as it is. *)
Lemma binary_round_aux_exact53 s m e :
  Zpos (digits2_pos m) = 53 -> -1074 <= e <= 971 ->
  binary_round_aux 53 1024 s (Zpos m) e loc_Exact = S754_finite s m e.
Proof.
  intros D He.
  assert (F : fexp 53 1024 (53 + e) = e) by (unfold fexp, emin; lia).
  unfold binary_round_aux, shr_fexp. cbn [Zdigits2]. rewrite D, F, Z.sub_diag.
  cbn [shr shr_record_of_loc shr_m loc_of_shr_record round_nearest_even Zdigits2].
  rewrite D, F, Z.sub_diag. cbn [shr shr_record_of_loc shr_m].
  destruct (Z.leb_spec e (1024 - 53)); [reflexivity | lia].
Qed.

Lemma digits2_shift p k :
  0 <= k -> Zpos (digits2_pos (Z.to_pos (Zpos p * 2 ^ k))) = Zpos (digits2_pos p) + k.
Proof.
  intros Hk. apply digits2_unique.
  pow_pos P 2 k.
  rewrite Z2Pos.id by lia.
  destruct (digits2_bounds p) as [B1 B2].
  replace (Zpos (digits2_pos p) + k - 1) with (Zpos (digits2_pos p) - 1 + k) by lia.
  rewrite !Z.pow_add_r by lia. nia.
Qed.

(** The Number value of an integer of at most 53 bits is its normal form. *)
Lemma binary_round_canon s p :
  Zpos (digits2_pos p) <= 53 -> binary_round 53 1024 s p 0 = canon s p.
Proof.
  intros D. unfold binary_round, shl_align, canon.
  assert (F : fexp 53 1024 (Zpos (digits2_pos p) + 0) = Zpos (digits2_pos p) - 53)
    by (unfold fexp, emin; lia).
  rewrite F.
  destruct (Zpos (digits2_pos p) - 53 - 0) as [|k|k] eqn:E.
  - assert (D53 : Zpos (digits2_pos p) = 53) by lia.
    rewrite D53. change (53 - 53) with 0.
    rewrite Z.pow_0_r, Z.mul_1_r. cbn [Z.to_pos].
    apply binary_round_aux_exact53; auto. lia.
  - lia.
  - assert (K : 53 - Zpos (digits2_pos p) = Zpos k) by lia.
    rewrite K, <- iter_xO. cbn [Z.to_pos].
    apply binary_round_aux_exact53.
    + replace (Pos.iter xO p k) with (Z.to_pos (Zpos p * 2 ^ Zpos k))
        by (rewrite <- iter_xO; reflexivity).
      rewrite digits2_shift; lia.
    + lia.
Qed.

Lemma ofZ_pos p : Zpos (digits2_pos p) <= 53 -> ofZ (Zpos p) = canon false p.
Proof. apply binary_round_canon. Qed.

Lemma ofZ_neg p : Zpos (digits2_pos p) <= 53 -> ofZ (Zneg p) = canon true p.
Proof. apply binary_round_canon. Qed.

Lemma digits2_le53 p : Zpos p < 2 ^ 53 -> Zpos (digits2_pos p) <= 53.
Proof.
  intros H. destruct (digits2_bounds p) as [B _].
  destruct (Z.leb_spec (Zpos (digits2_pos p)) 53); auto.
  pow_mono 2 53 (Zpos (digits2_pos p) - 1).
  lia.
Qed.





(** Normal forms compare as the integers they stand for. *)
Lemma canon_compare p q :
  Zpos (digits2_pos p) <= 53 -> Zpos (digits2_pos q) <= 53 ->
  SFcompare (canon false p) (canon false q) = Some (Zpos p ?= Zpos q).
Proof.
  intros Dp Dq. unfold canon, SFcompare. f_equal.
  destruct (digits2_bounds p) as [P1 P2], (digits2_bounds q) as [Q1 Q2].
  set (dp := Zpos (digits2_pos p)) in *. set (dq := Zpos (digits2_pos q)) in *.
  destruct (Z.compare_spec (dp - 53) (dq - 53)) as [E | L | G].
  - assert (E' : dp = dq) by lia. rewrite E'.
    rewrite Pos.compare_cont_spec. cbn [Pos.switch_Eq].
    pow_pos K 2 (53 - dq).
    rewrite <- Z2Pos.inj_compare by lia.
    rewrite <- Zmult_compare_compat_r by lia.
    destruct (Zpos p ?= Zpos q); reflexivity.
  - symmetry. apply Z.compare_lt_iff.
    pow_mono 2 dp (dq - 1). lia.
  - symmetry. apply Z.compare_gt_iff.
    pow_mono 2 dq (dp - 1). lia.
Qed.

Lemma canon_eqb p q :
  Zpos (digits2_pos p) <= 53 -> Zpos (digits2_pos q) <= 53 ->
  eqb (canon false p) (canon false q) = (Zpos p =? Zpos q).
Proof.
  intros Dp Dq. unfold eqb, SFeqb. rewrite canon_compare by auto.
  rewrite Z.eqb_compare. destruct (Zpos p ?= Zpos q); reflexivity.
Qed.

Lemma canon_leb p q :
  Zpos (digits2_pos p) <= 53 -> Zpos (digits2_pos q) <= 53 ->
  SFleb (canon false p) (canon false q) = (Zpos p <=? Zpos q).
Proof.
  intros Dp Dq. unfold SFleb. rewrite canon_compare by auto.
  rewrite Z.leb_compare. destruct (Zpos p ?= Zpos q); reflexivity.
Qed.

Lemma canon_abs s p : Math_abs (canon s p) = canon false p.
Proof. reflexivity. Qed.

(** Shifting out zero bits is exact. *)
Lemma shr_1_exact m :
  0 < m -> m mod 2 = 0 ->
  shr_1 {| shr_m := m; shr_r := false; shr_s := false |}
  = {| shr_m := m / 2; shr_r := false; shr_s := false |}.
Proof.
  intros H E. destruct m as [|[p|p|]|p]; try lia; cbn [shr_1 orb].
  - rewrite Pos2Z.inj_xI in E.
    replace (2 * Zpos p + 1) with (1 + Zpos p * 2) in E by lia.
    rewrite Z.mod_add in E by lia. cbn in E. lia.
  - f_equal. rewrite Pos2Z.inj_xO. symmetry. rewrite Z.mul_comm. apply Z.div_mul. lia.
  - cbn in E. lia.
Qed.

Lemma mod_pow2_split m a b :
  0 < a -> 0 < b -> m mod 2 ^ (a + b) = 0 ->
  m mod 2 ^ a = 0 /\ (m / 2 ^ a) mod 2 ^ b = 0.
Proof.
  intros Ha Hb E.
  pow_pos A 2 a.
  pow_pos B 2 b.
  rewrite Z.pow_add_r in E by lia.
  apply Z.mod_divide in E; [| lia]. destruct E as [k ->].
  split.
  - replace (k * (2 ^ a * 2 ^ b)) with (k * 2 ^ b * 2 ^ a) by lia.
    apply Z.mod_mul. lia.
  - replace (k * (2 ^ a * 2 ^ b)) with (k * 2 ^ b * 2 ^ a) by lia.
    rewrite Z.div_mul by lia. apply Z.mod_mul. lia.
Qed.

Lemma iter_shr_exact t : forall m,
  0 < m -> m mod 2 ^ Zpos t = 0 ->
  iter_pos shr_1 t {| shr_m := m; shr_r := false; shr_s := false |}
  = {| shr_m := m / 2 ^ Zpos t; shr_r := false; shr_s := false |}.
Proof.
  assert (Pos : forall m k, 0 < m -> 0 < k -> m mod 2 ^ k = 0 -> 0 < m / 2 ^ k).
  { intros m k Hm Hk E.
    pow_pos K 2 k.
    apply Z.mod_divide in E; [| lia]. destruct E as [c ->].
    rewrite Z.div_mul by lia. nia. }
  induction t as [t IH | t IH |]; intros m Hm E; cbn [iter_pos].
  - rewrite pow2_xI in E.
    pow_pos T 2 (Zpos t).
    assert (E1 : m mod 2 = 0).
    { apply Z.mod_divide in E; [| lia]. destruct E as [c ->].
      replace (c * (2 * (2 ^ Zpos t * 2 ^ Zpos t))) with (c * (2 ^ Zpos t * 2 ^ Zpos t) * 2) by lia.
      apply Z.mod_mul. lia. }
    assert (E2 : (m / 2) mod (2 ^ Zpos t * 2 ^ Zpos t) = 0).
    { apply Z.mod_divide in E; [| lia]. destruct E as [c ->].
      replace (c * (2 * (2 ^ Zpos t * 2 ^ Zpos t))) with (c * (2 ^ Zpos t * 2 ^ Zpos t) * 2) by lia.
      rewrite Z.div_mul by lia. apply Z.mod_mul. lia. }
    rewrite <- Z.pow_add_r in E2 by lia.
    destruct (mod_pow2_split (m / 2) (Zpos t) (Zpos t) ltac:(lia) ltac:(lia) E2) as [E3 E4].
    assert (M2 : 0 < m / 2).
    { change 2 with (2 ^ 1) at 1. apply Pos; auto. lia. }
    assert (M3 : 0 < m / 2 / 2 ^ Zpos t) by (apply Pos; auto; lia).
    rewrite (shr_1_exact m Hm E1), (IH _ M2 E3), (IH _ M3 E4).
    rewrite !Z.div_div by lia. rewrite pow2_xI. reflexivity.
  - rewrite pow2_xO in E. rewrite <- Z.pow_add_r in E by lia.
    destruct (mod_pow2_split m (Zpos t) (Zpos t) ltac:(lia) ltac:(lia) E) as [E3 E4].
    pow_pos T 2 (Zpos t).
    assert (M3 : 0 < m / 2 ^ Zpos t) by (apply Pos; auto; lia).
    rewrite (IH _ Hm E3), (IH _ M3 E4).
    rewrite Z.div_div by lia. rewrite pow2_xO. reflexivity.
  - change (2 ^ 1) with 2 in *. now apply shr_1_exact.
Qed.

Lemma fexp_small d : 1 <= d -> fexp 53 1024 d = d - 53.
Proof. unfold fexp, emin. lia. Qed.

Lemma Zdigits2_shift p k :
  0 <= k -> Zdigits2 (Zpos p * 2 ^ k) = Zpos (digits2_pos p) + k.
Proof.
  intros Hk. pow_pos K 2 k.
  rewrite <- (digits2_shift p k Hk).
  rewrite <- (Z2Pos.id (Zpos p * 2 ^ k)) at 1 by lia. reflexivity.
Qed.

(** Rounding a value that is an integer of at most 53 bits gives its
    normal form. *)
Lemma binary_round_aux_exact sg p k e M :
  M = Zpos p * 2 ^ k -> 0 <= k -> e = - k ->
  Zpos (digits2_pos p) <= 53 -> 53 - Zpos (digits2_pos p) <= k ->
  binary_round_aux 53 1024 sg M e loc_Exact = canon sg p.
Proof.
  intros -> Hk -> D Hs.
  set (dp := Zpos (digits2_pos p)) in *.
  assert (Hdp : 1 <= dp) by (unfold dp; lia).
  set (c := Z.to_pos (Zpos p * 2 ^ (53 - dp))).
  assert (C : Zpos c = Zpos p * 2 ^ (53 - dp)).
  { unfold c. apply Z2Pos.id.
    pow_pos_new 2 (53 - dp). lia. }
  pow_pos K 2 k.
  assert (S1 : shr_fexp 53 1024 (Zpos p * 2 ^ k) (- k) loc_Exact
               = ({| shr_m := Zpos c; shr_r := false; shr_s := false |}, dp - 53)).
  { unfold shr_fexp. rewrite Zdigits2_shift by lia. fold dp.
    replace (dp + k + - k) with dp by lia. rewrite fexp_small by lia.
    cbn [shr_record_of_loc]. unfold shr.
    destruct (dp - 53 - - k) as [|t|t] eqn:T; try lia.
    - f_equal; [| lia]. f_equal. rewrite C. f_equal. f_equal. lia.
    - rewrite iter_shr_exact.
      + f_equal; [| lia]. f_equal. rewrite C.
        replace k with ((53 - dp) + Zpos t) by lia.
        rewrite Z.pow_add_r, Z.mul_assoc by lia.
        apply Z.div_mul. pow_pos_new 2 (Zpos t). lia.
      + lia.
      + replace k with ((53 - dp) + Zpos t) by lia.
        rewrite Z.pow_add_r, Z.mul_assoc by lia.
        apply Z.mod_mul. pow_pos_new 2 (Zpos t). lia. }
  assert (Dc : Zpos (digits2_pos c) = 53).
  { unfold c. rewrite digits2_shift by lia. fold dp. lia. }
  assert (S2 : shr_fexp 53 1024 (Zpos c) (dp - 53) loc_Exact
               = ({| shr_m := Zpos c; shr_r := false; shr_s := false |}, dp - 53)).
  { unfold shr_fexp. cbn [Zdigits2]. rewrite Dc.
    replace (53 + (dp - 53)) with dp by lia. rewrite fexp_small, Z.sub_diag by lia.
    reflexivity. }
  unfold binary_round_aux. rewrite S1.
  cbn [shr_m loc_of_shr_record round_nearest_even]. rewrite S2. cbn [shr_m].
  destruct (Z.leb_spec (dp - 53) (1024 - 53)); [reflexivity | lia].
Qed.

(** The product of two numbers has as many bits as both together, or one
    less. *)
Lemma digits2_mul p t :
  Zpos (digits2_pos p) + Zpos (digits2_pos t) - 1 <= Zpos (digits2_pos (p * t))
  <= Zpos (digits2_pos p) + Zpos (digits2_pos t).
Proof.
  destruct (digits2_bounds p) as [P1 P2], (digits2_bounds t) as [T1 T2],
    (digits2_bounds (p * t)) as [M1 M2].
  rewrite Pos2Z.inj_mul in M1, M2.
  set (dp := Zpos (digits2_pos p)) in *. set (dt := Zpos (digits2_pos t)) in *.
  set (dm := Zpos (digits2_pos (p * t))) in *.
  assert (1 <= dp) by (unfold dp; lia). assert (1 <= dt) by (unfold dt; lia).
  assert (1 <= dm) by (unfold dm; lia).
  assert (A : 2 ^ (dp - 1) * 2 ^ (dt - 1) <= Zpos p * Zpos t) by nia.
  assert (B : Zpos p * Zpos t < 2 ^ dp * 2 ^ dt) by nia.
  rewrite <- Z.pow_add_r in A, B by lia.
  split.
  - destruct (Z.leb_spec (dp + dt - 1) dm); auto.
    pow_mono 2 dm (dp - 1 + (dt - 1)). lia.
  - destruct (Z.leb_spec dm (dp + dt)); auto.
    pow_mono 2 (dp + dt) (dm - 1). lia.
Qed.

(** Dividing an exact multiple gives the normal form of the quotient. *)
Lemma div_exact s p t :
  Zpos (digits2_pos p) <= 53 ->
  SFdiv 53 1024 (S754_finite s (p * t) 0) (S754_finite false t 0) = canon s p.
Proof.
  intros D. unfold SFdiv, SFdiv_core_binary. cbn [Zdigits2].
  destruct (digits2_mul p t) as [L U].
  set (dp := Zpos (digits2_pos p)) in *. set (dt := Zpos (digits2_pos t)) in *.
  set (dm := Zpos (digits2_pos (p * t))) in *.
  assert (1 <= dp) by (unfold dp; lia).
  replace (dm + 0 - (dt + 0)) with (dm - dt) by lia.
  assert (F : fexp 53 1024 (dm - dt) = dm - dt - 53) by (unfold fexp, emin; lia).
  rewrite F. change (0 - 0) with 0.
  replace (Z.min (dm - dt - 53) 0) with (dm - dt - 53) by lia.
  set (k := 0 - (dm - dt - 53)).
  assert (Hk : 0 <= k) by (unfold k; lia).
  pow_pos K 2 k.
  assert (Hm : match k with
               | 0 => Zpos (p * t)
               | Zpos _ => Z.shiftl (Zpos (p * t)) k
               | Zneg _ => 0
               end = Zpos p * 2 ^ k * Zpos t).
  { destruct k as [|kp|kp] eqn:Ek; try lia.
    - rewrite Z.shiftl_mul_pow2 by lia. lia. }
  rewrite Hm.
  destruct (Z.div_eucl (Zpos p * 2 ^ k * Zpos t) (Zpos t)) as [q r] eqn:E.
  assert (Hq : q = Zpos p * 2 ^ k).
  { assert (Q := f_equal fst E). cbn [fst] in Q.
    change (fst (Z.div_eucl (Zpos p * 2 ^ k * Zpos t) (Zpos t)))
      with ((Zpos p * 2 ^ k * Zpos t) / Zpos t) in Q.
    rewrite Z.div_mul in Q by lia. auto. }
  assert (Hr : r = 0).
  { assert (Q := f_equal snd E). cbn [snd] in Q.
    change (snd (Z.div_eucl (Zpos p * 2 ^ k * Zpos t) (Zpos t)))
      with ((Zpos p * 2 ^ k * Zpos t) mod Zpos t) in Q.
    rewrite Z.mod_mul in Q by lia. auto. }
  subst r.
  assert (NL : new_location (Zpos t) 0 = loc_Exact).
  { unfold new_location, new_location_even, new_location_odd.
    destruct (Z.even (Zpos t)); reflexivity. }
  rewrite NL, xorb_false_r.
  apply (binary_round_aux_exact s p k); auto; unfold k; lia.
Qed.

End Binary64.

(** ** Facts on digit strings *)
Section DigitStrings.

(** Appending, taking and dropping on strings. *)
Lemma sapp_assoc (a b c : string) : (a ++ b) ++ c = a ++ (b ++ c).
Proof. induction a as [| x a IH]; cbn; [reflexivity | now rewrite IH]. Qed.

Lemma sapp_nil_r (a : string) : a ++ "" = a.
Proof. induction a as [| x a IH]; cbn; [reflexivity | now rewrite IH]. Qed.

Lemma slength_app (a b : string) : length (a ++ b) = (length a + length b)%nat.
Proof. induction a as [| x a IH]; cbn; [reflexivity | now rewrite IH]. Qed.

Lemma take_app (a b : string) : take (length a) (a ++ b) = a.
Proof.
  unfold take. induction a as [| x a IH]; cbn.
  - destruct b; reflexivity.
  - now rewrite IH.
Qed.

Lemma substring_all (b : string) : substring 0 (length b) b = b.
Proof. induction b as [| x b IH]; cbn; [reflexivity | now rewrite IH]. Qed.

Lemma drop_app (a b : string) : drop (length a) (a ++ b) = b.
Proof.
  unfold drop. rewrite slength_app.
  replace (length a + length b - length a)%nat with (length b) by lia.
  induction a as [| x a IH]; cbn [length append substring].
  - apply substring_all.
  - exact IH.
Qed.

(** The ten digits and their characters. *)
Lemma digit_cases d : 0 <= d < 10 ->
  d = 0 \/ d = 1 \/ d = 2 \/ d = 3 \/ d = 4 \/ d = 5 \/ d = 6 \/ d = 7 \/ d = 8 \/ d = 9.
Proof. lia. Qed.

Lemma digit_char_props d : 0 <= d < 10 ->
  digit_val (digit_char d) = d /\ is_digit (digit_char d) = true /\
  is_space (digit_char d) = false /\
  Ascii.eqb (digit_char d) "," = false /\ Ascii.eqb (digit_char d) "." = false /\
  Ascii.eqb (digit_char d) "+" = false /\ Ascii.eqb (digit_char d) "-" = false /\
  Ascii.eqb (digit_char d) "I" = false.
Proof.
  intros H.
  destruct (digit_cases d H) as [-> | [-> | [-> | [-> | [-> | [-> | [-> | [-> | [-> | ->]]]]]]]]];
    vm_compute; repeat split.
Qed.

(** [digits_fuel] pushes digits in front of its accumulator, and any fuel
    beyond the binary length of the number gives the same digits. *)
Lemma digits_fuel_app f : forall n acc,
  digits_fuel f n acc = digits_fuel f n "" ++ acc.
Proof.
  induction f as [| f IH]; intros n acc; cbn [digits_fuel]; [reflexivity|].
  destruct (n <? 10); [reflexivity|].
  rewrite IH, (IH _ (String _ "")), sapp_assoc. reflexivity.
Qed.

Lemma pow2_gt_1 f : 1 < 2 ^ Z.of_nat f -> exists f', f = S f'.
Proof. destruct f; [cbn; lia | eauto]. Qed.

Lemma digits_fuel_enough f1 : forall f2 n acc,
  0 <= n < 2 ^ Z.of_nat (S f1) -> n < 2 ^ Z.of_nat (S f2) ->
  digits_fuel (S f1) n acc = digits_fuel (S f2) n acc.
Proof.
  induction f1 as [| f1 IH]; intros f2 n acc H1 H2; cbn [digits_fuel].
  - change (2 ^ Z.of_nat 1) with 2 in H1.
    destruct (Z.ltb_spec n 10); [reflexivity | lia].
  - destruct (Z.ltb_spec n 10); [reflexivity|].
    rewrite Nat2Z.inj_succ, Z.pow_succ_r in H1, H2 by lia.
    assert (Q : 0 <= n / 10 < 2 ^ Z.of_nat (S f1)).
    { split; [apply Z.div_pos; lia|]. apply Z.div_lt_upper_bound; lia. }
    assert (Q2 : n / 10 < 2 ^ Z.of_nat f2) by (apply Z.div_lt_upper_bound; lia).
    assert (1 <= n / 10) by (apply Z.div_le_lower_bound; lia).
    destruct (pow2_gt_1 f2 ltac:(lia)) as [f2' ->].
    apply IH; auto.
Qed.

(** The recursion equations of [digits]. *)
Lemma digits_small n : 0 <= n < 10 -> digits n = String (digit_char n) "".
Proof.
  intros H. unfold digits. cbn [digits_fuel].
  rewrite Z.mod_small by lia.
  destruct (Z.ltb_spec n 10); [reflexivity | lia].
Qed.

Lemma digits_step n :
  10 <= n -> digits n = digits (n / 10) ++ String (digit_char (n mod 10)) "".
Proof.
  intros H. unfold digits at 1. cbn [digits_fuel].
  destruct (Z.ltb_spec n 10); [lia|].
  rewrite digits_fuel_app. f_equal.
  assert (1 <= n / 10) by (apply Z.div_le_lower_bound; lia).
  assert (L := Z.log2_spec n ltac:(lia)).
  assert (L0 : 0 <= Z.log2 n) by apply Z.log2_nonneg.
  assert (L1 : 0 < Z.log2 n).
  { destruct (Z.eq_dec (Z.log2 n) 0) as [E|]; [| lia]. rewrite E in L. cbn in L. lia. }
  destruct (Z.to_nat (Z.log2 n)) as [| f] eqn:E; [lia|].
  unfold digits. apply digits_fuel_enough.
  - split; [lia|]. apply Z.div_lt_upper_bound; [lia|].
    rewrite <- E, Z2Nat.id by lia.
    replace (Z.succ (Z.log2 n)) with (Z.log2 n + 1) in L by lia.
    rewrite Z.pow_add_r in L by lia. lia.
  - rewrite Nat2Z.inj_succ, Z2Nat.id by apply Z.log2_nonneg.
    apply Z.log2_spec. lia.
Qed.

(** Induction over the decimal digits of a non-negative integer. *)
Lemma digits_ind (P : Z -> Prop) :
  (forall n, 0 <= n < 10 -> P n) ->
  (forall n, 10 <= n -> P (n / 10) -> P n) ->
  forall n, 0 <= n -> P n.
Proof.
  intros H0 H1 n Hn.
  enough (H : 0 <= n -> P n) by auto.
  pattern n. apply Z_lt_induction; [| exact Hn].
  intros m IH Hm. destruct (Z_lt_le_dec m 10) as [Hs | Hb].
  - apply H0. lia.
  - apply H1; [exact Hb|]. apply IH.
    + split; [apply Z.div_pos; lia|]. apply Z.div_lt_upper_bound; lia.
    + apply Z.div_pos; lia.
Qed.

Lemma all_digits_app a b : all_digits (a ++ b) = all_digits a && all_digits b.
Proof. induction a as [| x a IH]; cbn; [reflexivity | now rewrite IH, andb_assoc]. Qed.

(** [digits n] consists of decimal digits, and reading them gives [n] back. *)
Lemma digits_all n : 0 <= n -> all_digits (digits n) = true.
Proof.
  intros Hn. pattern n. apply digits_ind; [| | exact Hn]; clear n Hn.
  - intros n H. rewrite digits_small by auto. cbn.
    destruct (digit_char_props n H) as (_ & -> & _). reflexivity.
  - intros n H IH. rewrite digits_step, all_digits_app, IH by auto. cbn.
    destruct (digit_char_props (n mod 10)) as (_ & -> & _); [| reflexivity].
    apply Z.mod_pos_bound. lia.
Qed.

Lemma digits_value_app a b acc :
  digits_value (a ++ b) acc = digits_value b (digits_value a acc).
Proof. revert acc. induction a as [| x a IH]; intros acc; cbn; auto. Qed.

Lemma digits_value_digits n : 0 <= n -> digits_value (digits n) 0 = n.
Proof.
  intros Hn. pattern n. apply digits_ind; [| | exact Hn]; clear n Hn.
  - intros n H. rewrite digits_small by auto. cbn [digits_value].
    destruct (digit_char_props n H) as (-> & _). lia.
  - intros n H IH. rewrite digits_step, digits_value_app, IH by auto.
    cbn [digits_value].
    destruct (digit_char_props (n mod 10)) as (-> & _).
    + apply Z.mod_pos_bound. lia.
    + rewrite (Z.div_mod n 10) at 3 by lia. lia.
Qed.

Lemma digits_value_zeros j acc :
  digits_value (zeros j) acc = acc * 10 ^ Z.of_nat j.
Proof.
  revert acc. induction j as [| j IH]; intros acc.
  - cbn. lia.
  - cbn [zeros digits_value]. rewrite IH, Nat2Z.inj_succ, Z.pow_succ_r by lia.
    change (digit_val "0") with 0. lia.
Qed.

Lemma zeros_all j : all_digits (zeros j) = true.
Proof. induction j; cbn; auto. Qed.

Lemma zeros_length j : length (zeros j) = j.
Proof. induction j; cbn; auto. Qed.

Lemma zeros_snoc j : zeros j ++ "0" = zeros (S j).
Proof. induction j as [| j IH]; cbn; [reflexivity|]. cbn in IH. now rewrite IH. Qed.

(** A factor of ten appends a zero. *)
Lemma digits_times_10 n : 0 < n -> digits (n * 10) = digits n ++ "0".
Proof.
  intros H. rewrite digits_step by lia.
  rewrite Z.div_mul, Z.mod_mul by lia. reflexivity.
Qed.

Lemma digits_times_pow10 n j :
  0 < n -> digits (n * 10 ^ Z.of_nat j) = digits n ++ zeros j.
Proof.
  intros H. induction j as [| j IH].
  - cbn [zeros]. rewrite sapp_nil_r. f_equal. cbn. lia.
  - rewrite Nat2Z.inj_succ, Z.pow_succ_r by lia.
    replace (n * (10 * 10 ^ Z.of_nat j)) with (n * 10 ^ Z.of_nat j * 10) by lia.
    pow_pos_new 10 (Z.of_nat j).
    rewrite digits_times_10 by nia.
    now rewrite IH, sapp_assoc, zeros_snoc.
Qed.

(** The number of digits is the decimal magnitude. *)
Lemma digits_length n :
  0 < n ->
  10 ^ (Z.of_nat (length (digits n)) - 1) <= n < 10 ^ Z.of_nat (length (digits n)).
Proof.
  intros Hn. assert (H0 : 0 <= n) by lia. revert Hn.
  pattern n. apply digits_ind; [| | exact H0]; clear n H0.
  - intros n H Hn. rewrite digits_small by auto. cbn. lia.
  - intros n H IH Hn. rewrite digits_step, slength_app by auto.
    cbn [length]. 
    assert (1 <= n / 10) by (apply Z.div_le_lower_bound; lia).
    specialize (IH ltac:(lia)).
    set (l := length (digits (n / 10))) in *.
    replace (Z.of_nat (l + 1) - 1) with (Z.succ (Z.of_nat l - 1)) by lia.
    replace (Z.of_nat (l + 1)) with (Z.succ (Z.of_nat l)) by lia.
    assert (1 <= Z.of_nat l).
    { destruct l; [| lia]. cbn in IH. lia. }
    rewrite !Z.pow_succ_r by lia.
    assert (M := Z.div_mod n 10 ltac:(lia)).
    assert (B := Z.mod_pos_bound n 10 ltac:(lia)).
    lia.
Qed.

Lemma digits_nonempty n : digits n <> "".
Proof.
  unfold digits. cbn [digits_fuel]. destruct (n <? 10); [discriminate|].
  rewrite digits_fuel_app. destruct (digits_fuel _ _ ""); discriminate.
Qed.

(** [span_digits] takes a run of digits up to the first other character. *)
Lemma span_digits_app a r :
  all_digits a = true ->
  match r with String c _ => is_digit c = false | EmptyString => True end ->
  span_digits (a ++ r) = (a, r).
Proof.
  intros Ha Hr. induction a as [| x a IH]; cbn [append].
  - destruct r as [| c r]; cbn; [reflexivity | now rewrite Hr].
  - cbn in Ha. apply andb_prop in Ha as [Hx Ha].
    cbn [span_digits]. now rewrite Hx, IH.
Qed.

End DigitStrings.

(** ** The formatter and the parser on integers *)
Section Formatter.

(** A character that passes [is_digit] is one of the ten digit characters. *)
Lemma is_digit_char c : is_digit c = true -> exists d, 0 <= d < 10 /\ c = digit_char d.
Proof.
  unfold is_digit. intros H. apply andb_prop in H as [H1 H2].
  apply Nat.leb_le in H1, H2.
  exists (Z.of_nat (nat_of_ascii c) - 48). split; [lia|].
  unfold digit_char.
  replace (Z.to_nat (48 + (Z.of_nat (nat_of_ascii c) - 48))) with (nat_of_ascii c) by lia.
  now rewrite ascii_nat_embedding.
Qed.

Lemma digits_head n :
  0 <= n -> exists d r, 0 <= d < 10 /\ digits n = String (digit_char d) r.
Proof.
  intros Hn. assert (A := digits_all n Hn).
  destruct (digits n) as [| c r] eqn:E; [now apply digits_nonempty in E|].
  cbn in A. apply andb_prop in A as [A _].
  destruct (is_digit_char c A) as (d & Hd & ->). eauto.
Qed.

(** The exact fraction of a normal form is the integer over a power of
    two. *)
Lemma frac_of_canon p :
  Zpos (digits2_pos p) <= 53 ->
  exists Q, 0 < Q /\ Q = 2 ^ (53 - Zpos (digits2_pos p)) /\
    frac_of (Z.to_pos (Zpos p * 2 ^ (53 - Zpos (digits2_pos p))))
      (Zpos (digits2_pos p) - 53) = (Zpos p * Q, Q).
Proof.
  intros D. set (dp := Zpos (digits2_pos p)) in *.
  exists (2 ^ (53 - dp)).
  pow_pos K 2 (53 - dp).
  split; [exact K|]. split; [reflexivity|].
  unfold frac_of. rewrite Z2Pos.id by lia.
  destruct (Z.leb_spec 0 (dp - 53)).
  - assert (E : dp = 53) by lia. rewrite E. change (53 - 53) with 0.
    rewrite Z.pow_0_r. f_equal. lia.
  - f_equal. f_equal. lia.
Qed.

(** [toFixed] on an integer: its digits, a point and [f] zeros. *)
Lemma fixed_string_pow10 n f :
  0 < n ->
  fixed_string (n * 10 ^ Z.of_nat (S f)) (S f) = digits n ++ "." ++ zeros (S f).
Proof.
  intros H. unfold fixed_string. rewrite digits_times_pow10 by auto.
  set (L := length (digits n)).
  assert (HL : (1 <= L)%nat).
  { unfold L. destruct (digits n) eqn:E; [now apply digits_nonempty in E | cbn; lia]. }
  rewrite slength_app, zeros_length. fold L.
  destruct (Nat.leb_spec (L + S f) (S f)); [lia|].
  rewrite slength_app, zeros_length.
  replace (length (digits n) + S f - S f)%nat with (length (digits n)) by lia.
  now rewrite take_app, drop_app.
Qed.

Lemma toFixed_canon s p f :
  Zpos (digits2_pos p) <= 53 -> Zpos p < 10 ^ 21 ->
  Number_toFixed (canon s p) (S f)
  = sign_str s ++ digits (Zpos p) ++ "." ++ zeros (S f).
Proof.
  intros D B. unfold canon, Number_toFixed.
  destruct (frac_of_canon p D) as (Q & HQ & _ & ->).
  destruct (Z.leb_spec (10 ^ 21 * Q) (Zpos p * Q)); [nia|].
  replace (2 * (Zpos p * Q) * 10 ^ Z.of_nat (S f) + Q)
    with (Zpos p * 10 ^ Z.of_nat (S f) * (2 * Q) + Q) by lia.
  rewrite Z.div_add_l, Z.div_small, Z.add_0_r by lia.
  now rewrite fixed_string_pow10.
Qed.

(** A string that starts with a digit has no leading white space, no sign
    and is not [Infinity]. *)
Lemma digit_head_props d r : 0 <= d < 10 ->
  trim_left (String (digit_char d) r) = String (digit_char d) r /\
  sign_prefix (String (digit_char d) r) = (false, String (digit_char d) r) /\
  prefix "Infinity" (String (digit_char d) r) = false.
Proof.
  intros H.
  destruct (digit_cases d H) as [-> | [-> | [-> | [-> | [-> | [-> | [-> | [-> | [-> | ->]]]]]]]]];
    (split; [| split]); vm_compute; reflexivity.
Qed.

(** The decimal literals [toString] and [toFixed] write for an integer. *)
Lemma unsigned_decimal_int n :
  0 <= n -> unsigned_decimal (digits n) = Some (n, 0, "").
Proof.
  intros Hn. unfold unsigned_decimal.
  rewrite <- (sapp_nil_r (digits n)) at 1.
  rewrite span_digits_app by (auto using digits_all).
  destruct (digits_head n Hn) as (d & r & Hd & E).
  rewrite <- (digits_value_digits n Hn) at 2.
  rewrite E. cbn [exponent_part length Z.of_nat]. rewrite sapp_nil_r.
  repeat f_equal.
Qed.

Lemma unsigned_decimal_fixed n j :
  0 <= n ->
  unsigned_decimal (digits n ++ "." ++ zeros j)
  = Some (n * 10 ^ Z.of_nat j, - Z.of_nat j, "").
Proof.
  intros Hn. unfold unsigned_decimal.
  rewrite span_digits_app; [| now apply digits_all | reflexivity].
  cbn [append].
  rewrite <- (sapp_nil_r (zeros j)) at 1.
  rewrite span_digits_app; [| apply zeros_all | exact I].
  destruct (digits_head n Hn) as (d & r & Hd & E).
  assert (V : digits_value (digits n ++ zeros j) 0 = n * 10 ^ Z.of_nat j).
  { now rewrite digits_value_app, digits_value_zeros, digits_value_digits. }
  rewrite <- V, E. cbn [exponent_part]. rewrite zeros_length.
  repeat f_equal.
Qed.

(** Their Number values. *)
Lemma ofDecimal_int s p :
  Zpos (digits2_pos p) <= 53 -> ofDecimal s (Zpos p) 0 = canon s p.
Proof.
  intros D. unfold ofDecimal. cbn [Z.leb Z.compare Z.ltb].
  change (10 ^ 0) with 1. rewrite Z.mul_1_r.
  destruct s; [apply ofZ_neg | apply ofZ_pos]; auto.
Qed.

Lemma ofDecimal_scaled s p j :
  Zpos (digits2_pos p) <= 53 -> (0 < j <= 1000)%nat ->
  ofDecimal s (Zpos p * 10 ^ Z.of_nat j) (- Z.of_nat j) = canon s p.
Proof.
  intros D Hj.
  pow_pos T 10 (Z.of_nat j).
  destruct (10 ^ Z.of_nat j) as [|t|t] eqn:E; try lia.
  change (Zpos p * Zpos t) with (Zpos (p * t)).
  unfold ofDecimal.
  destruct (Z.leb_spec 0 (- Z.of_nat j)); [lia|].
  assert (L := Z.log2_nonneg (Zpos (p * t))).
  destruct (Z.ltb_spec (- Z.of_nat j + Z.log2 (Zpos (p * t))) (-1100)); [lia|].
  rewrite Z.opp_involutive, E. cbn [Z.to_pos].
  now apply div_exact.
Qed.

Lemma str_decimal_prefix_int s p :
  Zpos (digits2_pos p) <= 53 ->
  str_decimal_prefix (sign_str s ++ digits (Zpos p)) = Some (canon s p, "").
Proof.
  intros D. unfold str_decimal_prefix.
  destruct (digits_head (Zpos p) ltac:(lia)) as (d & r & Hd & E).
  destruct (digit_head_props d r Hd) as (_ & Hs & Hp).
  assert (S : sign_prefix (sign_str s ++ digits (Zpos p)) = (s, digits (Zpos p))).
  { destruct s; cbn [sign_str append]; [reflexivity|]. now rewrite E. }
  rewrite S.
  assert (P : prefix "Infinity" (digits (Zpos p)) = false) by now rewrite E.
  rewrite P, unsigned_decimal_int by lia.
  now rewrite ofDecimal_int.
Qed.

Lemma str_decimal_prefix_fixed s p j :
  Zpos (digits2_pos p) <= 53 -> (0 < j <= 1000)%nat ->
  str_decimal_prefix (sign_str s ++ digits (Zpos p) ++ "." ++ zeros j)
  = Some (canon s p, "").
Proof.
  intros D Hj. unfold str_decimal_prefix.
  destruct (digits_head (Zpos p) ltac:(lia)) as (d & r & Hd & E).
  destruct (digit_head_props d (r ++ "." ++ zeros j) Hd) as (_ & Hs & Hp).
  assert (S : sign_prefix (sign_str s ++ digits (Zpos p) ++ "." ++ zeros j)
              = (s, digits (Zpos p) ++ "." ++ zeros j)).
  { destruct s; cbn [sign_str append]; [reflexivity|]. rewrite E. exact Hs. }
  rewrite S.
  assert (P : prefix "Infinity" (digits (Zpos p) ++ "." ++ zeros j) = false)
    by (rewrite E; exact Hp).
  rewrite P, unsigned_decimal_fixed by lia.
  now rewrite ofDecimal_scaled.
Qed.

Lemma trim_left_signed s n r :
  0 <= n -> trim_left (sign_str s ++ digits n ++ r) = sign_str s ++ digits n ++ r.
Proof.
  intros Hn. destruct s; [reflexivity|]. cbn [sign_str append].
  destruct (digits_head n Hn) as (d & t & Hd & E). rewrite E.
  apply (digit_head_props d (t ++ r) Hd).
Qed.

(** [parseFloat] reads both numerals back as the integer. *)
Lemma parseFloat_int s p :
  Zpos (digits2_pos p) <= 53 ->
  parseFloat (sign_str s ++ digits (Zpos p)) = canon s p.
Proof.
  intros D. unfold parseFloat.
  rewrite <- (sapp_nil_r (digits (Zpos p))) at 1.
  rewrite trim_left_signed, sapp_nil_r by lia.
  now rewrite str_decimal_prefix_int.
Qed.

Lemma parseFloat_fixed s p j :
  Zpos (digits2_pos p) <= 53 -> (0 < j <= 1000)%nat ->
  parseFloat (sign_str s ++ digits (Zpos p) ++ "." ++ zeros j) = canon s p.
Proof.
  intros D Hj. unfold parseFloat.
  rewrite trim_left_signed by lia.
  now rewrite str_decimal_prefix_fixed.
Qed.

(** The first guess of [mag10] is within reach of the decimal magnitude for
    every binary magnitude below 64. *)
Lemma est_ok_all a : 0 <= a < 64 -> est_ok a = true.
Proof.
  intros H.
  assert (A : forallb est_ok (map Z.of_nat (seq 0 64)) = true) by (vm_compute; reflexivity).
  rewrite forallb_forall in A. apply A.
  apply in_map_iff. exists (Z.to_nat a). split; [lia|].
  apply in_seq. lia.
Qed.

(** On an integer [p], the test [P / Q < 10^n] of [mag_search] is
    [0 < n] and [p < 10^n]. *)
Lemma lt10_int p Q n :
  0 < Q ->
  (scale_num (Zpos p * Q) n <? scale_den Q n) = (0 <? n) && (Zpos p <? 10 ^ n).
Proof.
  intros HQ. unfold scale_num, scale_den.
  destruct (Z.leb_spec 0 n) as [Hn | Hn].
  - pow_pos T 10 n.
    destruct (Z.ltb_spec 0 n) as [H0 | H0]; cbn [andb].
    + destruct (Z.ltb_spec (Zpos p) (10 ^ n)), (Z.ltb_spec (Zpos p * Q) (Q * 10 ^ n));
        auto; nia.
    + assert (n = 0) by lia. subst n. rewrite Z.pow_0_r.
      destruct (Z.ltb_spec (Zpos p * Q) (Q * 1)); auto; nia.
  - destruct (Z.ltb_spec 0 n); [lia|]. cbn [andb].
    pow_pos T 10 (- n).
    destruct (Z.ltb_spec (Zpos p * Q * 10 ^ (- n)) Q); auto.
    assert (Q <= Zpos p * Q) by nia.
    assert (Zpos p * Q * 1 <= Zpos p * Q * 10 ^ (- n))
      by (apply Z.mul_le_mono_nonneg_l; lia).
    lia.
Qed.

(** [mag10] of an integer is the number of its decimal digits. *)
Lemma mag_search_int p Q fuel : forall n,
  0 < Q ->
  n <= Z.of_nat (length (digits (Zpos p))) <= n + Z.of_nat fuel ->
  mag_search fuel (Zpos p * Q) Q n = Z.of_nat (length (digits (Zpos p))).
Proof.
  destruct (digits_length (Zpos p) ltac:(lia)) as [L1 L2].
  set (L := Z.of_nat (length (digits (Zpos p)))) in *.
  induction fuel as [| fuel IH]; intros n HQ Hn; cbn [mag_search].
  - lia.
  - rewrite lt10_int by auto.
    destruct (Z.ltb_spec 0 n) as [H0 | H0]; cbn [andb].
    + destruct (Z.ltb_spec (Zpos p) (10 ^ n)) as [Hlt | Hge].
      * destruct (Z.eq_dec n L) as [| Hne]; [auto|].
        pow_mono 10 n (L - 1). lia.
      * apply IH; auto. destruct (Z.eq_dec n L) as [-> | Hne]; lia.
    + apply IH; auto. assert (1 <= L); [| lia].
      destruct (Z.leb_spec 1 L); auto. 
      assert (L <= 0) by lia.
      pow_mono 10 L 0.
      change (10 ^ 0) with 1 in *. lia.
Qed.

Lemma mag10_int p k :
  0 <= k -> Zpos p < 2 ^ 63 ->
  mag10 (Zpos p * 2 ^ k) (2 ^ k) = Z.of_nat (length (digits (Zpos p))).
Proof.
  intros Hk B. unfold mag10.
  pow_pos K 2 k.
  rewrite Z.log2_mul_pow2, Z.log2_pow2 by lia.
  replace (k + Z.log2 (Zpos p) - k) with (Z.log2 (Zpos p)) by lia.
  set (a := Z.log2 (Zpos p)).
  destruct (Z.log2_spec (Zpos p) ltac:(lia)) as [A1 A2]. fold a in A1, A2.
  assert (Ha : 0 <= a < 64).
  { split; [apply Z.log2_nonneg|].
    destruct (Z.ltb_spec a 64); auto.
    pow_mono 2 63 a. lia. }
  assert (E := est_ok_all a Ha). unfold est_ok in E.
  set (est := a * 30103 / 100000 - 1) in *.
  apply andb_prop in E as [E1 E2]. apply Z.leb_le in E2.
  destruct (digits_length (Zpos p) ltac:(lia)) as [L1 L2].
  apply mag_search_int; auto.
  set (L := Z.of_nat (length (digits (Zpos p)))) in *.
  assert (HL : 1 <= L).
  { destruct (Z.leb_spec 1 L); auto.
    pow_mono 10 L 0.
    change (10 ^ 0) with 1 in *. lia. }
  replace (Z.succ a) with (a + 1) in A2 by lia.
  split.
  - apply orb_prop in E1 as [E1 | E1].
    + apply Z.leb_le in E1. lia.
    + apply Z.leb_le in E1.
      destruct (Z.leb_spec est L); auto.
      pow_mono 10 L (est - 1). lia.
  - change (Z.of_nat 5) with 5.
    destruct (Z.leb_spec L (est + 5)); auto.
    pow_mono 10 (est + 5) (L - 1). lia.
Qed.

Lemma pow10_15_lt : 2 * 10 ^ 15 < 2 ^ 53.
Proof. reflexivity. Qed.

(** A decimal [q * 10^j] below [2^53] is read as the normal form of that
    integer. *)
Lemma ofDecimal_nonneg_exp q j :
  0 <= j <= 310 -> 0 < q -> q * 10 ^ j < 2 ^ 53 ->
  exists c, Zpos c = q * 10 ^ j /\ Zpos (digits2_pos c) <= 53 /\
            ofDecimal false q j = canon false c.
Proof.
  intros Hj Hq B.
  pow_pos T 10 j.
  exists (Z.to_pos (q * 10 ^ j)).
  assert (E : Zpos (Z.to_pos (q * 10 ^ j)) = q * 10 ^ j) by (apply Z2Pos.id; nia).
  split; [exact E|].
  assert (D : Zpos (digits2_pos (Z.to_pos (q * 10 ^ j))) <= 53)
    by (apply digits2_le53; lia).
  split; [exact D|].
  unfold ofDecimal. destruct q as [|q|q]; try lia.
  destruct (Z.leb_spec 0 j); [| lia].
  destruct (Z.ltb_spec 310 j); [lia|].
  rewrite <- E. now apply ofZ_pos.
Qed.

(** An integer below [10^15] has between 1 and 15 digits. *)
Lemma L_range p :
  Zpos p < 10 ^ 15 ->
  1 <= Z.of_nat (length (digits (Zpos p))) <= 15 /\
  10 ^ (Z.of_nat (length (digits (Zpos p))) - 1) <= Zpos p
  < 10 ^ Z.of_nat (length (digits (Zpos p))).
Proof.
  intros Bp.
  destruct (digits_length (Zpos p) ltac:(lia)) as [L1 L2].
  set (L := Z.of_nat (length (digits (Zpos p)))) in *.
  assert (HL : 1 <= L).
  { destruct (Z.leb_spec 1 L); auto.
    assert (10 ^ L <= 10 ^ 0) by (apply Z.pow_le_mono_r; unfold L; lia).
    change (10 ^ 0) with 1 in *. lia. }
  repeat split; auto.
  destruct (Z.leb_spec L 15); auto.
  pow_mono 10 15 (L - 1). lia.
Qed.

Section ShortestInt.

Variable p : positive.
Variable kq : Z.
Hypothesis Hkq : 0 <= kq.
Hypothesis Dp : Zpos (digits2_pos p) <= 53.
Hypothesis Bp : Zpos p < 10 ^ 15.

Let L := Z.of_nat (length (digits (Zpos p))).
Let Q := 2 ^ kq.
Let P := Zpos p * Q.

Lemma shortest_step_int k :
  1 <= k <= L ->
  shortest_step (canon false p) P Q L k
  = if Zpos p mod 10 ^ (L - k) =? 0 then Some (Zpos p / 10 ^ (L - k), L)
    else None.
Proof.
  intros Hk. destruct (L_range p Bp) as ((HL1 & HL15) & L1 & L2).
  fold L in HL1, HL15, L1, L2.
  assert (HQ : 0 < Q) by (apply Z.pow_pos_nonneg; lia).
  set (j := L - k).
  assert (Hj : 0 <= j <= 14) by (unfold j; lia).
  pow_pos T 10 j.
  assert (T15 : 10 ^ j <= 10 ^ 15) by (apply Z.pow_le_mono_r; lia).
  assert (TL : 10 ^ j <= 10 ^ (L - 1)) by (apply Z.pow_le_mono_r; unfold j; lia).
  unfold shortest_step. fold j.
  unfold scale_num, scale_den.
  destruct (Z.leb_spec 0 j); [| lia].
  unfold P. rewrite (Z.mul_comm (Zpos p) Q), Z.div_mul_cancel_l by lia.
  set (lo := Zpos p / 10 ^ j).
  assert (M := Z.div_mod (Zpos p) (10 ^ j) ltac:(lia)). fold lo in M.
  assert (R := Z.mod_pos_bound (Zpos p) (10 ^ j) T).
  assert (Hlo : 1 <= lo) by (apply Z.div_le_lower_bound; lia).
  assert (B15 := pow10_15_lt).
  destruct (ofDecimal_nonneg_exp lo j) as (c1 & C1 & D1 & ->); [lia | lia | nia |].
  destruct (ofDecimal_nonneg_exp (lo + 1) j) as (c2 & C2 & D2 & ->); [lia | lia | nia |].
  rewrite !canon_eqb, C1, C2 by auto.
  destruct (Z.eqb_spec ((lo + 1) * 10 ^ j) (Zpos p)); [nia|].
  rewrite andb_false_r.
  destruct (Z.eqb_spec (lo * 10 ^ j) (Zpos p)),
    (Z.eqb_spec (Zpos p mod 10 ^ j) 0); auto; lia.
Qed.

Lemma shortest_search_int fuel : forall k,
  1 <= k <= L -> L - k < Z.of_nat fuel ->
  exists s k',
    shortest_search fuel (canon false p) P Q L k = ((s, L), k') /\
    k <= k' <= L /\ 0 < s /\ s * 10 ^ (L - k') = Zpos p.
Proof.
  destruct (L_range p Bp) as ((HL1 & HL15) & L1 & L2).
  fold L in HL1, HL15, L1, L2.
  induction fuel as [| fuel IH]; intros k Hk Hf; [lia|].
  cbn [shortest_search]. rewrite shortest_step_int by auto.
  pow_pos T 10 (L - k).
  destruct (Z.eqb_spec (Zpos p mod 10 ^ (L - k)) 0) as [E | E].
  - exists (Zpos p / 10 ^ (L - k)), k. split; [reflexivity|].
    assert (M := Z.div_mod (Zpos p) (10 ^ (L - k)) ltac:(lia)).
    repeat split; lia.
  - assert (k <> L).
    { intros ->. rewrite Z.sub_diag, Z.pow_0_r, Z.mod_1_r in E. lia. }
    destruct (IH (k + 1)) as (s & k' & -> & Hk' & Hs & Hv); [lia | lia |].
    exists s, k'. repeat split; auto; lia.
Qed.

End ShortestInt.

(** [toString] writes an integer below [10^15] as its decimal digits. *)
Lemma toString_canon s p :
  Zpos (digits2_pos p) <= 53 -> Zpos p < 10 ^ 15 ->
  Number_toString (canon s p) = sign_str s ++ digits (Zpos p).
Proof.
  intros D B. unfold Number_toString, canon.
  destruct (frac_of_canon p D) as (Q & HQ & EQ & ->). subst Q.
  assert (K : 0 <= 53 - Zpos (digits2_pos p)) by lia.
  rewrite mag10_int by (auto; lia).
  destruct (L_range p B) as ((HL1 & HL15) & L1 & L2).
  destruct (shortest_search_int p _ K D B 16 1) as (s' & k' & E & Hk' & Hs & Hv);
    [lia | lia |].
  unfold canon in E. rewrite E.
  set (L := Z.of_nat (length (digits (Zpos p)))) in *.
  destruct (Z.leb_spec k' L); [| lia].
  destruct (Z.leb_spec L 21); [| lia]. cbn [andb].
  f_equal.
  rewrite <- Hv. rewrite <- (Z2Nat.id (L - k')) at 2 by lia.
  now rewrite digits_times_pow10.
Qed.

(** Removing the separators undoes the grouping. *)
Lemma remove_group prev s :
  Utils.removeThousandsSeparator (Utils.group_thousands prev s)
  = Utils.removeThousandsSeparator s.
Proof.
  revert prev. induction s as [| c r IH]; intros prev; [reflexivity|].
  cbn [Utils.group_thousands].
  match goal with |- context [if ?b then _ else _] => destruct b end;
    cbn [Utils.removeThousandsSeparator]; rewrite ?IH; reflexivity.
Qed.

(** Neither a comma nor a point occurs in a signed digit string. *)
Lemma plain_all_digits a :
  all_digits a = true ->
  Utils.removeThousandsSeparator a = a /\ includes a "." = false.
Proof.
  induction a as [| c r IH]; intros H; [split; reflexivity|].
  cbn in H. apply andb_prop in H as [Hc Hr].
  destruct (IH Hr) as [IH1 IH2].
  destruct (is_digit_char c Hc) as (d & Hd & ->).
  destruct (digit_char_props d Hd) as (_ & _ & _ & Hcomma & Hdot & _).
  cbn [Utils.removeThousandsSeparator includes].
  now rewrite Hcomma, Hdot, IH1, IH2.
Qed.

Lemma plain_signed s n :
  0 <= n ->
  Utils.removeThousandsSeparator (sign_str s ++ digits n) = sign_str s ++ digits n /\
  includes (sign_str s ++ digits n) "." = false.
Proof.
  intros Hn. destruct (plain_all_digits (digits n) (digits_all n Hn)) as [H1 H2].
  destruct s; cbn [sign_str append Utils.removeThousandsSeparator includes];
    rewrite ?H1, ?H2; split; reflexivity.
Qed.

Lemma split_no_dot a : includes a "." = false -> split "." a = [a].
Proof.
  induction a as [| c r IH]; intros H; [reflexivity|].
  cbn [includes] in H. cbn [split].
  destruct (Ascii.eqb c "."); [discriminate|].
  now rewrite IH.
Qed.

Lemma addThousandsSeparator_signed s n :
  0 <= n ->
  Utils.addThousandsSeparator (sign_str s ++ digits n)
  = Utils.group_thousands None (sign_str s ++ digits n).
Proof.
  intros Hn. unfold Utils.addThousandsSeparator.
  now rewrite split_no_dot by (apply plain_signed; auto).
Qed.

(** No non-zero integer is below [1e-10]. *)
Lemma small_constant_below p :
  Zpos (digits2_pos p) <= 53 ->
  ltb (canon false p) (ofDecimal false 1 (-10)) = false.
Proof.
  intros D.
  change (ofDecimal false 1 (-10)) with (S754_finite false 7737125245533627 (-86)).
  unfold canon, ltb, SFltb, SFcompare.
  destruct (Z.compare_spec (Zpos (digits2_pos p) - 53) (-86));
    first [reflexivity | lia].
Qed.

(** [formatNumber] on an integer below 10^15 in magnitude: its decimal
    digits, grouped in thousands from 1000 on. *)
Lemma formatNumber_canon s p :
  Zpos p < 10 ^ 15 ->
  Utils.formatNumber (VNum (canon s p))
  = if 1000 <=? Zpos p
    then Utils.group_thousands None (sign_str s ++ digits (Zpos p))
    else sign_str s ++ digits (Zpos p).
Proof.
  intros B.
  assert (D : Zpos (digits2_pos p) <= 53) by (apply digits2_le53; lia).
  unfold Utils.formatNumber, Utils.formatNumber_with.
  change (is_nan (canon s p)) with false.
  change (is_finite (canon s p)) with true. cbn [negb].
  rewrite canon_abs.
  change (ofDecimal false 1 15) with (canon false 1000000000000000).
  change (ofZ 1000) with (canon false 1000).
  unfold geb. rewrite !canon_leb by (auto; vm_compute; discriminate).
  destruct (Z.leb_spec 1000000000000000 (Zpos p)); [lia|].
  rewrite small_constant_below by auto. cbn [andb].
  rewrite toFixed_canon by (auto; lia).
  rewrite parseFloat_fixed by (auto; lia).
  rewrite toString_canon by auto.
  destruct (1000 <=? Zpos p); [| reflexivity].
  apply addThousandsSeparator_signed. lia.
Qed.

(** [toNumber] reads the formatted integer back. *)
Lemma toNumber_formatNumber_canon s p :
  Zpos p < 10 ^ 15 ->
  Utils.toNumber (Utils.formatNumber (VNum (canon s p))) = canon s p.
Proof.
  intros B.
  assert (D : Zpos (digits2_pos p) <= 53) by (apply digits2_le53; lia).
  rewrite formatNumber_canon by auto. unfold Utils.toNumber.
  destruct (1000 <=? Zpos p); rewrite ?remove_group;
    rewrite (proj1 (plain_signed s (Zpos p) ltac:(lia)));
    now apply parseFloat_int.
Qed.

Lemma ofZ_canon n :
  Z.abs n < 10 ^ 15 -> n <> 0 ->
  exists s p, ofZ n = canon s p /\ Zpos p = Z.abs n.
Proof.
  intros B N. destruct n as [|p|p]; [congruence | |].
  - exists false, p. split; [| reflexivity]. apply ofZ_pos, digits2_le53. 
    cbn in B. lia.
  - exists true, p. split; [| reflexivity]. apply ofZ_neg, digits2_le53.
    cbn in B. lia.
Qed.

Lemma roundtrip_ofZ n :
  Z.abs n < 10 ^ 15 ->
  Utils.toNumber (Utils.formatNumber (VNum (ofZ n))) = ofZ n /\
  Utils.formatNumber (VNum (Utils.toNumber (Utils.formatNumber (VNum (ofZ n)))))
  = Utils.formatNumber (VNum (ofZ n)).
Proof.
  intros B.
  assert (H : Utils.toNumber (Utils.formatNumber (VNum (ofZ n))) = ofZ n).
  { destruct (Z.eq_dec n 0) as [-> | N]; [vm_compute; reflexivity|].
    destruct (ofZ_canon n B N) as (s & p & -> & E).
    apply toNumber_formatNumber_canon. lia. }
  split; [exact H | now rewrite H].
Qed.

End Formatter.

(** ** The arithmetic engine *)
Section ArithmeticEngine.

(** Operands that are not numbers, or are [NaN], are rejected. *)
Lemma calculate_rejects (a b : value) (op : string) :
  not_a_number a = true \/ not_a_number b = true ->
  Operations.calculate a b op = VStr "Error".
Proof.
  unfold Operations.calculate, not_a_number.
  destruct a as [x| | | |], b as [y| | | |]; intros [H | H];
    try discriminate; try reflexivity.
  - now rewrite H.
  - rewrite H. now rewrite orb_true_r.
Qed.

Lemma divide_by_zero (a : number) (sz : bool) :
  Operations.divide a (S754_zero sz) =
    if eqb a pzero then VStr "Error"
    else VNum (if gtb a pzero then Infinity else NegInfinity).
Proof. reflexivity. Qed.

(** A number compares with zero in exactly one way, unless it is NaN. *)
Lemma zero_trichotomy (a : number) :
  is_nan a = false ->
  (eqb a pzero = true /\ gtb a pzero = false /\ ltb a pzero = false) \/
  (eqb a pzero = false /\ gtb a pzero = true /\ ltb a pzero = false) \/
  (eqb a pzero = false /\ gtb a pzero = false /\ ltb a pzero = true).
Proof.
  destruct a as [s|s| |s m e]; cbn; try discriminate; intros _;
    try destruct s; cbn; auto.
Qed.

Lemma calculate_divide_zero (a : number) (sz : bool) (op : string) :
  op = "÷" \/ op = "/" ->
  is_nan a = false ->
  Operations.calculate (VNum a) (VNum (S754_zero sz)) op =
    if eqb a pzero then VStr "Error"
    else if gtb a pzero then VStr "Infinity" else VStr "-Infinity".
Proof.
  intros Hop Ha. unfold Operations.calculate. rewrite Ha. cbn [orb is_nan].
  assert (Hsel :
    (if String.eqb op "+" then Some (VNum (Operations.add a (S754_zero sz)))
     else if String.eqb op "-" then
       Some (VNum (Operations.subtract a (S754_zero sz)))
     else if String.eqb op "×" || String.eqb op "*" then
       Some (VNum (Operations.multiply a (S754_zero sz)))
     else if String.eqb op "÷" || String.eqb op "/" then
       Some (Operations.divide a (S754_zero sz))
     else None) = Some (Operations.divide a (S754_zero sz))).
  { destruct Hop; subst op; reflexivity. }
  rewrite Hsel, divide_by_zero.
  destruct (zero_trichotomy a Ha) as [(E & G & L) | [(E & G & L) | (E & G & L)]];
    rewrite E; try rewrite G; reflexivity.
Qed.

End ArithmeticEngine.

(** ** The memory store *)
Section MemoryStore.

Import MemoryOperations.

(** The guard of the three mutators. *)
Lemma mutators_ignore (v : value) (m : MemoryOperations.t) :
  not_a_number v = true ->
  store v m = m /\ add v m = m /\ subtract v m = m.
Proof.
  intros H. unfold store, add, subtract, accepts.
  destruct v as [n| | | |]; cbn in H; try rewrite H; auto.
Qed.

Lemma firstn_app_firstn {A} (n : nat) (l l' : list A) :
  firstn n (l ++ firstn n l') = firstn n (l ++ l').
Proof.
  rewrite !firstn_app, firstn_firstn.
  f_equal. f_equal. lia.
Qed.

(** [slice(0, n)] is the first [n] elements. *)
Lemma slice0_nat {A} (l : list A) (n : nat) :
  slice0 l (Z.of_nat n) = firstn n l.
Proof.
  unfold slice0.
  destruct (Z.ltb_spec (Z.of_nat n) 0); [lia|].
  destruct (Z.min_spec (Z.of_nat n) (Z.of_nat (List.length l))) as [[? ->] | [? ->]].
  - now rewrite Nat2Z.id.
  - rewrite Nat2Z.id, !firstn_all2; auto; lia.
Qed.

Lemma slice0_prefix {A} (l : list A) (stop : Z) :
  exists k, slice0 l stop = firstn k l.
Proof. unfold slice0. eauto. Qed.

(** Each call puts its entry in front and keeps the first 100. *)
Lemma addToHistory_history now op r m :
  history (addToHistory now op r m) =
    firstn 100 ({| timestamp := now; operation := op; result := r |} :: history m).
Proof.
  unfold addToHistory. cbn [history].
  match goal with |- (if ?c then _ else _) = _ => destruct c eqn:E end.
  - apply (slice0_nat _ 100).
  - apply Nat.ltb_ge in E. now rewrite firstn_all2.
Qed.

Lemma record_all_history (calls : list call) (m : MemoryOperations.t) :
  (List.length (history m) <= 100)%nat ->
  history (record_all calls m) =
    firstn 100 (rev (map entry_of calls) ++ history m).
Proof.
  revert m. induction calls as [| [[now op] r] calls IH]; intros m Hm.
  - cbn [record_all fold_left map rev app].
    now rewrite firstn_all2.
  - cbn [record_all fold_left]. fold (record_all calls (addToHistory now op r m)).
    rewrite IH, addToHistory_history.
    + cbn [map rev entry_of].
      now rewrite firstn_app_firstn, <- app_assoc.
    + rewrite addToHistory_history. apply firstn_le_length.
Qed.

Lemma record_all_new (calls : list call) :
  history (record_all calls new) = firstn 100 (rev (map entry_of calls)).
Proof.
  rewrite record_all_history; cbn [new history List.length]; [| lia].
  now rewrite app_nil_r.
Qed.

End MemoryStore.

(** ** The display and the input state machine *)
Section StateMachine.

Import Calculator.

(** Every operation of the display keeps the error flag in line with the
    text. *)
Lemma updateDisplay_flag v d : flag_agrees (Display.updateDisplay v d).
Proof. reflexivity. Qed.

Lemma updateExpression_flag e d :
  flag_agrees d -> flag_agrees (Display.updateExpression e d).
Proof. exact (fun H => H). Qed.

Lemma clear_flag d : flag_agrees (Display.clear d).
Proof. reflexivity. Qed.

Lemma appendDigit_flag digit d :
  flag_agrees d -> flag_agrees (Display.appendDigit digit d).
Proof.
  intros H. unfold Display.appendDigit.
  assert (H1 : flag_agrees
            (if Display.isError d
             then Display.setCurrentValue "0" (Display.clearError d) else d)).
  { destruct (Display.isError d); [reflexivity | exact H]. }
  repeat match goal with
         | |- flag_agrees (if ?c then _ else _) => destruct c
         end; auto using updateDisplay_flag.
Qed.

Lemma deleteLast_flag d : flag_agrees (Display.deleteLast d).
Proof.
  unfold Display.deleteLast.
  destruct (Display.isError d); auto using clear_flag, updateDisplay_flag.
Qed.

Lemma showResult_flag r op d :
  flag_agrees d -> flag_agrees (Display.showResult r op d).
Proof.
  intros H. unfold Display.showResult.
  assert (H1 : flag_agrees
            (if Operations.isValidResult r
             then match r with
                  | VNum _ => Display.updateDisplay (Utils.formatNumber r) d
                  | VStr s => Display.updateDisplay s d
                  | _ => d
                  end
             else Display.updateDisplay "Error" d)).
  { destruct (Operations.isValidResult r), r; auto using updateDisplay_flag. }
  destruct op; auto using updateExpression_flag.
Qed.

Lemma showAsPercentage_flag d : flag_agrees (Display.showAsPercentage d).
Proof. reflexivity. Qed.

(** [calculate()] touches neither the display nor the state fields. *)
Lemma calculate_frame now c :
  display (fst (calculate now c)) = display c /\
  st (fst (calculate now c)) = st c.
Proof.
  unfold calculate.
  destruct (previousValue (st c)), (currentOperator (st c)); auto.
Qed.

(** So does every event of the calculator. *)
Lemma inputOperator_flag now op c :
  flag_agrees (display c) -> flag_agrees (display (inputOperator now op c)).
Proof.
  intros H. unfold inputOperator. cbn [with_display display].
  apply updateExpression_flag. cbn [with_state display].
  destruct (previousValue (st c)); [| exact H].
  destruct (truthy (currentOperator (st c)) && negb (waitingForOperand (st c)));
    [| exact H].
  destruct (calculate now c) as [c' r] eqn:E.
  destruct r; cbn [with_state with_display display].
  - apply updateDisplay_flag.
  - destruct (calculate_frame now c) as [Hd _]. rewrite E in Hd. cbn in Hd.
    now rewrite Hd.
Qed.

Lemma equals_flag now c :
  flag_agrees (display c) -> flag_agrees (display (equals now c)).
Proof.
  intros H. unfold equals.
  destruct (previousValue (st c)); [| exact H].
  destruct (truthy (currentOperator (st c))); [| exact H].
  destruct (calculate_frame now c) as [Hd _].
  destruct (calculate now c) as [c' r]. cbn in Hd.
  destruct r; cbn [resetState set_justCalculated with_state with_display display];
    apply showResult_flag; now rewrite Hd.
Qed.

Lemma handle_flag now e c :
  flag_agrees (display c) -> flag_agrees (display (handle now e c)).
Proof.
  intros H. destruct e; cbn [handle].
  - unfold inputNumber.
    destruct (waitingForOperand (st c)); cbn [with_state with_display display].
    + apply updateDisplay_flag.
    + apply appendDigit_flag.
      destruct (justCalculated (st c));
        cbn [set_justCalculated with_state with_display display];
        auto using clear_flag.
  - now apply inputOperator_flag.
  - now apply equals_flag.
  - apply clear_flag.
  - unfold delete. destruct (waitingForOperand (st c)); [exact H|].
    apply deleteLast_flag.
  - unfold inputDecimal.
    destruct (waitingForOperand (st c)); cbn [with_state with_display display].
    + apply updateDisplay_flag.
    + destruct (Display.hasDecimal (display c)); [exact H|].
      now apply appendDigit_flag.
  - apply showAsPercentage_flag.
Qed.

(** In every reachable state the error flag is set exactly when the
    display holds one of the three sentinels. *)
Lemma reachable_flag c : reachable c -> flag_agrees (display c).
Proof.
  induction 1 as [| now e c _ IH]; [reflexivity | now apply handle_flag].
Qed.

Lemma run_reachable evs c : reachable c -> reachable (run evs c).
Proof.
  revert c. induction evs as [| [now e] evs IH]; intros c H; cbn [run]; auto.
  apply IH. now constructor.
Qed.

Lemma getCurrentValue_error d :
  Display.isError d = true -> Display.getCurrentValue d = pzero.
Proof. unfold Display.getCurrentValue. now intros ->. Qed.

(** An operator pressed while another is still waiting for its operand. *)
Lemma inputOperator_waiting now op c :
  waitingForOperand (st c) = true ->
  st (inputOperator now op c) =
    {| previousValue := Some (Display.getCurrentValue (display c));
       currentOperator := Some op;
       waitingForOperand := true;
       lastOperation := lastOperation (st c);
       justCalculated := false |} /\
  memory (inputOperator now op c) = memory c /\
  Display.currentValue (display (inputOperator now op c))
    = Display.currentValue (display c) /\
  Display.displayInput (display (inputOperator now op c))
    = Display.displayInput (display c).
Proof.
  intros H. unfold inputOperator. rewrite H, andb_false_r.
  destruct (previousValue (st c)); repeat split.
Qed.

(** [equals()] when the evaluation fails. *)
Lemma equals_failure now c prev op :
  previousValue (st c) = Some prev ->
  currentOperator (st c) = Some op ->
  op <> "" ->
  is_number
    (Operations.calculate (VNum prev)
       (VNum (Display.getCurrentValue (display c))) op) = false ->
  Display.currentValue (display (equals now c)) = "Error" /\
  Display.displayInput (display (equals now c)) = "Error" /\
  Display.isError (display (equals now c)) = true /\
  previousValue (st (equals now c)) = None /\
  currentOperator (st (equals now c)) = None /\
  waitingForOperand (st (equals now c)) = false.
Proof.
  intros Hp Ho Hne Hf. unfold equals, calculate. rewrite Hp, Ho.
  assert (Ht : truthy (Some op) = true) by (destruct op; [congruence | reflexivity]).
  rewrite Ht.
  destruct (Operations.calculate (VNum prev)
              (VNum (Display.getCurrentValue (display c))) op);
    try discriminate; repeat split.
Qed.

(** [equals()] when the evaluation succeeds. *)
Lemma equals_success now c prev op r :
  previousValue (st c) = Some prev ->
  currentOperator (st c) = Some op ->
  op <> "" ->
  Operations.calculate (VNum prev)
    (VNum (Display.getCurrentValue (display c))) op = VNum r ->
  previousValue (st (equals now c)) = None /\
  currentOperator (st (equals now c)) = None /\
  waitingForOperand (st (equals now c)) = false /\
  justCalculated (st (equals now c)) = true.
Proof.
  intros Hp Ho Hne Hr. unfold equals, calculate. rewrite Hp, Ho.
  assert (Ht : truthy (Some op) = true) by (destruct op; [congruence | reflexivity]).
  rewrite Ht, Hr. repeat split.
Qed.

(** A chained operator press whose evaluation fails: the failure is
    recorded in the history and otherwise dropped. *)
Lemma inputOperator_chain_failure now op' c prev op :
  previousValue (st c) = Some prev ->
  currentOperator (st c) = Some op ->
  op <> "" ->
  waitingForOperand (st c) = false ->
  is_number
    (Operations.calculate (VNum prev)
       (VNum (Display.getCurrentValue (display c))) op) = false ->
  Display.currentValue (display (inputOperator now op' c))
    = Display.currentValue (display c) /\
  Display.isError (display (inputOperator now op' c))
    = Display.isError (display c) /\
  previousValue (st (inputOperator now op' c)) = Some prev /\
  currentOperator (st (inputOperator now op' c)) = Some op' /\
  waitingForOperand (st (inputOperator now op' c)) = true.
Proof.
  intros Hp Ho Hne Hw Hf. unfold inputOperator, calculate. rewrite Hp, Ho, Hw.
  assert (Ht : truthy (Some op) = true) by (destruct op; [congruence | reflexivity]).
  rewrite Ht. cbn [andb negb].
  destruct (Operations.calculate (VNum prev)
              (VNum (Display.getCurrentValue (display c))) op);
    try discriminate; cbn; rewrite ?Hp; repeat split.
Qed.

(** [delete()] is guarded by [waitingForOperand]. *)
Lemma delete_cases c :
  (waitingForOperand (st c) = true -> delete c = c) /\
  (waitingForOperand (st c) = false ->
   delete c = with_display (Display.deleteLast (display c)) c).
Proof. unfold delete. destruct (waitingForOperand (st c)); split; congruence. Qed.

(** [slice(0, -1)] removes the last character. *)
Lemma drop_last_snoc s :
  (1 < length s)%nat ->
  exists ch, s = JS.drop_last s ++ String ch "" /\ JS.drop_last s <> "".
Proof.
  induction s as [| c s IH]; cbn [length]; [lia|]. intros H.
  destruct s as [| c' s']; [cbn in H; lia|].
  destruct s' as [| c'' s''].
  - exists c'. cbn. split; [reflexivity | discriminate].
  - destruct IH as (ch & E & _); [cbn; lia|].
    exists ch. split; [| discriminate].
    change (JS.drop_last (String c (String c' (String c'' s''))))
      with (String c (JS.drop_last (String c' (String c'' s'')))).
    cbn [append]. now rewrite <- E.
Qed.

End StateMachine.

(** ** Facts on the thousands separators *)
Section Separators.

Lemma remove_app a b :
  Utils.removeThousandsSeparator (a ++ b)
  = Utils.removeThousandsSeparator a ++ Utils.removeThousandsSeparator b.
Proof.
  induction a as [| c a IH]; cbn; [reflexivity|].
  destruct (Ascii.eqb c ","); cbn; now rewrite IH.
Qed.

Lemma remove_plain s :
  includes s "," = false -> Utils.removeThousandsSeparator s = s.
Proof.
  induction s as [| c s IH]; cbn; [reflexivity|].
  destruct (Ascii.eqb c ","); [discriminate|]. intros H. now rewrite IH.
Qed.

(** [split] never returns the empty array. *)
Lemma split_nonempty c s : split c s <> [].
Proof.
  destruct s as [| d r]; cbn; [discriminate|].
  destruct (Ascii.eqb d c); [discriminate|].
  destruct (split c r); discriminate.
Qed.

(** [s.split(c).join(c)] is [s]. *)
Lemma join_split c s : join (String c "") (split c s) = s.
Proof.
  induction s as [| d r IH]; [reflexivity|].
  cbn [split]. destruct (Ascii.eqb d c) eqn:E.
  - apply Ascii.eqb_eq in E. subst d.
    pose proof (split_nonempty c r) as N.
    destruct (split c r) as [| p ps] eqn:S; [congruence|].
    change (join (String c "") ("" :: p :: ps))
      with ("" ++ String c "" ++ join (String c "") (p :: ps)).
    now rewrite IH.
  - pose proof (split_nonempty c r) as N.
    destruct (split c r) as [| p ps] eqn:S; [congruence|].
    destruct ps as [| q qs].
    + cbn in *. now rewrite IH.
    + change (join (String c "") (String d p :: q :: qs))
        with (String d (p ++ String c "" ++ join (String c "") (q :: qs))).
      f_equal. exact IH.
Qed.

Lemma split_cons_other c d r :
  Ascii.eqb d c = false ->
  exists p ps, split c r = p :: ps /\ split c (String d r) = String d p :: ps.
Proof.
  intros E. cbn [split]. rewrite E.
  pose proof (split_nonempty c r) as N.
  destruct (split c r) as [| p ps]; [congruence|]. eauto.
Qed.

Lemma split_app_sep c a b :
  includes a c = false ->
  split c (a ++ String c b) = a :: split c b.
Proof.
  induction a as [| d a IH]; cbn [append includes split].
  - now rewrite Ascii.eqb_refl.
  - destruct (Ascii.eqb d c); [discriminate|]. intros H.
    now rewrite (IH H).
Qed.

Lemma join_cons sep p ps :
  ps <> [] -> join sep (p :: ps) = p ++ sep ++ join sep ps.
Proof. destruct ps; [congruence | reflexivity]. Qed.

Lemma remove_join_dot p ps :
  Utils.removeThousandsSeparator (join "." (p :: ps))
  = join "." (Utils.removeThousandsSeparator p
              :: map Utils.removeThousandsSeparator ps).
Proof.
  revert p. induction ps as [| q qs IH]; intros p; [reflexivity|].
  change (join "." (p :: q :: qs)) with (p ++ "." ++ join "." (q :: qs)).
  rewrite !remove_app, IH. reflexivity.
Qed.

(** Removing the separators undoes adding them. *)
Lemma remove_add s :
  Utils.removeThousandsSeparator (Utils.addThousandsSeparator s)
  = Utils.removeThousandsSeparator s.
Proof.
  unfold Utils.addThousandsSeparator.
  pose proof (split_nonempty "." s) as N.
  pose proof (join_split "." s) as J.
  destruct (split "." s) as [| p ps]; [congruence|].
  rewrite remove_join_dot, remove_group, <- remove_join_dot.
  change (String "." "") with "." in J. now rewrite J.
Qed.

(** No comma goes before the first character. *)
Lemma group_head_none c r :
  Utils.group_thousands None (String c r)
  = String c (Utils.group_thousands (Some c) r).
Proof.
  cbn [Utils.group_thousands].
  destruct (is_word c) eqn:W; [reflexivity|].
  cbn [Bool.eqb andb].
  assert (D : is_digit c = false).
  { unfold is_word in W. unfold is_digit.
    destruct ((48 <=? nat_of_ascii c)%nat && (nat_of_ascii c <=? 57)%nat);
      [discriminate | reflexivity]. }
  cbn [digit_run]. rewrite D. reflexivity.
Qed.

Lemma group_prev_not_word p s :
  is_word p = false ->
  Utils.group_thousands (Some p) s = Utils.group_thousands None s.
Proof. intros W. destruct s as [| c r]; [reflexivity|]. cbn. now rewrite W. Qed.

Lemma add_no_dot a :
  includes a "." = false ->
  Utils.addThousandsSeparator a = Utils.group_thousands None a.
Proof. intros H. unfold Utils.addThousandsSeparator. now rewrite split_no_dot. Qed.

Lemma add_fraction ip fp :
  includes ip "." = false ->
  Utils.addThousandsSeparator (ip ++ "." ++ fp)
  = Utils.addThousandsSeparator ip ++ "." ++ fp.
Proof.
  intros H. rewrite (add_no_dot ip H). unfold Utils.addThousandsSeparator.
  change ("." ++ fp) with (String "." fp).
  rewrite (split_app_sep "." ip fp H).
  rewrite join_cons by apply split_nonempty.
  change (String "." "") with ".".
  pose proof (join_split "." fp) as J. change (String "." "") with "." in J.
  now rewrite J.
Qed.

Lemma add_minus s :
  Utils.addThousandsSeparator ("-" ++ s) = "-" ++ Utils.addThousandsSeparator s.
Proof.
  unfold Utils.addThousandsSeparator.
  destruct (split_cons_other "." "-" s eq_refl) as (p & ps & E1 & E2).
  change ("-" ++ s) with (String "-" s). rewrite E1, E2.
  rewrite group_head_none, (group_prev_not_word "-" p eq_refl).
  destruct ps; reflexivity.
Qed.

Lemma digit_is_word c : is_digit c = true -> is_word c = true.
Proof. unfold is_digit, is_word. intros ->. reflexivity. Qed.

Lemma digit_not_comma c : is_digit c = true -> Ascii.eqb c "," = false.
Proof.
  intros H. destruct (is_digit_char c H) as (d & Hd & ->).
  apply (digit_char_props d Hd).
Qed.

Lemma digit_run_all s : all_digits s = true -> digit_run s = length s.
Proof.
  induction s as [| c s IH]; cbn; [reflexivity|].
  destruct (is_digit c); [|discriminate]. cbn. intros H. now rewrite IH.
Qed.

(** After a digit, a run of digits is cut into a first piece of
    [length mod 3] digits and pieces of three. *)
Lemma group_digits s : forall p,
  is_word p = true -> all_digits s = true ->
  exists h t,
    split "," (Utils.group_thousands (Some p) s) = h :: t /\
    length h = (length s mod 3)%nat /\
    Forall (fun g => length g = 3%nat) t.
Proof.
  induction s as [| c r IH]; intros p W A.
  - exists "", []. repeat split. constructor.
  - cbn [all_digits] in A. apply andb_prop in A as [Dc A].
    destruct (IH c (digit_is_word c Dc) A) as (h & t & Sp & Lh & Ft).
    cbn [Utils.group_thousands]. rewrite W, (digit_is_word c Dc).
    cbn [Bool.eqb andb].
    rewrite (digit_run_all (String c r)) by (cbn; now rewrite Dc, A).
    cbn [length].
    assert (E : split "," (String c (Utils.group_thousands (Some c) r))
                = String c h :: t).
    { cbn [split]. rewrite (digit_not_comma c Dc), Sp. reflexivity. }
    destruct ((3 <=? S (length r))%nat && (S (length r) mod 3 =? 0)%nat) eqn:Hh.
    + apply andb_prop in Hh as [H3 Hm]. apply Nat.eqb_eq in Hm.
      exists "", (String c h :: t). split; [| split].
      * change (split "," (String "," (String c (Utils.group_thousands (Some c) r))))
          with ("" :: split "," (String c (Utils.group_thousands (Some c) r))).
        now rewrite E.
      * cbn [length]. lia.
      * constructor; [| exact Ft]. cbn [length]. rewrite Lh.
        pose proof (Nat.mod_upper_bound (length r) 3).
        pose proof (Nat.div_mod_eq (length r) 3).
        pose proof (Nat.div_mod_eq (S (length r)) 3). lia.
    + exists (String c h), t. split; [exact E | split; [| exact Ft]].
      cbn [length]. rewrite Lh.
      apply andb_false_iff in Hh as [H3 | Hm].
      * apply Nat.leb_gt in H3.
        assert (length r = 0 \/ length r = 1)%nat as [-> | ->] by lia; reflexivity.
      * apply Nat.eqb_neq in Hm.
        pose proof (Nat.mod_upper_bound (length r) 3).
        pose proof (Nat.mod_upper_bound (S (length r)) 3).
        pose proof (Nat.div_mod_eq (length r) 3).
        pose proof (Nat.div_mod_eq (S (length r)) 3). lia.
Qed.

Lemma join_empty_split s :
  join "" (split "," s) = Utils.removeThousandsSeparator s.
Proof.
  induction s as [| c r IH]; [reflexivity|].
  cbn [split Utils.removeThousandsSeparator].
  pose proof (split_nonempty "," r) as N.
  destruct (Ascii.eqb c ",").
  - destruct (split "," r) as [| p ps]; [congruence|]. exact IH.
  - destruct (split "," r) as [| p ps]; [congruence|].
    rewrite <- IH. destruct ps; reflexivity.
Qed.

Lemma join_empty_length h t :
  Forall (fun g => length g = 3%nat) t ->
  length (join "" (h :: t)) = (length h + 3 * List.length t)%nat.
Proof.
  revert h. induction t as [| g t IH]; intros h F.
  - cbn. lia.
  - inversion F as [| ? ? Hg Ft]; subst.
    change (join "" (h :: g :: t)) with (h ++ "" ++ join "" (g :: t)).
    cbn [append]. rewrite slength_app, (IH g Ft), Hg. cbn [List.length]. lia.
Qed.

(** The pieces between the commas of a grouped run of digits. *)
Lemma groups_of_digits ds :
  all_digits ds = true -> ds <> "" ->
  exists h t,
    split "," (Utils.addThousandsSeparator ds) = h :: t /\
    (1 <= length h <= 3)%nat /\
    Forall (fun g => length g = 3%nat) t /\
    join "" (h :: t) = ds /\
    List.length t = ((length ds - 1) / 3)%nat.
Proof.
  intros A N. destruct ds as [| c r]; [congruence|].
  pose proof (proj2 (plain_all_digits _ A)) as ND.
  pose proof (proj1 (plain_all_digits _ A)) as PL.
  rewrite (add_no_dot _ ND), group_head_none.
  cbn [all_digits] in A. apply andb_prop in A as [Dc A].
  destruct (group_digits r c (digit_is_word c Dc) A) as (h & t & Sp & Lh & Ft).
  exists (String c h), t.
  assert (E : split "," (String c (Utils.group_thousands (Some c) r))
              = String c h :: t).
  { cbn [split]. rewrite (digit_not_comma c Dc), Sp. reflexivity. }
  assert (J : join "" (String c h :: t) = String c r).
  { rewrite <- E, join_empty_split, <- group_head_none, remove_group. exact PL. }
  pose proof (Nat.mod_upper_bound (length r) 3).
  split; [exact E|]. split; [cbn [length]; lia|]. split; [exact Ft|].
  split; [exact J|].
  pose proof (join_empty_length (String c h) t Ft) as L. rewrite J in L.
  cbn [length] in *.
  assert (Hq : (length r = 3 * List.length t + length r mod 3)%nat) by lia.
  replace (S (length r) - 1)%nat with (length r) by lia.
  apply (Nat.div_unique (length r) 3 _ (length r mod 3)); lia.
Qed.

End Separators.

(** ** Facts on the results of the arithmetic engine *)
Section EngineResults.

Lemma JS_add_comm x y : JS.add x y = JS.add y x.
Proof.
  unfold JS.add, SFadd.
  destruct x as [sx|sx| |sx mx ex], y as [sy|sy| |sy my ey];
    try reflexivity; try (destruct sx, sy; reflexivity).
  now rewrite Z.min_comm, Z.add_comm.
Qed.

Lemma JS_mul_comm x y : JS.mul x y = JS.mul y x.
Proof.
  unfold JS.mul, SFmul.
  destruct x as [sx|sx| |sx mx ex], y as [sy|sy| |sy my ey];
    try reflexivity; try (now rewrite xorb_comm).
  now rewrite xorb_comm, Pos.mul_comm, Z.add_comm.
Qed.

(** [calculate] with a commutative operation does not depend on the order
    of its operands. *)
Lemma calculate_comm_with (f : number -> number -> number) a b op :
  (forall x y, f x y = f y x) ->
  (forall x y, Operations.calculate (VNum x) (VNum y) op =
     if is_nan x || is_nan y then VStr "Error"
     else if isNaN (VNum (f x y)) then VStr "Error"
     else if negb (isFinite (VNum (f x y))) then
       if gtb (f x y) pzero then VStr "Infinity" else VStr "-Infinity"
     else VNum (Operations.fixPrecision (f x y))) ->
  Operations.calculate a b op = Operations.calculate b a op.
Proof.
  intros C E.
  destruct a as [x| | | |], b as [y| | | |]; try reflexivity.
  now rewrite !E, (C x y), orb_comm.
Qed.

(** Rounding never produces [NaN]. *)
Lemma binary_round_aux_not_nan s m e l :
  0 <= m -> is_nan (binary_round_aux 53 1024 s m e l) = false.
Proof.
  intros H. unfold binary_round_aux.
  destruct (shr_fexp 53 1024 m e l) as [mrs' e'] eqn:E1.
  assert (B1 := shr_fexp_bound m e l H). rewrite E1 in B1. cbn [fst] in B1.
  assert (R := round_nearest_even_range (shr_m mrs') (loc_of_shr_record mrs')
                 (proj1 B1)).
  set (m1 := round_nearest_even (shr_m mrs') (loc_of_shr_record mrs')) in *.
  destruct (shr_fexp 53 1024 m1 e' loc_Exact) as [mrs'' e''] eqn:E2.
  assert (B2 := shr_fexp_bound m1 e' loc_Exact ltac:(lia)).
  rewrite E2 in B2. cbn [fst] in B2.
  destruct (shr_m mrs'') as [|p|p]; [reflexivity | | lia].
  destruct (e'' <=? 1024 - 53); reflexivity.
Qed.

Lemma binary_round_not_nan s m e : is_nan (binary_round 53 1024 s m e) = false.
Proof.
  unfold binary_round.
  destruct (shl_align m e (fexp 53 1024 (Zpos (digits2_pos m) + e))) as [mz ez].
  apply binary_round_aux_not_nan. lia.
Qed.

Lemma ofZ_not_nan n : is_nan (ofZ n) = false.
Proof.
  unfold ofZ, binary_normalize.
  destruct n; [reflexivity | apply binary_round_not_nan ..].
Qed.

Lemma mul_finite_not_nan x y :
  is_nan x = false -> is_finite y = true ->
  (forall s, y <> S754_zero s) ->
  is_nan (JS.mul x y) = false.
Proof.
  unfold JS.mul, SFmul.
  destruct x as [sx|sx| |sx mx ex], y as [sy|sy| |sy my ey]; intros Hx Hy Hz;
    try reflexivity; try discriminate.
  - now destruct (Hz sy).
  - apply binary_round_aux_not_nan. lia.
Qed.

Lemma Math_round_not_nan x : is_nan x = false -> is_nan (Math_round x) = false.
Proof.
  destruct x as [sx|sx| |sx mx ex]; cbn [Math_round]; auto.
  intros _. destruct (0 <=? ex); [reflexivity|].
  match goal with |- context [if ?b then _ else _] => destruct b end;
    [reflexivity | apply ofZ_not_nan].
Qed.

Lemma div_core_nonneg m1 e1 m2 e2 :
  0 <= m1 -> 0 < m2 ->
  0 <= fst (fst (SFdiv_core_binary 53 1024 m1 e1 m2 e2)).
Proof.
  intros H1 H2. unfold SFdiv_core_binary.
  set (s := e1 - e2 - _).
  set (m' := match s with Zpos _ => Z.shiftl m1 s | Z0 => m1 | Zneg _ => 0 end).
  assert (Hm : 0 <= m').
  { subst m'. destruct s; [lia | | lia]. apply Z.shiftl_nonneg. lia. }
  pose proof (Z_div_mod m' m2 ltac:(lia)) as D.
  destruct (Z.div_eucl m' m2) as [q r]. cbn [fst]. nia.
Qed.

(** A quotient is [NaN] only for 0/0, for two infinities or for a [NaN]
    operand. *)
Lemma div_finite_not_nan x y :
  is_nan x = false -> is_finite y = true -> (forall s, y <> S754_zero s) ->
  is_nan (JS.div x y) = false.
Proof.
  unfold JS.div, SFdiv, JS.prec, JS.emax.
  destruct x as [sx|sx| |sx mx ex], y as [sy|sy| |sy my ey]; intros Hx Hy Hz;
    try reflexivity; try discriminate; try (now destruct (Hz sy)).
  pose proof (div_core_nonneg (Zpos mx) ex (Zpos my) ey ltac:(lia) ltac:(lia)) as Q.
  destruct (SFdiv_core_binary 53 1024 (Zpos mx) ex (Zpos my) ey) as [[mz ez] lz].
  apply binary_round_aux_not_nan. exact Q.
Qed.

Lemma div_not_nan x y :
  is_finite x = true -> is_nan y = false -> eqb y pzero = false ->
  is_nan (JS.div x y) = false.
Proof.
  unfold JS.div, SFdiv, JS.prec, JS.emax.
  destruct x as [sx|sx| |sx mx ex], y as [sy|sy| |sy my ey]; intros Hx Hy Hz;
    try reflexivity; try discriminate.
  pose proof (div_core_nonneg (Zpos mx) ex (Zpos my) ey ltac:(lia) ltac:(lia)) as Q.
  destruct (SFdiv_core_binary 53 1024 (Zpos mx) ex (Zpos my) ey) as [[mz ez] lz].
  apply binary_round_aux_not_nan. exact Q.
Qed.

Lemma sqrt_core_nonneg m e :
  0 <= m -> 0 <= fst (fst (SFsqrt_core_binary 53 1024 m e)).
Proof.
  intros H. unfold SFsqrt_core_binary.
  set (s := e - _).
  set (m' := match s with Zpos _ => Z.shiftl m s | Z0 => m | Zneg _ => 0 end).
  assert (Hm : 0 <= m').
  { subst m'. destruct s; [lia | | lia]. apply Z.shiftl_nonneg. lia. }
  pose proof (Z.sqrtrem_spec m' Hm) as D.
  destruct (Z.sqrtrem m') as [q r]. cbn [fst]. lia.
Qed.

Lemma sqrt_not_nan v :
  is_nan v = false -> ltb v pzero = false -> is_nan (Math_sqrt v) = false.
Proof.
  unfold Math_sqrt, SFsqrt, JS.prec, JS.emax.
  destruct v as [s|s| |s m e]; intros N L; try reflexivity; try discriminate.
  - destruct s; [discriminate | reflexivity].
  - destruct s; [discriminate|].
    pose proof (sqrt_core_nonneg (Zpos m) e ltac:(lia)) as Q.
    destruct (SFsqrt_core_binary 53 1024 (Zpos m) e) as [[mz ez] lz].
    apply binary_round_aux_not_nan. exact Q.
Qed.

Lemma pow10_15_finite :
  is_finite (Math_pow10 15) = true /\
  forall s, Math_pow10 15 <> S754_zero s.
Proof. vm_compute. split; [reflexivity | discriminate]. Qed.

Lemma fixPrecision_not_nan x :
  is_nan x = false -> is_nan (Operations.fixPrecision x) = false.
Proof.
  intros H. unfold Operations.fixPrecision, Operations.fixPrecision_with.
  destruct (ltb (Math_abs x) EPSILON); [reflexivity|].
  destruct pow10_15_finite as (F & Z).
  apply div_finite_not_nan; auto.
  apply Math_round_not_nan. apply mul_finite_not_nan; auto.
Qed.

Lemma calculate_valid_with (r : number) :
  Operations.isValidResult
    (if isNaN (VNum r) then VStr "Error"
     else if negb (isFinite (VNum r)) then
       if gtb (ToNumber (VNum r)) pzero then VStr "Infinity" else VStr "-Infinity"
     else VNum (Operations.fixPrecision (ToNumber (VNum r)))) = true.
Proof.
  unfold isNaN, isFinite. cbn [ToNumber].
  destruct (is_nan r) eqn:N; [reflexivity|].
  destruct (is_finite r); cbn [negb].
  - cbn [Operations.isValidResult]. now rewrite fixPrecision_not_nan.
  - destruct (gtb r pzero); reflexivity.
Qed.

(** Whatever [calculate] returns, [isValidResult] accepts. *)
Lemma calculate_valid (a b : value) (op : string) :
  Operations.isValidResult (Operations.calculate a b op) = true.
Proof.
  unfold Operations.calculate.
  destruct a as [x| | | |], b as [y| | | |]; try reflexivity.
  destruct (is_nan x || is_nan y); [reflexivity|].
  destruct (String.eqb op "+"); [apply calculate_valid_with|].
  destruct (String.eqb op "-"); [apply calculate_valid_with|].
  destruct (String.eqb op "×" || String.eqb op "*"); [apply calculate_valid_with|].
  destruct (String.eqb op "÷" || String.eqb op "/"); [| reflexivity].
  unfold Operations.divide.
  destruct (eqb y pzero); [| apply calculate_valid_with].
  destruct (eqb x pzero); [reflexivity | apply calculate_valid_with].
Qed.

Lemma slice0_negative {A} (l : list A) (k : nat) :
  (0 < k)%nat ->
  MemoryOperations.slice0 l (- Z.of_nat k) = firstn (List.length l - k) l.
Proof.
  intros H. unfold MemoryOperations.slice0.
  destruct (Z.ltb_spec (- Z.of_nat k) 0); [| lia].
  f_equal. lia.
Qed.

End EngineResults.

(** ** Facts on keystrokes *)
Section Keystrokes.

Import Calculator.

Lemma calculate_memory now c :
  memory (fst (calculate now c)) = memory c \/
  exists a b op desc,
    memory (fst (calculate now c))
    = MemoryOperations.addToHistory now desc (Operations.calculate a b op) (memory c).
Proof.
  unfold calculate.
  destruct (previousValue (st c)) as [prev|]; [| now left].
  destruct (currentOperator (st c)) as [op|]; [| now left].
  right. cbn [fst memory]. eauto.
Qed.

Lemma inputOperator_memory now operator c :
  memory (inputOperator now operator c) = memory c \/
  memory (inputOperator now operator c) = memory (fst (calculate now c)).
Proof.
  unfold inputOperator.
  cbn [with_display with_state memory].
  destruct (previousValue (st c)); [| now left].
  destruct (truthy (currentOperator (st c)) && negb (waitingForOperand (st c)));
    [| now left].
  right. destruct (calculate now c) as [c' [r|]]; reflexivity.
Qed.

Lemma equals_memory now c :
  memory (equals now c) = memory c \/
  memory (equals now c) = memory (fst (calculate now c)).
Proof.
  unfold equals.
  destruct (previousValue (st c)); [| now left].
  destruct (truthy (currentOperator (st c))); [| now left].
  right. destruct (calculate now c) as [c' [r|]]; reflexivity.
Qed.

Lemma inputNumber_memory digit c : memory (inputNumber digit c) = memory c.
Proof.
  unfold inputNumber. destruct (waitingForOperand (st c)); [reflexivity|].
  destruct (justCalculated (st c)); reflexivity.
Qed.

Lemma inputDecimal_memory c : memory (inputDecimal c) = memory c.
Proof.
  unfold inputDecimal. destruct (waitingForOperand (st c)); [reflexivity|].
  destruct (Display.hasDecimal (display c)); reflexivity.
Qed.

Lemma delete_memory c : memory (delete c) = memory c.
Proof. unfold delete. destruct (waitingForOperand (st c)); reflexivity. Qed.

(** An event leaves the memory store alone or records one evaluation. *)
Lemma handle_memory now e c :
  memory (handle now e c) = memory c \/
  exists a b op desc,
    memory (handle now e c)
    = MemoryOperations.addToHistory now desc (Operations.calculate a b op) (memory c).
Proof.
  destruct e; cbn [handle].
  - left. apply inputNumber_memory.
  - destruct (inputOperator_memory now op c) as [-> | ->];
      [now left | apply calculate_memory].
  - destruct (equals_memory now c) as [-> | ->];
      [now left | apply calculate_memory].
  - now left.
  - left. apply delete_memory.
  - left. apply inputDecimal_memory.
  - now left.
Qed.

Lemma Forall_firstn {A} (P : A -> Prop) n (l : list A) :
  Forall P l -> Forall P (firstn n l).
Proof.
  revert l. induction n as [| n IH]; intros l F; [constructor|].
  destruct F; cbn; constructor; auto.
Qed.

Lemma reachable_memory c : reachable c -> memory_inv (memory c).
Proof.
  induction 1 as [| now e c R IH].
  - repeat split; cbn; [lia | constructor].
  - destruct (handle_memory now e c) as [-> | (a & b & op & desc & ->)]; [exact IH|].
    destruct IH as (M & L & F). repeat split.
    + exact M.
    + rewrite addToHistory_history. apply firstn_le_length.
    + rewrite addToHistory_history. apply Forall_firstn.
      constructor; [apply calculate_valid | exact F].
Qed.

Lemma with_display_same c : with_display (display c) c = c.
Proof. now destruct c. Qed.

Lemma includes_count s c : includes s c = negb (count_char c s =? 0)%nat.
Proof.
  induction s as [| d r IH]; [reflexivity|]. cbn.
  destruct (Ascii.eqb d c); [reflexivity | exact IH].
Qed.

Lemma count_app c a b :
  count_char c (a ++ b) = (count_char c a + count_char c b)%nat.
Proof. induction a as [| d a IH]; cbn; [reflexivity | rewrite IH; lia]. Qed.

Lemma includes_snoc s c : includes (s ++ String c "") c = true.
Proof.
  induction s as [| d r IH]; cbn; [now rewrite Ascii.eqb_refl|].
  destruct (Ascii.eqb d c); [reflexivity | exact IH].
Qed.

Lemma updateDisplay_value v d :
  v <> "" -> Display.currentValue (Display.updateDisplay v d) = v.
Proof. destruct v; [congruence | reflexivity]. Qed.

Lemma app_nonempty a b : b <> "" -> a ++ b <> "".
Proof. destruct a; cbn; [auto | discriminate]. Qed.

(** The four ways [appendDigit] ends: the digit replaces a lone [0], a
    second decimal point is dropped, the text is full, or the digit is
    appended. *)
Lemma appendDigit_cases digit d :
  let d1 := if Display.isError d
            then Display.setCurrentValue "0" (Display.clearError d) else d in
  (Display.currentValue d1 = "0" /\ digit <> "." /\
   Display.appendDigit digit d
   = Display.updateDisplay digit (Display.setCurrentValue digit d1)) \/
  (digit = "." /\ includes (Display.currentValue d1) "." = true /\
   Display.appendDigit digit d = d1) \/
  ((Display.currentValue d1 <> "0" \/ digit = ".") /\
   (digit <> "." \/ includes (Display.currentValue d1) "." = false) /\
   (15 <= length (Display.currentValue d1))%nat /\
   Display.appendDigit digit d = d1) \/
  ((Display.currentValue d1 <> "0" \/ digit = ".") /\
   (digit <> "." \/ includes (Display.currentValue d1) "." = false) /\
   (length (Display.currentValue d1) < 15)%nat /\
   Display.appendDigit digit d
   = Display.updateDisplay (Display.currentValue d1 ++ digit)
       (Display.setCurrentValue (Display.currentValue d1 ++ digit) d1)).
Proof.
  intros d1. unfold Display.appendDigit. fold d1.
  destruct (String.eqb_spec (Display.currentValue d1) "0") as [E0 | E0];
    destruct (String.eqb_spec digit ".") as [Ed | Ed]; cbn [negb andb].
  - destruct (includes (Display.currentValue d1) ".") eqn:I; [right; left; auto|].
    right; right.
    destruct (Nat.leb_spec 15 (length (Display.currentValue d1))); [left | right]; auto.
  - left. auto.
  - destruct (includes (Display.currentValue d1) ".") eqn:I; [right; left; auto|].
    right; right.
    destruct (Nat.leb_spec 15 (length (Display.currentValue d1))); [left | right]; auto.
  - right; right.
    destruct (Nat.leb_spec 15 (length (Display.currentValue d1))); [left | right]; auto.
Qed.

Lemma is_key_inv k :
  is_key k = true ->
  exists c, k = String c "" /\
            (is_digit c = true /\ Ascii.eqb c "." = false \/ c = "."%char).
Proof.
  destruct k as [| c [| ? ?]]; try discriminate. cbn.
  intros H. exists c. split; [reflexivity|].
  destruct (Ascii.eqb c ".") eqn:E.
  - right. now apply Ascii.eqb_eq.
  - left. rewrite orb_false_r in H. auto.
Qed.

Lemma appendDigit_typed k d :
  is_key k = true -> typed_numeral d -> typed_numeral (Display.appendDigit k d).
Proof.
  intros K (L & C).
  destruct (is_key_inv k K) as (c & -> & Hc).
  pose (d1 := if Display.isError d
              then Display.setCurrentValue "0" (Display.clearError d) else d).
  assert (T1 : typed_numeral d1).
  { subst d1. destruct (Display.isError d); [| split; assumption].
    split; cbn; lia. }
  destruct T1 as (L1 & C1).
  pose proof (appendDigit_cases (String c "") d) as A.
  cbv zeta in A. fold d1 in A.
  destruct A
    as [(_ & _ & ->) | [(_ & _ & ->) | [(_ & _ & _ & ->) | (_ & Hd & Hl & ->)]]];
    unfold typed_numeral.
  - split; cbn; [lia|]. destruct (Ascii.eqb c "."); cbn; lia.
  - split; assumption.
  - split; assumption.
  - rewrite updateDisplay_value by (apply app_nonempty; discriminate).
    split.
    + rewrite slength_app. cbn. lia.
    + rewrite count_app. cbn.
      destruct (Ascii.eqb c ".") eqn:E; [| lia].
      apply Ascii.eqb_eq in E. subst c.
      destruct Hd as [Hd | Hd]; [congruence|].
      rewrite includes_count in Hd. apply negb_false_iff, Nat.eqb_eq in Hd. lia.
Qed.

Lemma type_keys_typed ks : forall d,
  forallb is_key ks = true -> typed_numeral d -> typed_numeral (type_keys ks d).
Proof.
  induction ks as [| k ks IH]; intros d K T; [exact T|].
  cbn in K. apply andb_prop in K as [K1 K2].
  cbn. apply IH; [exact K2 | now apply appendDigit_typed].
Qed.

Lemma appendDigit_full digit d :
  Display.isError d = false ->
  (15 <= length (Display.currentValue d))%nat ->
  Display.appendDigit digit d = d.
Proof.
  intros E H15.
  destruct (appendDigit_cases digit d)
    as [(H0 & _ & _) | [(_ & _ & ->) | [(_ & _ & _ & ->) | (_ & _ & Hl & _)]]];
    rewrite E in *; try reflexivity.
  - rewrite H0 in H15. cbn in H15. lia.
  - lia.
Qed.

Lemma inputDecimal_twice c : inputDecimal (inputDecimal c) = inputDecimal c.
Proof.
  unfold inputDecimal at 2 3.
  destruct (waitingForOperand (st c)) eqn:W; [reflexivity|].
  destruct (Display.hasDecimal (display c)) eqn:H.
  { unfold inputDecimal. now rewrite W, H. }
  unfold inputDecimal. cbn [with_display st display]. rewrite W.
  assert (D : Display.hasDecimal (Display.appendDigit "." (display c)) = true \/
              Display.appendDigit "." (display c) = display c).
  { pose proof (appendDigit_cases "." (display c)) as A. cbv zeta in A.
    unfold Display.hasDecimal in *.
    destruct (Display.isError (display c)) eqn:Er.
    - left.
      destruct A as [(_ & N & _) | [(_ & I & _) | [(_ & _ & L & _) | (_ & _ & _ & ->)]]];
        [congruence | discriminate I | cbn in L; lia | reflexivity].
    - destruct A as [(_ & N & _) | [(_ & I & _) | [(_ & _ & _ & E) | (_ & _ & _ & ->)]]];
        [congruence | congruence | now right | left].
      rewrite updateDisplay_value by (apply app_nonempty; discriminate).
      apply includes_snoc. }
  destruct D as [D | D].
  - cbn [with_display display]. now rewrite D.
  - rewrite D, with_display_same, H, D. apply with_display_same.
Qed.

Lemma is_digit_key_inv k :
  is_digit_key k = true ->
  exists ch, k = String ch "" /\ is_digit ch = true /\ k <> "." /\ k <> "" /\
             Display.is_sentinel k = false.
Proof.
  destruct k as [| ch [| ? ?]]; try discriminate. cbn [is_digit_key].
  intros D. exists ch. repeat split; auto; try discriminate.
  - intros E. injection E as ->. discriminate.
  - unfold Display.is_sentinel. cbn.
    repeat match goal with
           | |- context [Ascii.eqb ?a ?b] => destruct (Ascii.eqb a b)
           end; reflexivity.
Qed.

Lemma digit_replaces digit d :
  is_digit_key digit = true ->
  Display.isError d = true \/ Display.currentValue d = "0" ->
  Display.currentValue (Display.appendDigit digit d) = digit.
Proof.
  intros K H. destruct (is_digit_key_inv digit K) as (ch & -> & D & N & _).
  pose proof (appendDigit_cases (String ch "") d) as A. cbv zeta in A.
  assert (E0 : Display.currentValue
                 (if Display.isError d
                  then Display.setCurrentValue "0" (Display.clearError d) else d)
               = "0").
  { destruct (Display.isError d); [reflexivity|]. destruct H; congruence. }
  rewrite E0 in A.
  destruct A as [(_ & _ & ->) | [(E & _) | [([E | E] & _) | ([E | E] & _)]]];
    try congruence.
  reflexivity.
Qed.

(** Where a digit starts a new number, the display holds that digit
    afterwards. *)
Lemma inputNumber_replaces digit c :
  is_digit_key digit = true ->
  waitingForOperand (st c) = true \/ justCalculated (st c) = true \/
  Display.isError (display c) = true \/ Display.currentValue (display c) = "0" ->
  Display.currentValue (display (inputNumber digit c)) = digit /\
  waitingForOperand (st (inputNumber digit c)) = false /\
  justCalculated (st (inputNumber digit c)) = false.
Proof.
  intros K H. unfold inputNumber.
  destruct (waitingForOperand (st c)) eqn:W.
  - cbn [with_state with_display display st waitingForOperand justCalculated].
    destruct (is_digit_key_inv digit K) as (ch & -> & _).
    repeat split.
  - destruct (justCalculated (st c)) eqn:J.
    + cbn [with_state with_display set_justCalculated display st
             waitingForOperand justCalculated].
      rewrite W. split; [| split; reflexivity].
      apply digit_replaces; [exact K | now right].
    + cbn [with_display display st]. rewrite W, J. split; [| split; reflexivity].
      apply digit_replaces; [exact K|].
      destruct H as [H | [H | H]]; [congruence | congruence | exact H].
Qed.

Lemma inputOperator_sets_waiting now op c :
  waitingForOperand (st (inputOperator now op c)) = true /\
  currentOperator (st (inputOperator now op c)) = Some op /\
  justCalculated (st (inputOperator now op c)) = false.
Proof. unfold inputOperator. cbn. repeat split. Qed.

Lemma truthy_inv o : truthy o = true -> exists op, o = Some op /\ op <> "".
Proof.
  destruct o as [[| ? ?] |]; try discriminate.
  intros _. eexists. split; [reflexivity | discriminate].
Qed.

(** After [equals()] with a pending operation a result or an error is
    showing. *)
Lemma equals_then_digit now c :
  previousValue (st c) <> None -> truthy (currentOperator (st c)) = true ->
  waitingForOperand (st (equals now c)) = false /\
  (justCalculated (st (equals now c)) = true \/
   Display.isError (display (equals now c)) = true).
Proof.
  intros P T. destruct (previousValue (st c)) as [prev|] eqn:Pv; [| congruence].
  destruct (truthy_inv _ T) as (op & Ho & Hne).
  destruct (Operations.calculate (VNum prev)
              (VNum (Display.getCurrentValue (display c))) op) as [r| | | |] eqn:R.
  - destruct (equals_success now c prev op r Pv Ho Hne R) as (_ & _ & W & J). auto.
  - destruct (equals_failure now c prev op Pv Ho Hne) as (_ & _ & E & _ & _ & W);
      [now rewrite R | auto].
  - destruct (equals_failure now c prev op Pv Ho Hne) as (_ & _ & E & _ & _ & W);
      [now rewrite R | auto].
  - destruct (equals_failure now c prev op Pv Ho Hne) as (_ & _ & E & _ & _ & W);
      [now rewrite R | auto].
  - destruct (equals_failure now c prev op Pv Ho Hne) as (_ & _ & E & _ & _ & W);
      [now rewrite R | auto].
Qed.

Lemma snoc_inj s : forall t c d,
  s ++ String c "" = t ++ String d "" -> c = d.
Proof.
  induction s as [| e s IH]; intros [| f t] c d H; cbn in H.
  - now injection H.
  - injection H as _ H. destruct t; discriminate.
  - injection H as _ H. destruct s; discriminate.
  - injection H as _ H. eauto.
Qed.

(** A text that ends in a digit or a decimal point is none of the
    sentinels. *)
Lemma snoc_not_sentinel s c :
  Ascii.eqb c "r" = false -> Ascii.eqb c "y" = false ->
  Display.is_sentinel (s ++ String c "") = false.
Proof.
  intros R Y. unfold Display.is_sentinel.
  destruct (String.eqb_spec (s ++ String c "") "Error") as [E | _].
  { apply (snoc_inj s "Erro") in E. subst c. discriminate. }
  destruct (String.eqb_spec (s ++ String c "") "Infinity") as [E | _].
  { apply (snoc_inj s "Infinit") in E. subst c. discriminate. }
  destruct (String.eqb_spec (s ++ String c "") "-Infinity") as [E | _].
  { apply (snoc_inj s "-Infinit") in E. subst c. discriminate. }
  reflexivity.
Qed.

Lemma drop_last_app_snoc s c : drop_last (s ++ String c "") = s.
Proof.
  induction s as [| e s IH]; [reflexivity|].
  cbn [append]. destruct (s ++ String c "") as [| f t] eqn:E.
  - destruct s; discriminate.
  - change (drop_last (String e (String f t)))
      with (String e (drop_last (String f t))).
    now rewrite IH.
Qed.

Lemma key_not_letters c :
  is_digit c = true \/ c = "."%char ->
  Ascii.eqb c "r" = false /\ Ascii.eqb c "y" = false.
Proof.
  intros [D | ->]; [| split; reflexivity].
  destruct (is_digit_char c D) as (n & Hn & ->).
  destruct (digit_cases n Hn)
    as [-> | [-> | [-> | [-> | [-> | [-> | [-> | [-> | [-> | ->]]]]]]]]];
    split; reflexivity.
Qed.

(** [deleteLast] after [appendDigit] gives the text back. *)
Lemma keystroke_undone k d :
  is_key k = true ->
  Display.isError d = false ->
  Display.currentValue d <> "" ->
  (length (Display.currentValue d) < 15)%nat ->
  (k = "." -> includes (Display.currentValue d) "." = false) ->
  Display.currentValue (Display.deleteLast (Display.appendDigit k d))
  = Display.currentValue d.
Proof.
  intros K E N L Hd.
  destruct (is_key_inv k K) as (c & -> & Hc).
  assert (Hc' : is_digit c = true \/ c = "."%char) by tauto.
  destruct (key_not_letters c Hc') as (R & Y).
  pose proof (appendDigit_cases (String c "") d) as A. cbv zeta in A.
  rewrite E in A.
  destruct A as [(E0 & _ & ->) | [(Ek & I & _) | [(_ & _ & L' & _) | (_ & _ & _ & ->)]]].
  - rewrite E0. unfold Display.deleteLast.
    cbn [Display.updateDisplay Display.isError Display.currentValue
           Display.setCurrentValue].
    destruct (Display.is_sentinel (String c "")); reflexivity.
  - rewrite (Hd Ek) in I. discriminate.
  - lia.
  - unfold Display.deleteLast.
    cbn [Display.updateDisplay Display.isError Display.currentValue].
    destruct (Display.currentValue d ++ String c "") as [| f t] eqn:Ev.
    { destruct (Display.currentValue d); discriminate. }
    rewrite <- Ev, (snoc_not_sentinel _ c R Y).
    cbn [Display.setCurrentValue Display.currentValue].
    assert (Hl : (1 <? length (Display.currentValue d ++ String c ""))%nat = true).
    { apply Nat.ltb_lt. rewrite slength_app. cbn.
      destruct (Display.currentValue d); [congruence | cbn; lia]. }
    rewrite Hl, drop_last_app_snoc.
    destruct (Display.currentValue d); [congruence | reflexivity].
Qed.

End Keystrokes.

(** ** Exact arithmetic on integers *)
Section ExactArithmetic.

Lemma canon_scaled s p : canon s p = scaled s p 0.
Proof. reflexivity. Qed.

Lemma fexp_mid x : -1074 <= x - 53 -> fexp 53 1024 x = x - 53.
Proof. unfold fexp, emin. lia. Qed.

Lemma round_scaled sg p j e :
  0 <= j ->
  Zpos (digits2_pos p) <= 53 -> 53 - Zpos (digits2_pos p) <= j ->
  -1074 <= e + j + Zpos (digits2_pos p) - 53 <= 971 ->
  binary_round_aux 53 1024 sg (Zpos p * 2 ^ j) e loc_Exact = scaled sg p (e + j).
Proof.
  intros Hj D Hs R.
  set (dp := Zpos (digits2_pos p)) in *.
  assert (Hdp : 1 <= dp) by (unfold dp; lia).
  set (c := Z.to_pos (Zpos p * 2 ^ (53 - dp))).
  assert (C : Zpos c = Zpos p * 2 ^ (53 - dp)).
  { unfold c. apply Z2Pos.id. pow_pos_new 2 (53 - dp). lia. }
  pow_pos K 2 j.
  set (e1 := e + j + dp - 53) in *.
  assert (S1 : shr_fexp 53 1024 (Zpos p * 2 ^ j) e loc_Exact
               = ({| shr_m := Zpos c; shr_r := false; shr_s := false |}, e1)).
  { unfold shr_fexp. rewrite Zdigits2_shift by lia. fold dp.
    rewrite fexp_mid by lia.
    cbn [shr_record_of_loc]. unfold shr.
    destruct (dp + j + e - 53 - e) as [|t|t] eqn:T; try lia.
    - f_equal; [| unfold e1; lia]. f_equal. rewrite C. f_equal. f_equal. lia.
    - rewrite iter_shr_exact.
      + f_equal; [| unfold e1; lia]. f_equal. rewrite C.
        replace j with ((53 - dp) + Zpos t) by lia.
        rewrite Z.pow_add_r, Z.mul_assoc by lia.
        apply Z.div_mul. pow_pos_new 2 (Zpos t). lia.
      + lia.
      + replace j with ((53 - dp) + Zpos t) by lia.
        rewrite Z.pow_add_r, Z.mul_assoc by lia.
        apply Z.mod_mul. pow_pos_new 2 (Zpos t). lia. }
  assert (Dc : Zpos (digits2_pos c) = 53).
  { unfold c. rewrite digits2_shift by lia. fold dp. lia. }
  assert (S2 : shr_fexp 53 1024 (Zpos c) e1 loc_Exact
               = ({| shr_m := Zpos c; shr_r := false; shr_s := false |}, e1)).
  { unfold shr_fexp. cbn [Zdigits2]. rewrite Dc.
    rewrite fexp_mid by lia. replace (53 + e1 - 53 - e1) with 0 by lia.
    reflexivity. }
  unfold binary_round_aux. rewrite S1.
  cbn [shr_m loc_of_shr_record round_nearest_even]. rewrite S2. cbn [shr_m].
  destruct (Z.leb_spec e1 (1024 - 53)); [| lia].
  reflexivity.
Qed.

Lemma scaled_mantissa p :
  Zpos (digits2_pos p) <= 53 ->
  Zpos (Z.to_pos (Zpos p * 2 ^ (53 - Zpos (digits2_pos p))))
  = Zpos p * 2 ^ (53 - Zpos (digits2_pos p)).
Proof.
  intros D. apply Z2Pos.id. pow_pos_new 2 (53 - Zpos (digits2_pos p)). lia.
Qed.

Lemma scaled_mantissa_digits p :
  Zpos (digits2_pos p) <= 53 ->
  Zpos (digits2_pos (Z.to_pos (Zpos p * 2 ^ (53 - Zpos (digits2_pos p))))) = 53.
Proof. intros D. rewrite digits2_shift by lia. lia. Qed.

Lemma scaled_shift s p a k :
  0 <= a -> Zpos (digits2_pos p) + a <= 53 ->
  scaled s (Z.to_pos (Zpos p * 2 ^ a)) k = scaled s p (k + a).
Proof.
  intros Ha D. unfold scaled.
  rewrite digits2_shift by lia.
  pow_pos K 2 a.
  rewrite Z2Pos.id by lia.
  f_equal; [| lia]. f_equal.
  rewrite <- Z.mul_assoc, <- Z.pow_add_r by lia. f_equal. f_equal. lia.
Qed.

(** The product of two normal forms whose exact product fits the
    mantissa. *)
Lemma mul_scaled s1 p1 k1 s2 p2 k2 q t :
  Zpos (digits2_pos p1) <= 53 -> Zpos (digits2_pos p2) <= 53 ->
  Zpos p1 * Zpos p2 = Zpos q * 2 ^ t -> 0 <= t ->
  Zpos (digits2_pos q) <= 53 ->
  -1074 <= k1 + k2 + t + Zpos (digits2_pos q) - 53 <= 971 ->
  JS.mul (scaled s1 p1 k1) (scaled s2 p2 k2) = scaled (xorb s1 s2) q (k1 + k2 + t).
Proof.
  intros D1 D2 E Ht Dq R.
  unfold JS.mul, SFmul, JS.prec, JS.emax.
  unfold scaled at 1. unfold scaled at 1. cbv beta iota.
  set (d1 := Zpos (digits2_pos p1)) in *. set (d2 := Zpos (digits2_pos p2)) in *.
  set (dq := Zpos (digits2_pos q)) in *.
  assert (1 <= d1) by (unfold d1; lia). assert (1 <= d2) by (unfold d2; lia).
  rewrite Pos2Z.inj_mul, !scaled_mantissa by assumption. fold d1 d2.
  pow_pos T 2 t.
  assert (Dm : d1 + d2 - 1 <= dq + t).
  { pose proof (digits2_mul p1 p2) as [L _]. fold d1 d2 in L.
    assert (Zpos (digits2_pos (p1 * p2)) = dq + t); [| lia].
    replace (p1 * p2)%positive with (Z.to_pos (Zpos q * 2 ^ t)).
    - apply digits2_shift. lia.
    - rewrite <- E. reflexivity. }
  replace (Zpos p1 * 2 ^ (53 - d1) * (Zpos p2 * 2 ^ (53 - d2)))
    with (Zpos q * 2 ^ (t + (53 - d1) + (53 - d2))).
  2:{ rewrite !Z.pow_add_r by lia.
      replace (Zpos q * (2 ^ t * 2 ^ (53 - d1) * 2 ^ (53 - d2)))
        with ((Zpos q * 2 ^ t) * 2 ^ (53 - d1) * 2 ^ (53 - d2)) by ring.
      rewrite <- E. ring. }
  rewrite round_scaled; fold dq; try lia.
  f_equal. lia.
Qed.

(** [Math.round] leaves an integer as it is. *)
Lemma Math_round_scaled s p k :
  0 <= k -> Zpos (digits2_pos p) <= 53 ->
  Math_round (scaled s p k) = scaled s p k.
Proof.
  intros Hk D. unfold Math_round, scaled at 1.
  set (d := Zpos (digits2_pos p)) in *.
  assert (1 <= d) by (unfold d; lia).
  destruct (Z.leb_spec 0 (k + d - 53)) as [He | He]; [reflexivity|].
  set (m := Z.to_pos (Zpos p * 2 ^ (53 - d))).
  assert (M : Zpos m = Zpos p * 2 ^ (53 - d)) by (apply scaled_mantissa; assumption).
  set (den := 2 ^ (- (k + d - 53))).
  assert (Hden : 0 < den) by (unfold den; apply Z.pow_pos_nonneg; lia).
  pow_pos K 2 k.
  assert (Hm : Zpos m = (Zpos p * 2 ^ k) * den).
  { rewrite M. unfold den. rewrite <- Z.mul_assoc, <- Z.pow_add_r by lia.
    f_equal. f_equal. lia. }
  assert (Dk : Zpos (digits2_pos (Z.to_pos (Zpos p * 2 ^ k))) <= 53).
  { rewrite digits2_shift by lia. fold d. lia. }
  assert (N : (2 * (if s then Zneg m else Zpos m) + den) / (2 * den)
              = if s then - (Zpos p * 2 ^ k) else Zpos p * 2 ^ k).
  { destruct s.
    - change (Zneg m) with (- Zpos m). rewrite Hm.
      replace (2 * - (Zpos p * 2 ^ k * den) + den)
        with (- (Zpos p * 2 ^ k) * (2 * den) + den) by ring.
      rewrite Z.div_add_l by lia. rewrite Z.div_small by lia. lia.
    - rewrite Hm.
      replace (2 * (Zpos p * 2 ^ k * den) + den)
        with ((Zpos p * 2 ^ k) * (2 * den) + den) by ring.
      rewrite Z.div_add_l by lia. rewrite Z.div_small by lia. lia. }
  rewrite N.
  assert (P : Zpos p * 2 ^ k = Zpos (Z.to_pos (Zpos p * 2 ^ k)))
    by (rewrite Z2Pos.id; lia).
  destruct s.
  - destruct (Z.eqb_spec (- (Zpos p * 2 ^ k)) 0); [lia|].
    rewrite P. change (- Zpos ?x) with (Zneg x).
    rewrite ofZ_neg by exact Dk.
    rewrite canon_scaled, scaled_shift by (fold d; lia). f_equal.
  - destruct (Z.eqb_spec (Zpos p * 2 ^ k) 0); [lia|].
    rewrite P. rewrite ofZ_pos by exact Dk.
    rewrite canon_scaled, scaled_shift by (fold d; lia). f_equal.
Qed.

Lemma new_location_zero t : new_location (Zpos t) 0 = loc_Exact.
Proof.
  unfold new_location, new_location_even, new_location_odd.
  destruct (Z.even (Zpos t)); reflexivity.
Qed.

(** The quotient of two normal forms when it is exact. *)
Lemma div_scaled s1 p1 k1 s2 p2 k2 q t :
  Zpos (digits2_pos p1) <= 53 -> Zpos (digits2_pos p2) <= 53 ->
  Zpos p1 * 2 ^ t = Zpos q * Zpos p2 -> 0 <= t ->
  Zpos (digits2_pos q) <= 53 ->
  -1021 <= k1 + Zpos (digits2_pos p1) - (k2 + Zpos (digits2_pos p2)) ->
  -1074 <= k1 - k2 - t + Zpos (digits2_pos q) - 53 <= 971 ->
  JS.div (scaled s1 p1 k1) (scaled s2 p2 k2) = scaled (xorb s1 s2) q (k1 - k2 - t).
Proof.
  intros D1 D2 E Ht Dq F R.
  unfold JS.div, SFdiv, JS.prec, JS.emax.
  unfold scaled at 1. unfold scaled at 1. cbv beta iota.
  unfold SFdiv_core_binary. cbn [Zdigits2].
  rewrite !scaled_mantissa_digits by assumption.
  set (d1 := Zpos (digits2_pos p1)) in *. set (d2 := Zpos (digits2_pos p2)) in *.
  set (dq := Zpos (digits2_pos q)) in *.
  assert (1 <= d1) by (unfold d1; lia). assert (1 <= d2) by (unfold d2; lia).
  assert (1 <= dq) by (unfold dq; lia).
  set (e1 := k1 + d1 - 53). set (e2 := k2 + d2 - 53).
  replace (53 + e1 - (53 + e2)) with (e1 - e2) by lia.
  rewrite fexp_mid by (unfold e1, e2; lia).
  replace (Z.min (e1 - e2 - 53) (e1 - e2)) with (e1 - e2 - 53) by lia.
  replace (e1 - e2 - (e1 - e2 - 53)) with 53 by lia.
  rewrite Z.shiftl_mul_pow2 by lia.
  rewrite !scaled_mantissa by assumption. fold d1 d2.
  pow_pos T 2 t.
  assert (Dm : d1 + t <= dq + d2).
  { pose proof (digits2_mul q p2) as [_ U]. fold dq d2 in U.
    assert (Zpos (digits2_pos (q * p2)) = d1 + t); [| lia].
    replace (q * p2)%positive with (Z.to_pos (Zpos p1 * 2 ^ t)).
    - apply digits2_shift. lia.
    - rewrite E. reflexivity. }
  set (J := 53 - d1 + d2 - t).
  assert (HJ : 0 <= J) by (unfold J; lia).
  pow_pos PJ 2 J. pow_pos P1 2 (53 - d1). pow_pos P2 2 (53 - d2).
  assert (Hm : Zpos p1 * 2 ^ (53 - d1) * 2 ^ 53
               = (Zpos q * 2 ^ J) * (Zpos p2 * 2 ^ (53 - d2))).
  { transitivity ((Zpos p1 * 2 ^ t) * 2 ^ (53 - d1 + 53 - t)).
    - rewrite <- !Z.mul_assoc. f_equal. rewrite <- !Z.pow_add_r by lia.
      f_equal. lia.
    - rewrite E. unfold J.
      replace (53 - d1 + 53 - t) with ((53 - d1 + d2 - t) + (53 - d2)) by lia.
      rewrite Z.pow_add_r by lia. ring. }
  rewrite Hm.
  destruct (Z.div_eucl (Zpos q * 2 ^ J * (Zpos p2 * 2 ^ (53 - d2)))
              (Zpos p2 * 2 ^ (53 - d2))) as [qq r] eqn:Ev.
  assert (Hq : qq = Zpos q * 2 ^ J).
  { assert (Q := f_equal fst Ev). cbn [fst] in Q.
    change (fst (Z.div_eucl ?a ?b)) with (a / b) in Q.
    rewrite Z.div_mul in Q by lia. auto. }
  assert (Hr : r = 0).
  { assert (Q := f_equal snd Ev). cbn [snd] in Q.
    change (snd (Z.div_eucl ?a ?b)) with (a mod b) in Q.
    rewrite Z.mod_mul in Q by lia. auto. }
  subst qq r.
  assert (NL : new_location (Zpos p2 * 2 ^ (53 - d2)) 0 = loc_Exact).
  { unfold d2. rewrite <- (scaled_mantissa p2) by exact D2.
    apply new_location_zero. }
  rewrite NL.
  rewrite round_scaled; fold dq; unfold e1, e2, J; try lia.
  f_equal. lia.
Qed.

(** Rounding an integer given with trailing zero bits. *)
Lemma binary_round_int s n k :
  0 <= k -> Zpos (digits2_pos n) <= 53 ->
  binary_round 53 1024 s (Z.to_pos (Zpos n * 2 ^ k)) (- k) = canon s n.
Proof.
  intros Hk D. unfold binary_round.
  pow_pos K 2 k.
  rewrite digits2_shift by lia.
  set (d := Zpos (digits2_pos n)) in *.
  assert (1 <= d) by (unfold d; lia).
  replace (d + k + - k) with d by lia.
  rewrite fexp_small by lia.
  unfold shl_align.
  destruct (d - 53 - - k) as [|t|t] eqn:T.
  - rewrite Z2Pos.id by lia.
    apply (binary_round_aux_exact s n k); auto; fold d; lia.
  - rewrite Z2Pos.id by lia.
    apply (binary_round_aux_exact s n k); auto; fold d; lia.
  - rewrite iter_xO. rewrite Z2Pos.id by lia.
    rewrite <- Z.mul_assoc, <- Z.pow_add_r by lia.
    apply (binary_round_aux_exact s n (k + Zpos t)); auto; fold d; lia.
Qed.

Lemma binary_normalize_int n k :
  0 <= k -> Z.abs n < 2 ^ 53 ->
  binary_normalize 53 1024 (n * 2 ^ k) (- k) false = ofZ n.
Proof.
  intros Hk B. pow_pos K 2 k.
  destruct n as [| p | p].
  - reflexivity.
  - rewrite ofZ_pos by (apply digits2_le53; lia).
    assert (E : Zpos p * 2 ^ k = Zpos (Z.to_pos (Zpos p * 2 ^ k)))
      by (rewrite Z2Pos.id; lia).
    rewrite E. cbn [binary_normalize].
    apply binary_round_int; [lia | apply digits2_le53; lia].
  - rewrite ofZ_neg by (apply digits2_le53; lia).
    assert (E : Zneg p * 2 ^ k = Zneg (Z.to_pos (Zpos p * 2 ^ k))).
    { change (Zneg (Z.to_pos (Zpos p * 2 ^ k)))
        with (- Zpos (Z.to_pos (Zpos p * 2 ^ k))).
      rewrite Z2Pos.id by lia. lia. }
    rewrite E. cbn [binary_normalize].
    apply binary_round_int; [lia | apply digits2_le53; lia].
Qed.

Lemma shl_align_value m e ez :
  ez <= e -> Zpos (fst (shl_align m e ez)) = Zpos m * 2 ^ (e - ez).
Proof.
  intros H. unfold shl_align.
  destruct (ez - e) as [|t|t] eqn:T; cbn [fst].
  - replace (e - ez) with 0 by lia. lia.
  - lia.
  - rewrite iter_xO. f_equal. f_equal. lia.
Qed.

Lemma cond_Zopp_signed s m : cond_Zopp s (Zpos m) = signed s m.
Proof. destruct s; reflexivity. Qed.

Lemma signed_scale s p k :
  0 <= k -> signed s (Z.to_pos (Zpos p * 2 ^ k)) = signed s p * 2 ^ k.
Proof.
  intros Hk. pow_pos K 2 k. destruct s; cbn [signed].
  - change (Zneg ?x) with (- Zpos x). rewrite Z2Pos.id by lia. lia.
  - rewrite Z2Pos.id; lia.
Qed.

(** The Number value of a non-zero integer below 2^53. *)
Lemma ofZ_signed s p :
  Zpos (digits2_pos p) <= 53 -> ofZ (signed s p) = canon s p.
Proof. destruct s; cbn [signed]; [apply ofZ_neg | apply ofZ_pos]. Qed.

Lemma add_canon s1 p1 s2 p2 :
  Zpos (digits2_pos p1) <= 53 -> Zpos (digits2_pos p2) <= 53 ->
  Z.abs (signed s1 p1 + signed s2 p2) < 2 ^ 53 ->
  JS.add (canon s1 p1) (canon s2 p2) = ofZ (signed s1 p1 + signed s2 p2).
Proof.
  intros D1 D2 B. unfold JS.add, SFadd, canon, JS.prec, JS.emax.
  set (d1 := Zpos (digits2_pos p1)) in *. set (d2 := Zpos (digits2_pos p2)) in *.
  assert (1 <= d1) by (unfold d1; lia). assert (1 <= d2) by (unfold d2; lia).
  set (ez := Z.min (d1 - 53) (d2 - 53)).
  rewrite !cond_Zopp_signed.
  assert (E1 : signed s1 (fst (shl_align (Z.to_pos (Zpos p1 * 2 ^ (53 - d1))) (d1 - 53) ez))
               = signed s1 p1 * 2 ^ (- ez)).
  { pose proof (shl_align_value (Z.to_pos (Zpos p1 * 2 ^ (53 - d1))) (d1 - 53) ez
                  ltac:(unfold ez; lia)) as V.
    rewrite scaled_mantissa in V by exact D1. fold d1 in V.
    rewrite <- Z.mul_assoc, <- Z.pow_add_r in V by (unfold ez; lia).
    replace (53 - d1 + (d1 - 53 - ez)) with (- ez) in V by lia.
    destruct s1; cbn [signed]; [change (Zneg ?x) with (- Zpos x) |]; rewrite V; lia. }
  assert (E2 : signed s2 (fst (shl_align (Z.to_pos (Zpos p2 * 2 ^ (53 - d2))) (d2 - 53) ez))
               = signed s2 p2 * 2 ^ (- ez)).
  { pose proof (shl_align_value (Z.to_pos (Zpos p2 * 2 ^ (53 - d2))) (d2 - 53) ez
                  ltac:(unfold ez; lia)) as V.
    rewrite scaled_mantissa in V by exact D2. fold d2 in V.
    rewrite <- Z.mul_assoc, <- Z.pow_add_r in V by (unfold ez; lia).
    replace (53 - d2 + (d2 - 53 - ez)) with (- ez) in V by lia.
    destruct s2; cbn [signed]; [change (Zneg ?x) with (- Zpos x) |]; rewrite V; lia. }
  rewrite E1, E2, <- Z.mul_add_distr_r.
  replace ez with (- (- ez)) at 2 by lia.
  apply binary_normalize_int; [unfold ez; lia | exact B].
Qed.

Lemma sub_canon s1 p1 s2 p2 :
  Zpos (digits2_pos p1) <= 53 -> Zpos (digits2_pos p2) <= 53 ->
  Z.abs (signed s1 p1 - signed s2 p2) < 2 ^ 53 ->
  JS.sub (canon s1 p1) (canon s2 p2) = ofZ (signed s1 p1 - signed s2 p2).
Proof.
  intros D1 D2 B. unfold JS.sub, SFsub, canon, JS.prec, JS.emax.
  set (d1 := Zpos (digits2_pos p1)) in *. set (d2 := Zpos (digits2_pos p2)) in *.
  assert (1 <= d1) by (unfold d1; lia). assert (1 <= d2) by (unfold d2; lia).
  set (ez := Z.min (d1 - 53) (d2 - 53)).
  rewrite !cond_Zopp_signed.
  assert (E1 : signed s1 (fst (shl_align (Z.to_pos (Zpos p1 * 2 ^ (53 - d1))) (d1 - 53) ez))
               = signed s1 p1 * 2 ^ (- ez)).
  { pose proof (shl_align_value (Z.to_pos (Zpos p1 * 2 ^ (53 - d1))) (d1 - 53) ez
                  ltac:(unfold ez; lia)) as V.
    rewrite scaled_mantissa in V by exact D1. fold d1 in V.
    rewrite <- Z.mul_assoc, <- Z.pow_add_r in V by (unfold ez; lia).
    replace (53 - d1 + (d1 - 53 - ez)) with (- ez) in V by lia.
    destruct s1; cbn [signed]; [change (Zneg ?x) with (- Zpos x) |]; rewrite V; lia. }
  assert (E2 : signed s2 (fst (shl_align (Z.to_pos (Zpos p2 * 2 ^ (53 - d2))) (d2 - 53) ez))
               = signed s2 p2 * 2 ^ (- ez)).
  { pose proof (shl_align_value (Z.to_pos (Zpos p2 * 2 ^ (53 - d2))) (d2 - 53) ez
                  ltac:(unfold ez; lia)) as V.
    rewrite scaled_mantissa in V by exact D2. fold d2 in V.
    rewrite <- Z.mul_assoc, <- Z.pow_add_r in V by (unfold ez; lia).
    replace (53 - d2 + (d2 - 53 - ez)) with (- ez) in V by lia.
    destruct s2; cbn [signed]; [change (Zneg ?x) with (- Zpos x) |]; rewrite V; lia. }
  rewrite E1, E2, <- Z.mul_sub_distr_r.
  replace ez with (- (- ez)) at 2 by lia.
  apply binary_normalize_int; [unfold ez; lia | exact B].
Qed.

Lemma pow10_split j : 0 <= j -> 10 ^ j = 5 ^ j * 2 ^ j.
Proof. intros H. change 10 with (5 * 2). apply Z.pow_mul_l. Qed.

Lemma pow10_canon j :
  (j <= 15)%nat ->
  Math_pow10 j = canon false (Z.to_pos (10 ^ Z.of_nat j)) /\
  Zpos (digits2_pos (Z.to_pos (10 ^ Z.of_nat j))) <= 53 /\
  Zpos (Z.to_pos (10 ^ Z.of_nat j)) = 10 ^ Z.of_nat j.
Proof.
  intros H. pow_pos P 10 (Z.of_nat j).
  assert (B : 10 ^ Z.of_nat j < 2 ^ 53).
  { pow_mono 10 (Z.of_nat j) 15. pose proof pow10_15_lt. lia. }
  assert (E : Zpos (Z.to_pos (10 ^ Z.of_nat j)) = 10 ^ Z.of_nat j)
    by (apply Z2Pos.id; lia).
  assert (D : Zpos (digits2_pos (Z.to_pos (10 ^ Z.of_nat j))) <= 53)
    by (apply digits2_le53; lia).
  repeat split; auto.
  unfold Math_pow10. rewrite <- E at 1. now apply ofZ_pos.
Qed.

(** Scaling an integer by a power of ten, rounding and scaling back gives
    the integer, as long as the scaled odd part fits the mantissa. *)
Lemma places_exact j s N :
  (j <= 15)%nat -> Zpos N * 5 ^ Z.of_nat j < 2 ^ 53 ->
  JS.div (Math_round (JS.mul (canon s N) (Math_pow10 j))) (Math_pow10 j)
  = canon s N.
Proof.
  intros Hj B.
  destruct (pow10_canon j Hj) as (-> & DT & ET).
  set (T := Z.to_pos (10 ^ Z.of_nat j)) in *.
  pow_pos P5 5 (Z.of_nat j). pow_pos P2 2 (Z.of_nat j).
  set (q := Z.to_pos (Zpos N * 5 ^ Z.of_nat j)).
  assert (Eq : Zpos q = Zpos N * 5 ^ Z.of_nat j) by (apply Z2Pos.id; lia).
  assert (Dq : Zpos (digits2_pos q) <= 53) by (apply digits2_le53; lia).
  assert (DN : Zpos (digits2_pos N) <= 53) by (apply digits2_le53; nia).
  assert (R : Zpos N * Zpos T = Zpos q * 2 ^ Z.of_nat j).
  { rewrite ET, Eq, pow10_split by lia. ring. }
  assert (1 <= Zpos (digits2_pos q)) by lia.
  assert (1 <= Zpos (digits2_pos T)) by lia.
  assert (1 <= Zpos (digits2_pos N)) by lia.
  rewrite !canon_scaled.
  rewrite (mul_scaled s N 0 false T 0 q (Z.of_nat j)); try lia.
  rewrite xorb_false_r, Math_round_scaled by lia.
  rewrite (div_scaled s q (0 + 0 + Z.of_nat j) false T 0 N (Z.of_nat j)); try lia.
  - rewrite xorb_false_r. f_equal. lia.
Qed.

Lemma canon_not_tiny s p :
  Zpos (digits2_pos p) <= 53 -> ltb (Math_abs (canon s p)) EPSILON = false.
Proof.
  intros D. rewrite canon_abs. unfold ltb, SFltb, canon, EPSILON, SFcompare.
  assert (1 <= Zpos (digits2_pos p)) by lia.
  assert (E : (Zpos (digits2_pos p) - 53 ?= -104) = Gt) by (apply Z.compare_gt_iff; lia).
  now rewrite E.
Qed.

Lemma fixPrecision_with_canon j s N :
  (j <= 15)%nat -> Zpos N * 5 ^ Z.of_nat j < 2 ^ 53 ->
  Operations.fixPrecision_with j (canon s N) = canon s N.
Proof.
  intros Hj B. unfold Operations.fixPrecision_with.
  rewrite canon_not_tiny by (apply digits2_le53; pow_pos_new 5 (Z.of_nat j); nia).
  now apply places_exact.
Qed.

Lemma small_int_bound n : Z.abs n <= 295147 -> Z.abs n * 5 ^ 15 < 2 ^ 53.
Proof. intros H. change (5 ^ 15) with 30517578125. change (2 ^ 53) with 9007199254740992. lia. Qed.

Lemma fixPrecision_ofZ n :
  Z.abs n <= 295147 -> Operations.fixPrecision (ofZ n) = ofZ n.
Proof.
  intros H. pose proof (small_int_bound n H) as B.
  destruct n as [| p | p]; [reflexivity | |].
  - rewrite ofZ_pos by (apply digits2_le53; cbn in *; lia).
    apply (fixPrecision_with_canon 15); [lia | exact B].
  - rewrite ofZ_neg by (apply digits2_le53; cbn in *; lia).
    apply (fixPrecision_with_canon 15); [lia | exact B].
Qed.

Lemma fixPrecision_zero s : Operations.fixPrecision (S754_zero s) = pzero.
Proof. reflexivity. Qed.

Lemma ofZ_cases n :
  Z.abs n < 2 ^ 53 ->
  n = 0 /\ ofZ n = pzero \/
  exists s p, n = signed s p /\ ofZ n = canon s p /\ Zpos (digits2_pos p) <= 53.
Proof.
  intros B. destruct n as [| p | p]; [now left | right | right].
  - exists false, p. repeat split; [apply ofZ_pos | ]; apply digits2_le53; lia.
  - exists true, p. repeat split; [apply ofZ_neg | ]; apply digits2_le53; lia.
Qed.

Lemma ofZ_finite n : Z.abs n < 2 ^ 53 -> is_finite (ofZ n) = true /\ is_nan (ofZ n) = false.
Proof.
  intros B. destruct (ofZ_cases n B) as [(_ & ->) | (s & p & _ & -> & _)];
    split; reflexivity.
Qed.

Lemma add_ofZ a b :
  Z.abs a < 2 ^ 53 -> Z.abs b < 2 ^ 53 -> Z.abs (a + b) < 2 ^ 53 ->
  JS.add (ofZ a) (ofZ b) = ofZ (a + b).
Proof.
  intros A B S.
  destruct (ofZ_cases a A) as [(-> & ->) | (s1 & p1 & -> & E1 & D1)];
    destruct (ofZ_cases b B) as [(-> & ->) | (s2 & p2 & -> & E2 & D2)].
  - reflexivity.
  - rewrite E2. cbn [Z.add]. rewrite ofZ_signed by exact D2. reflexivity.
  - rewrite E1, Z.add_0_r, ofZ_signed by exact D1. reflexivity.
  - rewrite E1, E2. now apply add_canon.
Qed.

Lemma sub_ofZ a b :
  Z.abs a < 2 ^ 53 -> Z.abs b < 2 ^ 53 -> Z.abs (a - b) < 2 ^ 53 ->
  JS.sub (ofZ a) (ofZ b) = ofZ (a - b).
Proof.
  intros A B S.
  destruct (ofZ_cases a A) as [(-> & ->) | (s1 & p1 & -> & E1 & D1)];
    destruct (ofZ_cases b B) as [(-> & ->) | (s2 & p2 & -> & E2 & D2)].
  - reflexivity.
  - rewrite E2. replace (0 - signed s2 p2) with (signed (negb s2) p2)
      by (destruct s2; reflexivity).
    rewrite ofZ_signed by exact D2. reflexivity.
  - rewrite E1, Z.sub_0_r, ofZ_signed by exact D1. reflexivity.
  - rewrite E1, E2. now apply sub_canon.
Qed.

Lemma signed_mul s1 p1 s2 p2 :
  signed s1 p1 * signed s2 p2 = signed (xorb s1 s2) (p1 * p2).
Proof. destruct s1, s2; reflexivity. Qed.

Lemma mul_ofZ a b :
  Z.abs a < 2 ^ 53 -> Z.abs b < 2 ^ 53 -> Z.abs (a * b) < 2 ^ 53 ->
  (a * b <> 0 /\ JS.mul (ofZ a) (ofZ b) = ofZ (a * b)) \/
  (a * b = 0 /\ exists s, JS.mul (ofZ a) (ofZ b) = S754_zero s).
Proof.
  intros A B S.
  destruct (ofZ_cases a A) as [(-> & ->) | (s1 & p1 & -> & E1 & D1)];
    destruct (ofZ_cases b B) as [(-> & ->) | (s2 & p2 & -> & E2 & D2)].
  - right. split; [reflexivity | now exists false].
  - right. split; [reflexivity|]. rewrite E2. now exists (xorb false s2).
  - right. split; [lia|]. rewrite E1. now exists (xorb s1 false).
  - left. rewrite signed_mul in *. split; [destruct (xorb s1 s2); discriminate|].
    assert (Dq : Zpos (digits2_pos (p1 * p2)) <= 53).
    { apply digits2_le53. destruct (xorb s1 s2); cbn [signed] in S; lia. }
    assert (1 <= Zpos (digits2_pos (p1 * p2))) by lia.
    rewrite E1, E2, ofZ_signed by exact Dq.
    rewrite !canon_scaled.
    rewrite (mul_scaled s1 p1 0 s2 p2 0 (p1 * p2) 0); auto; lia.
Qed.

Lemma signed_div_exact s1 p1 s2 p2 :
  signed s1 p1 mod signed s2 p2 = 0 ->
  exists q, Zpos p1 = Zpos q * Zpos p2 /\
            signed s1 p1 / signed s2 p2 = signed (xorb s1 s2) q.
Proof.
  intros M.
  assert (Hb : signed s2 p2 <> 0) by (destruct s2; discriminate).
  pose proof (proj2 (Z.div_exact (signed s1 p1) (signed s2 p2) Hb) M) as X.
  set (c := signed s1 p1 / signed s2 p2) in *.
  assert (Hc : c <> 0).
  { intros Hc. rewrite Hc, Z.mul_0_r in X. destruct s1; discriminate. }
  exists (Z.to_pos (Z.abs c)).
  rewrite Z2Pos.id by lia.
  destruct s1, s2; cbn [signed xorb] in *; split; try lia;
    change (Zneg ?x) with (- Zpos x) in *; try nia.
  all: rewrite Z2Pos.id by lia; nia.
Qed.

Lemma div_ofZ a b :
  Z.abs a < 2 ^ 53 -> Z.abs b < 2 ^ 53 -> b <> 0 -> a mod b = 0 ->
  eqb (ofZ b) pzero = false /\
  ((a <> 0 /\ JS.div (ofZ a) (ofZ b) = ofZ (a / b)) \/
   (a = 0 /\ exists s, JS.div (ofZ a) (ofZ b) = S754_zero s)).
Proof.
  intros A B Nb M.
  destruct (ofZ_cases b B) as [(-> & _) | (s2 & p2 & -> & E2 & D2)]; [congruence|].
  rewrite E2. split; [destruct s2; reflexivity|].
  destruct (ofZ_cases a A) as [(-> & ->) | (s1 & p1 & -> & E1 & D1)].
  - right. split; [reflexivity|]. now exists (xorb false s2).
  - left. split; [destruct s1; discriminate|].
    assert (A1 : Zpos p1 < 2 ^ 53) by (destruct s1; cbn [signed Z.abs] in A; lia).
    destruct (signed_div_exact s1 p1 s2 p2 M) as (q & Hq & ->).
    assert (Dq : Zpos (digits2_pos q) <= 53).
    { apply digits2_le53. nia. }
    assert (1 <= Zpos (digits2_pos q)) by lia.
    assert (1 <= Zpos (digits2_pos p1)) by lia.
    assert (1 <= Zpos (digits2_pos p2)) by lia.
    rewrite E1, ofZ_signed by exact Dq.
    rewrite !canon_scaled.
    rewrite (div_scaled s1 p1 0 s2 p2 0 q 0); auto; lia.
Qed.

(** What [calculate] makes of an exact integer result. *)
Lemma calculate_of_result r n :
  r = ofZ n \/ (n = 0 /\ exists s, r = S754_zero s) ->
  Z.abs n <= 295147 ->
  (if isNaN (VNum r) then VStr "Error"
   else if negb (isFinite (VNum r)) then
     if gtb (ToNumber (VNum r)) pzero then VStr "Infinity" else VStr "-Infinity"
   else VNum (Operations.fixPrecision (ToNumber (VNum r)))) = VNum (ofZ n).
Proof.
  intros [-> | (-> & s & ->)] B.
  - unfold isNaN, isFinite. cbn [ToNumber].
    destruct (ofZ_finite n) as [F N]; [change (2 ^ 53) with 9007199254740992; lia|].
    rewrite F, N. cbn [negb]. now rewrite fixPrecision_ofZ.
  - reflexivity.
Qed.

(** [calculate] on integers whose result stays within the exact range. *)
Lemma calculate_integers (a b : Z) :
  Z.abs a < 2 ^ 53 -> Z.abs b < 2 ^ 53 ->
  (Z.abs (a + b) <= 295147 ->
   Operations.calculate (VNum (ofZ a)) (VNum (ofZ b)) "+" = VNum (ofZ (a + b))) /\
  (Z.abs (a - b) <= 295147 ->
   Operations.calculate (VNum (ofZ a)) (VNum (ofZ b)) "-" = VNum (ofZ (a - b))) /\
  (Z.abs (a * b) <= 295147 ->
   Operations.calculate (VNum (ofZ a)) (VNum (ofZ b)) "×" = VNum (ofZ (a * b))) /\
  (b <> 0 -> a mod b = 0 -> Z.abs (a / b) <= 295147 ->
   Operations.calculate (VNum (ofZ a)) (VNum (ofZ b)) "÷" = VNum (ofZ (a / b))).
Proof.
  intros A B.
  destruct (ofZ_finite a A) as [_ Na]. destruct (ofZ_finite b B) as [_ Nb].
  assert (P53 : 295147 < 2 ^ 53) by (change (2 ^ 53) with 9007199254740992; lia).
  assert (Hd : forall op, Operations.calculate (VNum (ofZ a)) (VNum (ofZ b)) op
    = let result :=
          if String.eqb op "+" then Some (VNum (Operations.add (ofZ a) (ofZ b)))
          else if String.eqb op "-" then Some (VNum (Operations.subtract (ofZ a) (ofZ b)))
          else if String.eqb op "×" || String.eqb op "*" then
            Some (VNum (Operations.multiply (ofZ a) (ofZ b)))
          else if String.eqb op "÷" || String.eqb op "/" then
            Some (Operations.divide (ofZ a) (ofZ b))
          else None in
        match result with
        | None => VStr "Error"
        | Some r =>
            if isNaN r then VStr "Error"
            else if negb (isFinite r) then
              if gtb (ToNumber r) pzero then VStr "Infinity"
              else VStr "-Infinity"
            else VNum (Operations.fixPrecision (ToNumber r))
        end).
  { intros op. unfold Operations.calculate. now rewrite Na, Nb. }
  split; [| split; [| split]].
  - intros S. rewrite Hd. cbv zeta. cbn [String.eqb Ascii.eqb Bool.eqb].
    apply calculate_of_result; [left | exact S].
    apply add_ofZ; lia.
  - intros S. rewrite Hd. cbv zeta.
    change (String.eqb "-" "+") with false. change (String.eqb "-" "-") with true.
    cbv iota.
    apply calculate_of_result; [left | exact S].
    apply sub_ofZ; lia.
  - intros S. rewrite Hd. cbv zeta.
    change (String.eqb "×" "+") with false. change (String.eqb "×" "-") with false.
    change (String.eqb "×" "×") with true. cbv iota. cbn [orb].
    apply calculate_of_result; [| exact S].
    destruct (mul_ofZ a b A B ltac:(lia)) as [(_ & E) | (Z0 & s & E)];
      unfold Operations.multiply; [left | right]; eauto.
  - intros N0 M S. rewrite Hd. cbv zeta.
    change (String.eqb "÷" "+") with false. change (String.eqb "÷" "-") with false.
    change (String.eqb "÷" "×" || String.eqb "÷" "*") with false.
    change (String.eqb "÷" "÷") with true. cbv iota. cbn [orb].
    destruct (div_ofZ a b A B N0 M) as (Eb & D).
    unfold Operations.divide. rewrite Eb.
    apply calculate_of_result; [| exact S].
    destruct D as [(_ & E) | (Z0 & s & E)]; [left; exact E | right].
    split; [subst a; apply Z.div_0_l; exact N0 | eauto].
Qed.

End ExactArithmetic.

(** ** Numbers entered with the digit keys *)
Section TypedNumbers.

Import Calculator.

Lemma short_shown v d :
  v <> "" -> (length v <= 15)%nat -> Display.is_sentinel v = false ->
  Display.updateDisplay v d
  = {| Display.currentValue := v; Display.expression := Display.expression d;
       Display.isError := false; Display.displayInput := v |}.
Proof.
  intros N L S. unfold Display.updateDisplay.
  destruct v as [| c r]; [congruence|]. rewrite S.
  apply Nat.ltb_ge in L. now rewrite L.
Qed.

Lemma digit_key_short k :
  is_digit_key k = true ->
  k <> "" /\ (length k <= 15)%nat /\ Display.is_sentinel k = false /\ k <> ".".
Proof.
  intros K. destruct (is_digit_key_inv k K) as (ch & -> & D & Nd & Ne & S).
  repeat split; auto. cbn. lia.
Qed.

Lemma appendDigit_first k d :
  is_digit_key k = true ->
  Display.isError d = true \/ Display.currentValue d = "0" ->
  Display.appendDigit k d
  = {| Display.currentValue := k; Display.expression := Display.expression d;
       Display.isError := false; Display.displayInput := k |}.
Proof.
  intros K H. destruct (digit_key_short k K) as (N & L & S & Nd).
  pose proof (appendDigit_cases k d) as A. cbv zeta in A.
  assert (E0 : Display.currentValue
                 (if Display.isError d
                  then Display.setCurrentValue "0" (Display.clearError d) else d)
               = "0").
  { destruct (Display.isError d); [reflexivity|]. destruct H; congruence. }
  rewrite E0 in A.
  destruct A as [(_ & _ & ->) | [(E & _) | [([E | E] & _) | ([E | E] & _)]]];
    try congruence.
  rewrite short_shown by assumption.
  destruct (Display.isError d); reflexivity.
Qed.

Lemma appendDigit_next k d :
  is_digit_key k = true ->
  Display.isError d = false ->
  Display.currentValue d <> "0" ->
  (length (Display.currentValue d) < 15)%nat ->
  Display.appendDigit k d
  = {| Display.currentValue := Display.currentValue d ++ k;
       Display.expression := Display.expression d;
       Display.isError := false;
       Display.displayInput := Display.currentValue d ++ k |}.
Proof.
  intros K E N0 L.
  destruct (is_digit_key_inv k K) as (ch & -> & D & Nd & Ne & S).
  destruct (key_not_letters ch (or_introl D)) as (R & Y).
  pose proof (appendDigit_cases (String ch "") d) as A. cbv zeta in A.
  rewrite E in A.
  destruct A as [(E0 & _) | [(Ek & _) | [(_ & _ & L' & _) | (_ & _ & _ & ->)]]];
    try congruence; try lia.
  rewrite short_shown; [reflexivity | | | ].
  - apply app_nonempty. discriminate.
  - rewrite slength_app. cbn. lia.
  - now apply snoc_not_sentinel.
Qed.

Lemma inputNumber_first k c :
  is_digit_key k = true -> starts_number c ->
  inputNumber k c = entered k c.
Proof.
  intros K H. destruct (digit_key_short k K) as (N & L & S & Nd).
  unfold inputNumber, entered.
  destruct (waitingForOperand (st c)) eqn:W.
  - unfold with_state, with_display. cbn [display memory st negb andb].
    now rewrite short_shown.
  - destruct (justCalculated (st c)) eqn:J.
    + unfold set_justCalculated, with_state, with_display.
      cbn [display memory st negb andb previousValue currentOperator
             waitingForOperand lastOperation justCalculated].
      rewrite appendDigit_first by (auto; now right). rewrite W. reflexivity.
    + unfold with_display. cbn [negb andb].
      rewrite appendDigit_first; [| exact K |].
      * destruct c as [d m [p o w l j]]. cbn in *. subst. reflexivity.
      * destruct H as [H | [H | H]]; [congruence | congruence | exact H].
Qed.

Lemma entered_entered k s c :
  is_digit_key k = true -> s <> "0" -> (length s < 15)%nat ->
  inputNumber k (entered s c) = entered (s ++ k) c.
Proof.
  intros K N L. unfold inputNumber, entered at 1.
  cbn [st display waitingForOperand justCalculated].
  unfold with_display. cbn [display memory st].
  rewrite appendDigit_next; auto.
Qed.

Lemma keys_app a b : keys (a ++ b) = (keys a ++ keys b)%list.
Proof. unfold keys. apply map_app. Qed.

Lemma run_app u v c : run (u ++ v)%list c = run v (run u c).
Proof. revert c. induction u as [| [now e] u IH]; intros c; [reflexivity|]. cbn. apply IH. Qed.

Lemma type_more s2 : forall s1 c,
  all_digits s2 = true -> s1 <> "" -> s1 <> "0" ->
  (length s1 + length s2 <= 15)%nat ->
  run (keys (map Digit (keys_of s2))) (entered s1 c) = entered (s1 ++ s2) c.
Proof.
  induction s2 as [| ch r IH]; intros s1 c A N1 N0 L.
  - cbn. now rewrite sapp_nil_r.
  - cbn [all_digits] in A. apply andb_prop in A as [D A].
    cbn [keys_of map keys run handle]. unfold keys in IH.
    cbn [length] in L.
    rewrite entered_entered by (auto; lia).
    change (String ch r) with (String ch "" ++ r).
    rewrite <- sapp_assoc.
    apply IH; auto.
    + apply app_nonempty. discriminate.
    + destruct s1 as [| x [| y z]]; [congruence | discriminate | discriminate].
    + rewrite slength_app. cbn. lia.
Qed.

Lemma digits_head_nonzero n :
  0 < n -> exists d r, 1 <= d < 10 /\ digits n = String (digit_char d) r.
Proof.
  intros H. assert (H0 : 0 <= n) by lia. revert H.
  pattern n. apply digits_ind; [| | exact H0]; clear n H0.
  - intros n B H. exists n, "". split; [lia | now apply digits_small].
  - intros n B IH H.
    destruct IH as (d & r & Hd & E); [apply Z.div_str_pos; lia|].
    rewrite digits_step by exact B. rewrite E.
    exists d, (r ++ String (digit_char (n mod 10)) ""). split; [exact Hd | reflexivity].
Qed.

Lemma digits_short n : 0 <= n < 10 ^ 15 -> (length (digits n) <= 15)%nat.
Proof.
  intros [H0 H]. destruct n as [| p | p]; [cbn; lia | | lia].
  pose proof (L_range p H) as [R _]. clear H H0. lia.
Qed.

Lemma type_number_entered n c :
  0 <= n < 10 ^ 15 -> starts_number c ->
  run (keys (type_number n)) c = entered (digits n) c.
Proof.
  intros B H. unfold type_number.
  pose proof (digits_short n B) as L.
  pose proof (digits_all n (proj1 B)) as A.
  destruct (Z.eq_dec n 0) as [-> | N0].
  - change (digits 0) with "0". cbn [keys_of map keys run handle].
    now apply inputNumber_first.
  - destruct (digits_head_nonzero n ltac:(lia)) as (d & r & Hd & E).
    rewrite E in *. cbn [keys_of map keys run handle].
    cbn [all_digits] in A. apply andb_prop in A as [D A].
    rewrite inputNumber_first; [| cbn; exact D | exact H].
    change (String (digit_char d) r) with (String (digit_char d) "" ++ r).
    apply (type_more r (String (digit_char d) "") c);
      [exact A | discriminate | | cbn [length] in *; lia].
    intros X. injection X as X.
    pose proof (proj1 (digit_char_props d ltac:(lia))) as V.
    rewrite X in V. change (digit_val "0") with 0 in V. lia.
Qed.

Lemma toNumber_digits n :
  0 <= n < 10 ^ 15 -> Utils.toNumber (digits n) = ofZ n.
Proof.
  intros B. unfold Utils.toNumber.
  pose proof (proj1 (plain_signed false n (proj1 B))) as P.
  cbn [sign_str append] in P. rewrite P. clear P.
  destruct n as [| p | p]; [reflexivity | | lia].
  assert (D : Zpos (digits2_pos p) <= 53).
  { apply digits2_le53. pose proof pow10_15_lt. lia. }
  rewrite ofZ_pos by exact D. exact (parseFloat_int false p D).
Qed.

Lemma calculate_exact a b op r :
  Z.abs a < 2 ^ 53 -> Z.abs b < 2 ^ 53 ->
  exact_result a b op = Some r ->
  Operations.calculate (VNum (ofZ a)) (VNum (ofZ b)) op = VNum (ofZ r) /\
  Z.abs r <= 295147 /\ op <> "".
Proof.
  intros A B. unfold exact_result.
  pose proof (calculate_integers a b A B) as (Hadd & Hsub & Hmul & Hdiv).
  destruct (String.eqb_spec op "+") as [-> | _].
  { destruct (Z.leb_spec (Z.abs (a + b)) 295147); [| discriminate].
    intros [= <-]. repeat split; auto. discriminate. }
  destruct (String.eqb_spec op "-") as [-> | _].
  { destruct (Z.leb_spec (Z.abs (a - b)) 295147); [| discriminate].
    intros [= <-]. repeat split; auto. discriminate. }
  destruct (String.eqb_spec op "×") as [-> | _].
  { destruct (Z.leb_spec (Z.abs (a * b)) 295147); [| discriminate].
    intros [= <-]. repeat split; auto. discriminate. }
  destruct (String.eqb_spec op "÷") as [-> | _]; [| discriminate].
  destruct (Z.eqb_spec b 0); [discriminate|].
  destruct (Z.eqb_spec (a mod b) 0); [| discriminate]. cbn [negb orb].
  destruct (Z.leb_spec (Z.abs (a / b)) 295147); [| discriminate].
  intros [= <-]. repeat split; auto. discriminate.
Qed.

Lemma formatNumber_numeral n :
  Z.abs n < 10 ^ 15 -> Utils.formatNumber (VNum (ofZ n)) = numeral n.
Proof.
  intros B. unfold numeral. destruct n as [| p | p]; [reflexivity | |].
  - rewrite ofZ_pos by (apply digits2_le53; pose proof pow10_15_lt; cbn in B; lia).
    apply formatNumber_canon. exact B.
  - rewrite ofZ_neg by (apply digits2_le53; pose proof pow10_15_lt; cbn in B; lia).
    apply formatNumber_canon. exact B.
Qed.

Lemma digits_snoc n : 0 <= n -> exists s d, 0 <= d < 10 /\ digits n = s ++ String (digit_char d) "".
Proof.
  intros H. destruct (Z.lt_ge_cases n 10).
  - exists "", n. split; [lia | now apply digits_small].
  - exists (digits (n / 10)), (n mod 10). split; [apply Z.mod_pos_bound; lia|].
    now apply digits_step.
Qed.

Lemma signed_digits_plain s n :
  0 <= n ->
  Display.is_sentinel (sign_str s ++ digits n) = false /\
  sign_str s ++ digits n <> "".
Proof.
  intros H. destruct (digits_snoc n H) as (t & d & Hd & ->).
  pose proof (digit_char_props d Hd) as (_ & D & _).
  destruct (key_not_letters (digit_char d) (or_introl D)) as (R & Y).
  rewrite <- sapp_assoc. split.
  - now apply snoc_not_sentinel.
  - apply app_nonempty. discriminate.
Qed.

Lemma sentinel_plain v :
  Display.is_sentinel v = true -> Utils.removeThousandsSeparator v = v.
Proof.
  unfold Display.is_sentinel. intros H.
  apply orb_prop in H as [H | H]; [apply orb_prop in H as [H | H] |];
    apply String.eqb_eq in H; subst v; reflexivity.
Qed.

Lemma group_length prev s :
  (length (Utils.group_thousands prev s) <= 2 * length s)%nat.
Proof.
  revert prev. induction s as [| c r IH]; intros prev; [cbn; lia|].
  cbn [Utils.group_thousands].
  match goal with |- context [if ?b then _ else _] => destruct b end;
    cbn [length]; specialize (IH (Some c)); lia.
Qed.

Lemma numeral_shape n :
  Z.abs n < 10 ^ 15 ->
  numeral n <> "" /\ Display.is_sentinel (numeral n) = false /\
  Utils.removeThousandsSeparator (numeral n) = sign_str (n <? 0) ++ digits (Z.abs n).
Proof.
  intros B. pose proof (Z.abs_nonneg n) as H.
  destruct (signed_digits_plain (n <? 0) (Z.abs n) H) as (S & N).
  pose proof (proj1 (plain_signed (n <? 0) (Z.abs n) H)) as P.
  assert (R : Utils.removeThousandsSeparator (numeral n)
              = sign_str (n <? 0) ++ digits (Z.abs n)).
  { unfold numeral. destruct (1000 <=? Z.abs n); [rewrite remove_group|]; exact P. }
  split; [| split; [| exact R]].
  - intros E. rewrite E in R. cbn [Utils.removeThousandsSeparator] in R.
    symmetry in R. exact (N R).
  - destruct (Display.is_sentinel (numeral n)) eqn:X; [| reflexivity].
    rewrite (sentinel_plain _ X) in R. rewrite R in X. congruence.
Qed.

Lemma numeral_short n : Z.abs n <= 295147 -> (length (numeral n) <= 15)%nat.
Proof.
  intros B.
  assert (L : (length (sign_str (n <? 0)%Z ++ digits (Z.abs n)) <= 7)%nat).
  { rewrite slength_app.
    assert (length (sign_str (n <? 0)%Z) <= 1)%nat by (destruct (n <? 0); cbn; lia).
    assert (length (digits (Z.abs n)) <= 6)%nat; [| lia].
    destruct (Z.eq_dec (Z.abs n) 0) as [-> | N0]; [cbn; lia|].
    pose proof (digits_length (Z.abs n) ltac:(lia)) as [Lo _].
    destruct (Nat.le_gt_cases (length (digits (Z.abs n))) 6) as [|G]; [assumption|].
    exfalso.
    assert (10 ^ 6 <= 10 ^ (Z.of_nat (length (digits (Z.abs n))) - 1))
      by (apply Z.pow_le_mono_r; lia).
    change (10 ^ 6) with 1000000 in *. lia. }
  unfold numeral. destruct (1000 <=? Z.abs n); [| lia].
  pose proof (group_length None (sign_str (n <? 0) ++ digits (Z.abs n))). lia.
Qed.

Lemma showResult_number x op d :
  is_nan x = false -> op <> "" ->
  Display.showResult (VNum x) op d
  = Display.updateExpression (op ++ " =")
      (Display.updateDisplay (Utils.formatNumber (VNum x)) d).
Proof.
  intros N O. unfold Display.showResult. cbn [Operations.isValidResult].
  rewrite N. cbn [negb]. destruct op; [congruence | reflexivity].
Qed.

Lemma formatOperation_binary a op b :
  Operations.formatOperation a op (Some b)
  = Utils.formatNumber a ++ " " ++ op ++ " " ++ Utils.formatNumber b.
Proof. reflexivity. Qed.

(** [equals()] on a pending operation that evaluates to a number. *)
Lemma equals_number now c p op x :
  previousValue (st c) = Some p -> currentOperator (st c) = Some op -> op <> "" ->
  Operations.calculate (VNum p) (VNum (Display.getCurrentValue (display c))) op
  = VNum x ->
  is_nan x = false ->
  let operation :=
    Utils.formatNumber (VNum p) ++ " " ++ op ++ " "
    ++ Utils.formatNumber (VNum (Display.getCurrentValue (display c))) in
  equals now c
  = {| display :=
         Display.updateExpression (operation ++ " =")
           (Display.updateDisplay (Utils.formatNumber (VNum x)) (display c));
       memory := MemoryOperations.addToHistory now operation (VNum x) (memory c);
       st := {| previousValue := None; currentOperator := None;
                waitingForOperand := false; lastOperation := None;
                justCalculated := true |} |}.
Proof.
  intros P O Ne R N operation.
  assert (T : truthy (Some op) = true) by (destruct op; [congruence | reflexivity]).
  unfold equals. rewrite P, O, T. unfold calculate. rewrite P, O, R.
  rewrite formatOperation_binary. fold operation.
  cbn [display st memory with_display currentOperator].
  rewrite formatOperation_binary. fold operation.
  rewrite O. fold operation.
  rewrite showResult_number; [reflexivity | exact N |].
  unfold operation. destruct (Utils.formatNumber (VNum p)); discriminate.
Qed.

Lemma inputOperator_first now op c :
  previousValue (st c) = None ->
  inputOperator now op c
  = {| display :=
         Display.updateExpression
           (Utils.formatNumber (VNum (Display.getCurrentValue (display c)))
            ++ " " ++ op) (display c);
       memory := memory c;
       st := {| previousValue := Some (Display.getCurrentValue (display c));
                currentOperator := Some op;
                waitingForOperand := true;
                lastOperation := lastOperation (st c);
                justCalculated := false |} |}.
Proof. intros P. unfold inputOperator. rewrite P. reflexivity. Qed.

Lemma typed_calculation a b r op :
  0 <= a < 10 ^ 15 -> 0 <= b < 10 ^ 15 ->
  exact_result a b op = Some r ->
  run (press a op b) Calculator.new
  = {| display :=
         {| Display.currentValue := numeral r;
            Display.expression :=
              (numeral a ++ " " ++ op ++ " " ++ numeral b) ++ " =";
            Display.isError := false;
            Display.displayInput := numeral r |};
       memory :=
         {| MemoryOperations.memory := pzero;
            MemoryOperations.history :=
              [ {| MemoryOperations.timestamp := "2024-01-01T00:00:00.000Z";
                   MemoryOperations.operation :=
                     numeral a ++ " " ++ op ++ " " ++ numeral b;
                   MemoryOperations.result := VNum (ofZ r) |} ] |};
       st := {| previousValue := None; currentOperator := None;
                waitingForOperand := false; lastOperation := None;
                justCalculated := true |} |}.
Proof.
  intros A B E.
  assert (P15 : 10 ^ 15 < 2 ^ 53) by (pose proof pow10_15_lt; lia).
  destruct (calculate_exact a b op r) as (C & Br & Ne); [lia | lia | exact E |].
  assert (Br' : Z.abs r < 10 ^ 15) by (change (10 ^ 15) with 1000000000000000; lia).
  unfold press. rewrite !keys_app, !run_app.
  rewrite (type_number_entered a Calculator.new A)
    by (right; right; right; reflexivity).
  cbn [keys map run handle].
  rewrite inputOperator_first by reflexivity.
  rewrite (type_number_entered b _ B) by (left; reflexivity).
  set (c3 := entered (digits b) _).
  assert (G3 : Display.getCurrentValue (display c3) = ofZ b).
  { unfold c3, entered, Display.getCurrentValue.
    cbn [display Display.isError Display.currentValue]. now apply toNumber_digits. }
  assert (G1 : Display.getCurrentValue (display (entered (digits a) Calculator.new))
               = ofZ a).
  { unfold entered, Display.getCurrentValue.
    cbn [display Display.isError Display.currentValue]. now apply toNumber_digits. }
  rewrite (equals_number _ c3 (ofZ a) op (ofZ r)).
  - cbv zeta. rewrite G3.
    rewrite !formatNumber_numeral
      by (rewrite ?Z.abs_eq by lia; lia).
    destruct (numeral_shape r Br') as (Nn & Sn & _).
    rewrite short_shown; [| exact Nn | now apply numeral_short | exact Sn].
    reflexivity.
  - rewrite <- G1. reflexivity.
  - reflexivity.
  - exact Ne.
  - rewrite G3. exact C.
  - apply ofZ_not_nan.
Qed.

(** An operator pressed on a pending operation that evaluates to a
    number. *)
Lemma inputOperator_number now op' c p op x :
  previousValue (st c) = Some p -> currentOperator (st c) = Some op -> op <> "" ->
  waitingForOperand (st c) = false ->
  Operations.calculate (VNum p) (VNum (Display.getCurrentValue (display c))) op
  = VNum x ->
  let operation :=
    Utils.formatNumber (VNum p) ++ " " ++ op ++ " "
    ++ Utils.formatNumber (VNum (Display.getCurrentValue (display c))) in
  inputOperator now op' c
  = {| display :=
         Display.updateExpression (Utils.formatNumber (VNum x) ++ " " ++ op')
           (Display.updateDisplay (Utils.formatNumber (VNum x)) (display c));
       memory := MemoryOperations.addToHistory now operation (VNum x) (memory c);
       st := {| previousValue := Some x; currentOperator := Some op';
                waitingForOperand := true; lastOperation := lastOperation (st c);
                justCalculated := false |} |}.
Proof.
  intros P O Ne W R operation.
  assert (T : truthy (Some op) = true) by (destruct op; [congruence | reflexivity]).
  unfold inputOperator. rewrite P, O, T, W. cbn [negb andb].
  unfold calculate. rewrite P, O, R.
  rewrite formatOperation_binary. fold operation. reflexivity.
Qed.

Lemma typed_chain a b c r1 r2 op1 op2 :
  0 <= a < 10 ^ 15 -> 0 <= b < 10 ^ 15 -> 0 <= c < 10 ^ 15 ->
  exact_result a b op1 = Some r1 ->
  exact_result r1 c op2 = Some r2 ->
  run (press_chain a op1 b op2 c) Calculator.new
  = {| display :=
         {| Display.currentValue := numeral r2;
            Display.expression :=
              (numeral r1 ++ " " ++ op2 ++ " " ++ numeral c) ++ " =";
            Display.isError := false;
            Display.displayInput := numeral r2 |};
       memory :=
         {| MemoryOperations.memory := pzero;
            MemoryOperations.history :=
              [ {| MemoryOperations.timestamp := "2024-01-01T00:00:00.000Z";
                   MemoryOperations.operation :=
                     numeral r1 ++ " " ++ op2 ++ " " ++ numeral c;
                   MemoryOperations.result := VNum (ofZ r2) |};
                {| MemoryOperations.timestamp := "2024-01-01T00:00:00.000Z";
                   MemoryOperations.operation :=
                     numeral a ++ " " ++ op1 ++ " " ++ numeral b;
                   MemoryOperations.result := VNum (ofZ r1) |} ] |};
       st := {| previousValue := None; currentOperator := None;
                waitingForOperand := false; lastOperation := None;
                justCalculated := true |} |}.
Proof.
  intros A B C E1 E2.
  assert (P15 : 10 ^ 15 < 2 ^ 53) by (pose proof pow10_15_lt; lia).
  destruct (calculate_exact a b op1 r1) as (C1 & Br1 & Ne1); [lia | lia | exact E1 |].
  assert (Br1' : Z.abs r1 < 10 ^ 15) by (change (10 ^ 15) with 1000000000000000; lia).
  destruct (calculate_exact r1 c op2 r2) as (C2 & Br2 & Ne2); [lia | lia | exact E2 |].
  assert (Br2' : Z.abs r2 < 10 ^ 15) by (change (10 ^ 15) with 1000000000000000; lia).
  unfold press_chain. rewrite !keys_app, !run_app.
  rewrite (type_number_entered a Calculator.new A)
    by (right; right; right; reflexivity).
  cbn [keys map run handle].
  rewrite (inputOperator_first _ op1 (entered (digits a) Calculator.new))
    by reflexivity.
  rewrite (type_number_entered b _ B) by (left; reflexivity).
  set (c3 := entered (digits b) _).
  assert (G1 : Display.getCurrentValue (display (entered (digits a) Calculator.new))
               = ofZ a).
  { unfold entered, Display.getCurrentValue.
    cbn [display Display.isError Display.currentValue]. now apply toNumber_digits. }
  assert (G3 : Display.getCurrentValue (display c3) = ofZ b).
  { unfold c3, entered, Display.getCurrentValue.
    cbn [display Display.isError Display.currentValue]. now apply toNumber_digits. }
  rewrite (inputOperator_number _ op2 c3 (ofZ a) op1 (ofZ r1));
    [| rewrite <- G1; reflexivity | reflexivity | exact Ne1 | reflexivity
     | rewrite G3; exact C1].
  cbv zeta. rewrite G3.
  rewrite (type_number_entered c _ C) by (left; reflexivity).
  set (c5 := entered (digits c) _).
  assert (G5 : Display.getCurrentValue (display c5) = ofZ c).
  { unfold c5, entered, Display.getCurrentValue.
    cbn [display Display.isError Display.currentValue]. now apply toNumber_digits. }
  rewrite (equals_number _ c5 (ofZ r1) op2 (ofZ r2));
    [| reflexivity | reflexivity | exact Ne2 | rewrite G5; exact C2
     | apply ofZ_not_nan].
  cbv zeta. rewrite G5. clear G5 G3. subst c5 c3.
  rewrite !formatNumber_numeral by (rewrite ?Z.abs_eq by lia; lia).
  destruct (numeral_shape r2 Br2') as (Nn & Sn & _).
  rewrite short_shown; [| exact Nn | now apply numeral_short | exact Sn].
  reflexivity.
Qed.

End TypedNumbers.

(** ** Results longer than the display *)
Section LongResults.

(** The last [k] digits of a number split off. *)
Lemma digits_split k : forall n,
  0 < n / 10 ^ Z.of_nat k ->
  exists t, digits n = digits (n / 10 ^ Z.of_nat k) ++ t /\
            length t = k /\ all_digits t = true.
Proof.
  induction k as [| k IH]; intros n H.
  - exists "". change (10 ^ Z.of_nat 0) with 1. rewrite Z.div_1_r, sapp_nil_r.
    repeat split.
  - rewrite Nat2Z.inj_succ, Z.pow_succ_r in * by lia.
    pow_pos P 10 (Z.of_nat k).
    assert (Hn : 10 <= n).
    { destruct (Z.lt_ge_cases n 10) as [L | G]; [| exact G].
      destruct (Z.lt_ge_cases n 0).
      - assert (n / (10 * 10 ^ Z.of_nat k) <= 0); [| lia].
        apply Z.div_le_upper_bound; lia.
      - rewrite Z.div_small in H by nia. lia. }
    rewrite <- Z.div_div in * by lia.
    destruct (IH (n / 10) H) as (t & E & L & A).
    exists (t ++ String (digit_char (n mod 10)) "").
    rewrite digits_step by exact Hn. rewrite E, sapp_assoc.
    repeat split.
    + rewrite slength_app, L. cbn. lia.
    + rewrite all_digits_app, A. cbn.
      rewrite (proj1 (proj2 (digit_char_props (n mod 10)
                                (Z.mod_pos_bound n 10 ltac:(lia))))).
      reflexivity.
Qed.

Lemma app_inj_length (a b c d : string) :
  a ++ b = c ++ d -> length a = length c -> a = c /\ b = d.
Proof.
  revert c. induction a as [| x a IH]; intros [| y c] E L; cbn in *; try lia.
  - auto.
  - injection E as -> E. destruct (IH c E ltac:(lia)) as [-> ->]. auto.
Qed.

Lemma join_empty_cons h t : join "" (h :: t) = h ++ join "" t.
Proof. destruct t; [cbn; now rewrite sapp_nil_r | reflexivity]. Qed.

Lemma join_comma_length h t :
  Forall (fun g => length g = 3%nat) t ->
  length (join "," (h :: t)) = (length h + 4 * List.length t)%nat.
Proof.
  revert h. induction t as [| g t IH]; intros h F.
  - cbn. lia.
  - inversion F as [| ? ? Hg Ft]; subst.
    change (join "," (h :: g :: t)) with (h ++ "," ++ join "," (g :: t)).
    rewrite slength_app. cbn [append length].
    rewrite (IH g Ft), Hg. cbn [List.length]. lia.
Qed.

(** Grouping a run of 13 to 15 digits leaves the first one to three
    digits in front of the first comma. *)
Lemma group_leading ds h t :
  all_digits ds = true -> ds = h ++ t -> (1 <= length h <= 3)%nat ->
  length t = 12%nat ->
  exists rest,
    Utils.addThousandsSeparator ds = h ++ String "," rest /\
    (15 < length (Utils.addThousandsSeparator ds))%nat.
Proof.
  intros A E Lh Lt.
  assert (N : ds <> "") by (subst ds; destruct h; cbn in *; [lia | discriminate]).
  destruct (groups_of_digits ds A N) as (h' & t' & Sp & Lh' & Ft & J & Lt').
  assert (Lds : length ds = (length h + 12)%nat) by (subst ds; rewrite slength_app; lia).
  assert (L4 : List.length t' = 4%nat).
  { rewrite Lt', Lds.
    assert (length h = 1 \/ length h = 2 \/ length h = 3)%nat as [-> | [-> | ->]] by lia;
      reflexivity. }
  pose proof (join_empty_length h' t' Ft) as JL. rewrite J, Lds, L4 in JL.
  rewrite join_empty_cons in J. rewrite E in J.
  destruct (app_inj_length h' (join "" t') h t J ltac:(lia)) as [-> _].
  pose proof (join_split "," (Utils.addThousandsSeparator ds)) as JS.
  rewrite Sp in JS. change (String "," "") with "," in JS.
  destruct t' as [| g t'']; [cbn in L4; lia|].
  exists (join "," (g :: t'')). split.
  - rewrite <- JS. reflexivity.
  - rewrite <- JS, join_comma_length, L4 by exact Ft. lia.
Qed.

Lemma includes_group prev s c :
  Ascii.eqb "," c = false ->
  includes (Utils.group_thousands prev s) c = includes s c.
Proof.
  intros H. revert prev. induction s as [| d r IH]; intros prev; [reflexivity|].
  cbn [Utils.group_thousands].
  match goal with |- context [if ?b then _ else _] => destruct b end;
    cbn [includes]; rewrite ?H, IH; reflexivity.
Qed.

Lemma all_digits_excludes s c :
  is_digit c = false -> all_digits s = true -> includes s c = false.
Proof.
  intros H. induction s as [| d r IH]; [reflexivity|]. cbn.
  destruct (is_digit d) eqn:D; [| discriminate]. cbn. intros A.
  destruct (Ascii.eqb_spec d c) as [-> | _]; [congruence | auto].
Qed.

(** [parseFloat] stops at a comma. *)
Lemma parseFloat_comma p r :
  Zpos (digits2_pos p) <= 53 ->
  parseFloat (digits (Zpos p) ++ String "," r) = canon false p.
Proof.
  intros D. unfold parseFloat.
  pose proof (trim_left_signed false (Zpos p) (String "," r) ltac:(lia)) as T.
  cbn [sign_str append] in T. rewrite T. clear T.
  destruct (digits_head (Zpos p) ltac:(lia)) as (d & t & Hd & E).
  destruct (digit_head_props d (t ++ String "," r) Hd) as (_ & SP & PI).
  unfold str_decimal_prefix.
  assert (U : unsigned_decimal (digits (Zpos p) ++ String "," r)
              = Some (Zpos p, 0, String "," r)).
  { unfold unsigned_decimal.
    rewrite span_digits_app; [| now apply digits_all | reflexivity].
    cbn [exponent_part Ascii.eqb Bool.eqb orb andb].
    destruct (digits (Zpos p)) eqn:Dg; [now destruct (digits_nonempty (Zpos p))|].
    rewrite <- Dg. cbn [length]. rewrite sapp_nil_r, digits_value_digits by lia.
    reflexivity. }
  rewrite E in *. cbn [append] in *. rewrite SP, PI, U.
  now apply ofDecimal_int.
Qed.

Lemma long_shown v d :
  v <> "" -> Display.is_sentinel v = false -> (15 < length v)%nat ->
  includes v "e" = false ->
  Display.updateDisplay v d
  = {| Display.currentValue := v; Display.expression := Display.expression d;
       Display.isError := false;
       Display.displayInput := Number_toExponential (parseFloat v) 6 |}.
Proof.
  intros N S L I. unfold Display.updateDisplay.
  destruct v as [| c r]; [congruence|]. rewrite S, I.
  apply Nat.ltb_lt in L. now rewrite L.
Qed.

Lemma long_numeral_shown n d :
  10 ^ 12 <= n < 10 ^ 15 ->
  Display.updateDisplay (numeral n) d
  = {| Display.currentValue := numeral n;
       Display.expression := Display.expression d;
       Display.isError := false;
       Display.displayInput := Number_toExponential (ofZ (n / 10 ^ 12)) 6 |} /\
  1 <= n / 10 ^ 12 < 1000.
Proof.
  intros B.
  assert (G : 1 <= n / 10 ^ 12 < 1000).
  { split; [apply Z.div_le_lower_bound; lia | apply Z.div_lt_upper_bound; lia]. }
  split; [| exact G].
  assert (Bn : Z.abs n < 10 ^ 15) by lia.
  destruct (numeral_shape n Bn) as (Nn & Sn & _).
  assert (En : numeral n = Utils.addThousandsSeparator (digits n)).
  { unfold numeral. rewrite Z.abs_eq by lia.
    replace (n <? 0) with false by (symmetry; apply Z.ltb_ge; lia).
    replace (1000 <=? n) with true by (symmetry; apply Z.leb_le; lia).
    pose proof (addThousandsSeparator_signed false n ltac:(lia)) as X.
    cbn [sign_str append] in *. now rewrite X. }
  destruct (digits_split 12 n) as (t & E & Lt & At); [change (Z.of_nat 12) with 12; lia|].
  change (Z.of_nat 12) with 12 in E.
  set (g := n / 10 ^ 12) in *.
  assert (Lh : (1 <= length (digits g) <= 3)%nat).
  { pose proof (digits_length g ltac:(lia)) as [Lo Hi].
    split.
    - destruct (digits g) eqn:Dg; [now destruct (digits_nonempty g) | cbn; lia].
    - destruct (Nat.le_gt_cases (length (digits g)) 3) as [|G3]; [assumption|].
      exfalso.
      assert (10 ^ 3 <= 10 ^ (Z.of_nat (length (digits g)) - 1))
        by (apply Z.pow_le_mono_r; lia).
      change (10 ^ 3) with 1000 in *. lia. }
  destruct (group_leading (digits n) (digits g) t) as (rest & Eg & Lg);
    auto; [apply digits_all; lia|].
  rewrite <- En in Eg, Lg.
  assert (Ie : includes (numeral n) "e" = false).
  { rewrite En. rewrite add_no_dot
      by now apply (proj2 (plain_all_digits _ (digits_all n ltac:(lia)))).
    rewrite includes_group by reflexivity.
    apply all_digits_excludes; [reflexivity | apply digits_all; lia]. }
  rewrite long_shown by assumption.
  f_equal. f_equal. rewrite Eg.
  destruct g as [| pg | pg]; try lia.
  assert (Dg : Zpos (digits2_pos pg) <= 53).
  { apply digits2_le53. change (2 ^ 53) with 9007199254740992. lia. }
  rewrite parseFloat_comma by exact Dg. symmetry. now apply ofZ_pos.
Qed.

End LongResults.

(** ** Keys of the keyboard *)
Section Keyboard.

Import Calculator.

Lemma has_digit_facts key :
  has_digit key = true ->
  key <> "" /\ key <> "." /\ Display.is_sentinel key = false.
Proof.
  intros H. repeat split.
  - intros ->. discriminate.
  - intros ->. discriminate.
  - destruct (Display.is_sentinel key) eqn:S; [| reflexivity].
    unfold Display.is_sentinel in S.
    apply orb_prop in S as [S | S]; [apply orb_prop in S as [S | S] |];
      apply String.eqb_eq in S; subst key; discriminate.
Qed.

Lemma appendDigit_replaces key d :
  key <> "" -> key <> "." ->
  Display.isError d = true \/ Display.currentValue d = "0" ->
  Display.currentValue (Display.appendDigit key d) = key.
Proof.
  intros N Nd H.
  pose proof (appendDigit_cases key d) as A. cbv zeta in A.
  assert (E0 : Display.currentValue
                 (if Display.isError d
                  then Display.setCurrentValue "0" (Display.clearError d) else d)
               = "0").
  { destruct (Display.isError d); [reflexivity|]. destruct H; congruence. }
  rewrite E0 in A.
  destruct A as [(_ & _ & ->) | [(E & _) | [([E | E] & _) | ([E | E] & _)]]];
    try congruence.
  now apply updateDisplay_value.
Qed.

Lemma inputNumber_key key c :
  has_digit key = true -> starts_number c ->
  Display.currentValue (display (inputNumber key c)) = key /\
  Display.isError (display (inputNumber key c)) = false.
Proof.
  intros K H. destruct (has_digit_facts key K) as (N & Nd & S).
  assert (F : flag_agrees (display (inputNumber key c)) ->
              Display.currentValue (display (inputNumber key c)) = key ->
              Display.currentValue (display (inputNumber key c)) = key /\
              Display.isError (display (inputNumber key c)) = false).
  { intros Fl E. split; [exact E|]. rewrite Fl, E. exact S. }
  unfold inputNumber in *.
  destruct (waitingForOperand (st c)) eqn:W.
  - apply F; cbn [with_state with_display display].
    + apply updateDisplay_flag.
    + now apply updateDisplay_value.
  - destruct (justCalculated (st c)) eqn:J.
    + apply F; cbn [with_state with_display set_justCalculated display].
      * apply appendDigit_flag, clear_flag.
      * apply appendDigit_replaces; auto.
    + assert (E : Display.isError (display c) = true \/
                  Display.currentValue (display c) = "0").
      { destruct H as [H | [H | H]]; [congruence | congruence | exact H]. }
      cbn [with_display display].
      split; [now apply appendDigit_replaces|].
      pose proof (appendDigit_cases key (display c)) as A. cbv zeta in A.
      assert (E0 : Display.currentValue
                 (if Display.isError (display c)
                  then Display.setCurrentValue "0" (Display.clearError (display c))
                  else display c) = "0").
      { destruct (Display.isError (display c)); [reflexivity|].
        destruct E; congruence. }
      rewrite E0 in A.
      destruct A as [(_ & _ & ->) | [(X & _) | [([X | X] & _) | ([X | X] & _)]]];
        try congruence.
      destruct key; [congruence|].
      cbn [Display.updateDisplay Display.isError]. exact S.
Qed.

Lemma function_key_reads_nan r d :
  Display.currentValue d = String "F" r -> Display.isError d = false ->
  Display.getCurrentValue d = NaN.
Proof.
  intros E Er. unfold Display.getCurrentValue, Utils.toNumber. rewrite Er, E.
  reflexivity.
Qed.

End Keyboard.

(** ** Texts of the formatter *)
Section FormatterTexts.

Import Calculator.

Lemma digits_head_any n :
  exists c r, digits n = String c r /\ is_digit c = true.
Proof.
  destruct (Z.lt_ge_cases n 0) as [L | G].
  - destruct n as [| p | p]; try lia.
    exists (digit_char (Zneg p mod 10)), "". split; [reflexivity|].
    apply digit_char_props. apply Z.mod_pos_bound. lia.
  - destruct (digits_head n G) as (d & r & Hd & E).
    exists (digit_char d), r. split; [exact E | now apply digit_char_props].
Qed.

Lemma digit_not_E c : is_digit c = true -> Ascii.eqb c "E" = false.
Proof.
  intros D. destruct (is_digit_char c D) as (n & Hn & ->).
  destruct (digit_cases n Hn)
    as [-> | [-> | [-> | [-> | [-> | [-> | [-> | [-> | [-> | ->]]]]]]]]];
    reflexivity.
Qed.

Lemma starts_E_app a b : a <> "" -> starts_E (a ++ b) = starts_E a.
Proof. destruct a; [congruence | reflexivity]. Qed.

Lemma starts_E_digits n b : starts_E (digits n ++ b) = false.
Proof.
  destruct (digits_head_any n) as (c & r & -> & D). cbn. now apply digit_not_E.
Qed.

Lemma starts_E_take n k b :
  (0 < k)%nat -> starts_E (take k (digits n) ++ b) = false.
Proof.
  intros H. destruct (digits_head_any n) as (c & r & -> & D).
  destruct k as [| k]; [lia|]. cbn. now apply digit_not_E.
Qed.

Lemma starts_E_sign (sg : bool) body :
  starts_E body = false -> starts_E ((if sg then "-" else "") ++ body) = false.
Proof. destruct sg; auto. Qed.

Lemma toString_not_E x : starts_E (Number_toString x) = false.
Proof.
  destruct x as [s | s | | sg m e]; cbn [Number_toString];
    try reflexivity; try (destruct s; reflexivity).
  destruct (frac_of m e) as [P Q].
  destruct (shortest_search 16 (S754_finite false m e) P Q (mag10 P Q) 1)
    as [[s n] k].
  apply starts_E_sign.
  destruct ((k <=? n) && (n <=? 21)); [apply starts_E_digits|].
  destruct ((0 <? n) && (n <=? 21)) eqn:H.
  { apply starts_E_take. apply andb_prop in H as [H _]. apply Z.ltb_lt in H. lia. }
  destruct ((-6 <? n) && (n <=? 0)); [reflexivity|].
  destruct (k =? 1); [apply starts_E_digits|].
  apply starts_E_take. lia.
Qed.

Lemma toExponential_not_E x f : starts_E (Number_toExponential x (S f)) = false.
Proof.
  destruct x as [s | s | | sg m e]; cbn [Number_toExponential];
    try reflexivity; try (destruct s; reflexivity).
  destruct (frac_of m e) as [P Q].
  match goal with |- context [if ?b then _ else _] => destruct b end;
    apply starts_E_sign; rewrite sapp_assoc; apply starts_E_take; lia.
Qed.

Lemma starts_E_add s : starts_E (Utils.addThousandsSeparator s) = starts_E s.
Proof.
  unfold Utils.addThousandsSeparator. destruct s as [| c r]; [reflexivity|].
  destruct (Ascii.eqb_spec c ".") as [-> | N].
  - cbn [split Ascii.eqb Bool.eqb]. 
    pose proof (split_nonempty "." r) as X.
    destruct (split "." r) as [| q qs]; [congruence | reflexivity].
  - destruct (split_cons_other "." c r) as (p & ps & E1 & E2).
    { now apply Ascii.eqb_neq. }
    rewrite E2, group_head_none. destruct ps; reflexivity.
Qed.

Lemma formatNumber_not_E n :
  is_nan n = false -> starts_E (Utils.formatNumber (VNum n)) = false.
Proof.
  intros N. unfold Utils.formatNumber, Utils.formatNumber_with. rewrite N.
  destruct (is_finite n); cbn [negb]; [| destruct (gtb n pzero); reflexivity].
  destruct (geb (Math_abs n) (ofDecimal false 1 15)); [apply toExponential_not_E|].
  destruct (ltb (Math_abs n) (ofDecimal false 1 (-10)) && negb (eqb n pzero));
    [apply toExponential_not_E|].
  destruct (geb (Math_abs n) (ofZ 1000)); [rewrite starts_E_add|];
    apply toString_not_E.
Qed.

Lemma percentage_ofZ k :
  Z.abs (100 * k) < 2 ^ 53 ->
  Operations.percentage (ofZ (100 * k)) = ofZ k.
Proof.
  intros B. unfold Operations.percentage.
  destruct (Z.eq_dec k 0) as [-> | N]; [reflexivity|].
  destruct (div_ofZ (100 * k) 100 B) as (_ & [(_ & E) | (Z0 & _)]);
    [reflexivity | lia | rewrite Z.mul_comm; apply Z.mod_mul; lia | | lia].
  rewrite E. f_equal. rewrite Z.mul_comm. apply Z.div_mul. lia.
Qed.

Lemma toNumber_numeral n :
  Z.abs n < 10 ^ 15 -> Utils.toNumber (numeral n) = ofZ n.
Proof.
  intros B. rewrite <- formatNumber_numeral by exact B.
  apply (roundtrip_ofZ n B).
Qed.

Lemma showAsPercentage_exact k d :
  Z.abs (100 * k) < 10 ^ 15 ->
  Display.getCurrentValue d = ofZ (100 * k) ->
  Display.currentValue (Display.showAsPercentage d) = numeral k /\
  Display.expression (Display.showAsPercentage d) = numeral (100 * k) ++ "%" /\
  Display.isError (Display.showAsPercentage d) = false.
Proof.
  intros B G. unfold Display.showAsPercentage. rewrite G.
  rewrite percentage_ofZ by (pose proof pow10_15_lt; lia).
  rewrite !formatNumber_numeral by lia.
  destruct (numeral_shape k ltac:(lia)) as (Nn & Sn & _).
  cbn [Display.updateExpression Display.currentValue Display.isError
         Display.expression].
  rewrite (updateDisplay_flag (numeral k) d).
  rewrite updateDisplay_value by exact Nn. auto.
Qed.

Lemma rev_app_app a : forall b acc,
  string_rev_app (a ++ b) acc = string_rev_app b (string_rev_app a acc).
Proof. induction a as [| c a IH]; intros b acc; [reflexivity | apply IH]. Qed.

Lemma rev_rev t : forall a b,
  string_rev_app (string_rev_app t a) b = string_rev_app a (t ++ b).
Proof.
  induction t as [| x t IH]; intros a b; [reflexivity|].
  cbn [string_rev_app]. rewrite IH. reflexivity.
Qed.

Lemma trim_right_snoc t c :
  is_space c = false -> trim_right (t ++ String c "") = t ++ String c "".
Proof.
  intros S. unfold trim_right. rewrite rev_app_app. cbn [string_rev_app trim_left].
  rewrite S. cbn [string_rev_app]. rewrite rev_rev. reflexivity.
Qed.

Lemma radix_literal_signed s p : radix_literal (sign_str s ++ digits (Zpos p)) = None.
Proof.
  destruct s; [reflexivity|]. cbn [sign_str append].
  destruct (digits_head_nonzero (Zpos p) ltac:(lia)) as (d & r & Hd & ->).
  assert (d = 1 \/ d = 2 \/ d = 3 \/ d = 4 \/ d = 5 \/ d = 6 \/ d = 7 \/ d = 8 \/ d = 9)
    as [-> | [-> | [-> | [-> | [-> | [-> | [-> | [-> | ->]]]]]]]] by lia;
    reflexivity.
Qed.

Lemma StringToNumber_signed s p :
  Zpos (digits2_pos p) <= 53 ->
  StringToNumber (sign_str s ++ digits (Zpos p)) = canon s p.
Proof.
  intros D. unfold StringToNumber.
  pose proof (trim_left_signed s (Zpos p) "" ltac:(lia)) as T.
  rewrite sapp_nil_r in T. rewrite T.
  destruct (digits_snoc (Zpos p) ltac:(lia)) as (t & d & Hd & E).
  assert (TR : trim_right (sign_str s ++ digits (Zpos p))
               = sign_str s ++ digits (Zpos p)).
  { rewrite E, <- sapp_assoc. apply trim_right_snoc.
    apply (digit_char_props d Hd). }
  rewrite TR.
  destruct (sign_str s ++ digits (Zpos p)) eqn:Ev.
  { destruct s; [discriminate|]. cbn in Ev. now destruct (digits_nonempty (Zpos p)). }
  rewrite <- Ev. rewrite radix_literal_signed, str_decimal_prefix_int by exact D.
  reflexivity.
Qed.

Lemma rem1_canon s p :
  Zpos (digits2_pos p) <= 53 -> JS.rem1 (canon s p) = S754_zero s.
Proof.
  intros D. unfold rem1, canon.
  destruct (0 <=? Zpos (digits2_pos p) - 53); [reflexivity|].
  rewrite scaled_mantissa by exact D.
  replace (- (Zpos (digits2_pos p) - 53)) with (53 - Zpos (digits2_pos p)) by lia.
  rewrite Z.mod_mul by (pow_pos_new 2 (53 - Zpos (digits2_pos p)); lia).
  reflexivity.
Qed.

End FormatterTexts.

(** ** Facts for the amended claims *)
Section AmendedClaims.

Lemma sentinel_no_digit t :
  Calculator.has_digit t = true -> Display.is_sentinel t = false.
Proof.
  intros H. unfold Display.is_sentinel.
  destruct (String.eqb_spec t "Error") as [-> | _]; [discriminate|].
  destruct (String.eqb_spec t "Infinity") as [-> | _]; [discriminate|].
  destruct (String.eqb_spec t "-Infinity") as [-> | _]; [discriminate|].
  reflexivity.
Qed.

Lemma has_digit_nonempty t : Calculator.has_digit t = true -> t <> "".
Proof. destruct t; [discriminate | discriminate]. Qed.

Lemma deleteLast_digit_remains t ch d :
  Display.isError d = false ->
  Display.currentValue d = t ++ String ch "" ->
  Calculator.has_digit t = true ->
  Display.deleteLast d
  = {| Display.currentValue := t;
       Display.expression := Display.expression d;
       Display.isError := false;
       Display.displayInput :=
         if (15 <? length t)%nat && negb (includes t "e")
         then Number_toExponential (parseFloat t) 6 else t |}.
Proof.
  intros E V H. unfold Display.deleteLast. rewrite E, V, drop_last_app_snoc.
  assert (L : (1 <? length (t ++ String ch ""))%nat = true).
  { apply Nat.ltb_lt. rewrite slength_app. cbn [length].
    destruct t; [discriminate | cbn [length]; lia]. }
  rewrite L. unfold Display.updateDisplay.
  cbn [Display.setCurrentValue Display.expression].
  destruct t as [| c0 t0]; [discriminate|].
  now rewrite (sentinel_no_digit _ H).
Qed.

(** After 3 - 8 = the display holds [-5]; [delete()] leaves the bare
    sign, which reads as [NaN]. *)
Lemma delete_after_negative_result :
  let c := Calculator.run (keys [Calculator.Digit "3"; Calculator.Operator "-";
                                 Calculator.Digit "8"; Calculator.Equals])
             Calculator.new in
  Display.currentValue (Calculator.display c) = "-5" /\
  Display.currentValue (Calculator.display (Calculator.delete c)) = "-" /\
  Display.getCurrentValue (Calculator.display (Calculator.delete c)) = NaN.
Proof. vm_compute. repeat split. Qed.





End AmendedClaims.

(** ** The properties of the specification *)

(** C1, the code at the failing input 5 ÷ 0 followed by [+]: the pending
    division fails ([Operations.calculate] returns a sentinel string).
    [equals()] in that state shows [Error] and resets the pending-operator
    state, but the operator press leaves the display at the operand [0]
    without the error flag, keeps [previousValue = 5], installs the new
    operator and waits for an operand: the failure is not surfaced. *)
Theorem C1_chained_failure_not_surfaced :
  Operations.calculate (VNum (ofZ 5)) (VNum pzero) "÷" = VStr "Infinity" /\
  Calculator.previousValue (Calculator.st five_div_zero) = Some (ofZ 5) /\
  Calculator.currentOperator (Calculator.st five_div_zero) = Some "÷" /\
  Calculator.waitingForOperand (Calculator.st five_div_zero) = false /\
  Display.getCurrentValue (Calculator.display five_div_zero) = pzero /\
  Display.currentValue
    (Calculator.display (Calculator.equals "t" five_div_zero)) = "Error" /\
  Calculator.previousValue
    (Calculator.st (Calculator.equals "t" five_div_zero)) = None /\
  Calculator.currentOperator
    (Calculator.st (Calculator.equals "t" five_div_zero)) = None /\
  Calculator.waitingForOperand
    (Calculator.st (Calculator.equals "t" five_div_zero)) = false /\
  Display.currentValue
    (Calculator.display (Calculator.inputOperator "t" "+" five_div_zero)) = "0" /\
  Display.displayInput
    (Calculator.display (Calculator.inputOperator "t" "+" five_div_zero)) = "0" /\
  Display.isError
    (Calculator.display (Calculator.inputOperator "t" "+" five_div_zero)) = false /\
  Calculator.previousValue
    (Calculator.st (Calculator.inputOperator "t" "+" five_div_zero))
    = Some (ofZ 5) /\
  Calculator.currentOperator
    (Calculator.st (Calculator.inputOperator "t" "+" five_div_zero))
    = Some "+" /\
  Calculator.waitingForOperand
    (Calculator.st (Calculator.inputOperator "t" "+" five_div_zero)) = true.
Proof. vm_compute. repeat split. Qed.

(** C2, as amended: [Operations.calculate(a, b, operator)] returns the
    [Error] sentinel whenever [a] or [b] is not of type number or is [NaN],
    for every operator.  Infinite operands are not rejected. *)
Theorem C2_calculate_rejects_nan_and_non_numbers
  (a b : value) (op : string) :
  not_a_number a = true \/ not_a_number b = true ->
  Operations.calculate a b op = VStr "Error".
Proof. apply calculate_rejects. Qed.

Lemma C2_witness :
  Operations.calculate (VNum NaN) (VNum (ofZ 1)) "+" = VStr "Error".
Proof.
  apply (C2_calculate_rejects_nan_and_non_numbers (VNum NaN) (VNum (ofZ 1)) "+").
  left. reflexivity.
Defined.

(** C2, the claim as stated fails: [Infinity] is non-finite, yet
    [calculate(Infinity, 1, '+')] is the [Infinity] sentinel and not
    [Error]. *)
Lemma C2_counterexample :
  non_finite_or_non_numeric (VNum Infinity) = true /\
  Operations.calculate (VNum Infinity) (VNum (ofZ 1)) "+" = VStr "Infinity" /\
  Operations.calculate (VNum Infinity) (VNum (ofZ 1)) "+" <> VStr "Error".
Proof. repeat split; try reflexivity. vm_compute. discriminate. Qed.




(** C4: for every number [a] and either zero as divisor,
    [calculate(a, 0, '÷')] (and its alias ['/']) is the [Error] sentinel
    when [a == 0], the [Infinity] sentinel when [a > 0] and the
    [-Infinity] sentinel when [a < 0]; [divide(a, 0)] itself answers
    ['Error'] for [a == 0] and otherwise the infinity of the sign of [a]. *)
Theorem C4_division_by_zero (a : number) (sz : bool) (op : string) :
  op = "÷" \/ op = "/" ->
  (eqb a pzero = true ->
   Operations.calculate (VNum a) (VNum (S754_zero sz)) op = VStr "Error" /\
   Operations.divide a (S754_zero sz) = VStr "Error") /\
  (gtb a pzero = true ->
   Operations.calculate (VNum a) (VNum (S754_zero sz)) op = VStr "Infinity" /\
   Operations.divide a (S754_zero sz) = VNum Infinity) /\
  (ltb a pzero = true ->
   Operations.calculate (VNum a) (VNum (S754_zero sz)) op = VStr "-Infinity" /\
   Operations.divide a (S754_zero sz) = VNum NegInfinity).
Proof.
  intros Hop.
  assert (Hnan : forall b, (eqb a pzero = b -> b = true -> is_nan a = false)).
  { intros b <-. destruct a; cbn; congruence. }
  assert (Hnan' : gtb a pzero = true \/ ltb a pzero = true -> is_nan a = false).
  { destruct a; cbn; intuition congruence. }
  split; [| split]; intros H; split.
  - rewrite (calculate_divide_zero a sz op Hop), H; eauto.
  - rewrite divide_by_zero, H. reflexivity.
  - assert (Ha : is_nan a = false) by auto.
    rewrite (calculate_divide_zero a sz op Hop Ha).
    destruct (zero_trichotomy a Ha) as [(E & G & L) | [(E & G & L) | (E & G & L)]];
      rewrite E; try rewrite G; congruence.
  - assert (Ha : is_nan a = false) by auto.
    rewrite divide_by_zero.
    destruct (zero_trichotomy a Ha) as [(E & G & L) | [(E & G & L) | (E & G & L)]];
      rewrite E; try rewrite G; congruence.
  - assert (Ha : is_nan a = false) by auto.
    rewrite (calculate_divide_zero a sz op Hop Ha).
    destruct (zero_trichotomy a Ha) as [(E & G & L) | [(E & G & L) | (E & G & L)]];
      rewrite E; try rewrite G; congruence.
  - assert (Ha : is_nan a = false) by auto.
    rewrite divide_by_zero.
    destruct (zero_trichotomy a Ha) as [(E & G & L) | [(E & G & L) | (E & G & L)]];
      rewrite E; try rewrite G; congruence.
Qed.

Lemma C4_witness :
  Operations.calculate (VNum (ofZ 0)) (VNum pzero) "÷" = VStr "Error" /\
  Operations.calculate (VNum (ofZ 5)) (VNum pzero) "÷" = VStr "Infinity" /\
  Operations.calculate (VNum (ofZ (-5))) (VNum pzero) "/" = VStr "-Infinity".
Proof.
  split; [| split].
  - apply (C4_division_by_zero (ofZ 0) false "÷" (or_introl eq_refl)).
    reflexivity.
  - apply (C4_division_by_zero (ofZ 5) false "÷" (or_introl eq_refl)).
    reflexivity.
  - apply (C4_division_by_zero (ofZ (-5)) false "/" (or_intror eq_refl)).
    reflexivity.
Defined.

(** C5, as amended: [delete()] is a no-op when [waitingForOperand] is
    true, also in an error state.  When [waitingForOperand] is false: in an
    error state it resets the display as [Display.clear()] does (display
    [0], expression cleared, error flag cleared) and leaves the state
    fields and the memory as they are, which is what [clear()] does when
    no operation is pending; with no error it removes the last character
    of the current numeral when a digit remains before it, and leaves the
    display at [0] when the numeral is a single digit. *)
Theorem C5_delete (c : Calculator.t) :
  (Calculator.waitingForOperand (Calculator.st c) = true ->
   Calculator.delete c = c) /\
  (Calculator.waitingForOperand (Calculator.st c) = false ->
   Display.isError (Calculator.display c) = true ->
   Calculator.display (Calculator.delete c)
     = Display.clear (Calculator.display c) /\
   Display.currentValue (Calculator.display (Calculator.delete c)) = "0" /\
   Display.displayInput (Calculator.display (Calculator.delete c)) = "0" /\
   Display.expression (Calculator.display (Calculator.delete c)) = "" /\
   Display.isError (Calculator.display (Calculator.delete c)) = false /\
   Calculator.st (Calculator.delete c) = Calculator.st c /\
   Calculator.memory (Calculator.delete c) = Calculator.memory c /\
   (Calculator.previousValue (Calculator.st c) = None ->
    Calculator.currentOperator (Calculator.st c) = None ->
    Calculator.lastOperation (Calculator.st c) = None ->
    Calculator.delete c = Calculator.clear c)) /\
  (Calculator.waitingForOperand (Calculator.st c) = false ->
   Display.isError (Calculator.display c) = false ->
   forall (t : string) (ch : ascii),
     Display.currentValue (Calculator.display c) = t ++ String ch "" ->
     Calculator.has_digit t = true ->
     Display.currentValue (Calculator.display (Calculator.delete c)) = t /\
     Display.displayInput (Calculator.display (Calculator.delete c))
     = (if (15 <? length t)%nat && negb (includes t "e")
        then Number_toExponential (parseFloat t) 6 else t) /\
     Display.expression (Calculator.display (Calculator.delete c))
     = Display.expression (Calculator.display c) /\
     Display.isError (Calculator.display (Calculator.delete c)) = false /\
     Calculator.st (Calculator.delete c) = Calculator.st c /\
     Calculator.memory (Calculator.delete c) = Calculator.memory c) /\
  (Calculator.waitingForOperand (Calculator.st c) = false ->
   Display.isError (Calculator.display c) = false ->
   (length (Display.currentValue (Calculator.display c)) <= 1)%nat ->
   Display.currentValue (Calculator.display (Calculator.delete c)) = "0" /\
   Display.displayInput (Calculator.display (Calculator.delete c)) = "0" /\
   Display.expression (Calculator.display (Calculator.delete c))
   = Display.expression (Calculator.display c) /\
   Display.isError (Calculator.display (Calculator.delete c)) = false /\
   Calculator.st (Calculator.delete c) = Calculator.st c /\
   Calculator.memory (Calculator.delete c) = Calculator.memory c).
Proof.
  destruct (delete_cases c) as [Hw Hn].
  split; [exact Hw|]. split; [| split].
  - intros H E. rewrite (Hn H). cbn [Calculator.with_display Calculator.display
      Calculator.st Calculator.memory].
    unfold Display.deleteLast. rewrite E. repeat split.
    intros P O L. unfold Calculator.clear, Calculator.resetState,
      Calculator.with_display, Calculator.with_state.
    cbn [Calculator.display Calculator.memory Calculator.st].
    destruct c as [d m [pv co w lo jc]].
    cbn [Calculator.display Calculator.memory Calculator.st
           Calculator.previousValue Calculator.currentOperator
           Calculator.waitingForOperand Calculator.lastOperation
           Calculator.justCalculated] in *.
    now subst.
  - intros H E t ch V D. rewrite (Hn H).
    cbn [Calculator.with_display Calculator.display Calculator.st
           Calculator.memory].
    rewrite (deleteLast_digit_remains t ch _ E V D). repeat split.
  - intros H E L. rewrite (Hn H). cbn [Calculator.with_display Calculator.display
      Calculator.st Calculator.memory].
    unfold Display.deleteLast. rewrite E.
    apply Nat.ltb_ge in L. rewrite L. repeat split.
Qed.

Lemma C5_witness :
  Display.currentValue
    (Calculator.display
       (Calculator.delete
          (Calculator.run (keys [Calculator.Digit "1"; Calculator.Digit "2"])
             Calculator.new))) = "1" /\
  Display.currentValue
    (Calculator.display
       (Calculator.delete
          (Calculator.run (keys [Calculator.Digit "7"]) Calculator.new))) = "0" /\
  Calculator.delete division_error = Calculator.clear division_error /\
  Calculator.delete error_then_plus = error_then_plus.
Proof.
  split; [| split; [| split]].
  - apply (proj1 (proj2 (proj2 (C5_delete
             (Calculator.run (keys [Calculator.Digit "1"; Calculator.Digit "2"])
                Calculator.new)))) eq_refl eq_refl "1" "2"%char eq_refl eq_refl).
  - apply (proj2 (proj2 (proj2 (C5_delete
             (Calculator.run (keys [Calculator.Digit "7"]) Calculator.new))))
             eq_refl eq_refl).
    cbn. lia.
  - apply (proj1 (proj2 (C5_delete division_error)) eq_refl eq_refl); reflexivity.
  - apply (proj1 (C5_delete error_then_plus)). reflexivity.
Defined.

(** C5, the claim as stated fails: after 5 ÷ 0 = + the display is in an
    error state, yet [delete()] does nothing (an operand is awaited) while
    [clear()] would reset the display to [0] and the state fields; and
    after 5 + F5 % the display is in an error state with no operand
    awaited, [delete()] resets the display but keeps the pending 5, which
    [clear()] drops. *)
Lemma C5_counterexample :
  Display.isError (Calculator.display error_then_plus) = true /\
  Display.currentValue (Calculator.display error_then_plus) = "Error" /\
  Calculator.delete error_then_plus = error_then_plus /\
  Display.currentValue (Calculator.display (Calculator.clear error_then_plus))
    = "0" /\
  Calculator.previousValue (Calculator.st (Calculator.delete error_then_plus))
    = Some pzero /\
  Calculator.previousValue (Calculator.st (Calculator.clear error_then_plus))
    = None /\
  Calculator.delete error_then_plus <> Calculator.clear error_then_plus /\
  Display.isError (Calculator.display percent_after_key) = true /\
  Calculator.waitingForOperand (Calculator.st percent_after_key) = false /\
  Display.currentValue (Calculator.display (Calculator.delete percent_after_key))
    = "0" /\
  Calculator.previousValue (Calculator.st (Calculator.delete percent_after_key))
    = Some (ofZ 5) /\
  Calculator.previousValue (Calculator.st (Calculator.clear percent_after_key))
    = None /\
  Calculator.delete percent_after_key <> Calculator.clear percent_after_key.
Proof. vm_compute. repeat split; discriminate. Qed.

(** C6, as amended: for every input that is not of type number or is
    [NaN], each memory mutator ([store], [add], [subtract]) leaves the
    memory store unchanged; nothing is reported.  Infinite input is
    accepted. *)
Theorem C6_mutators_ignore_nan_and_non_numbers
  (v : value) (m : MemoryOperations.t) :
  not_a_number v = true ->
  MemoryOperations.store v m = m /\
  MemoryOperations.add v m = m /\
  MemoryOperations.subtract v m = m.
Proof. apply mutators_ignore. Qed.

Lemma C6_witness :
  MemoryOperations.store (VStr "12") MemoryOperations.new = MemoryOperations.new /\
  MemoryOperations.add (VStr "12") MemoryOperations.new = MemoryOperations.new /\
  MemoryOperations.subtract (VStr "12") MemoryOperations.new = MemoryOperations.new.
Proof.
  apply (C6_mutators_ignore_nan_and_non_numbers (VStr "12") MemoryOperations.new).
  reflexivity.
Defined.

(** C6, the claim as stated fails: [Infinity] is non-finite, yet
    [store(Infinity)], [add(Infinity)] and [subtract(Infinity)] change the
    accumulator. *)
Lemma C6_counterexample :
  non_finite_or_non_numeric (VNum Infinity) = true /\
  MemoryOperations.memory (MemoryOperations.store (VNum Infinity) MemoryOperations.new)
    = Infinity /\
  MemoryOperations.memory (MemoryOperations.add (VNum Infinity) MemoryOperations.new)
    = Infinity /\
  MemoryOperations.memory (MemoryOperations.subtract (VNum Infinity) MemoryOperations.new)
    = NegInfinity /\
  MemoryOperations.memory MemoryOperations.new = pzero /\
  MemoryOperations.store (VNum Infinity) MemoryOperations.new <> MemoryOperations.new.
Proof. repeat split; try reflexivity. discriminate. Qed.

(** C7: after any sequence of [addToHistory] calls on a fresh store the
    history holds at most 100 entries, namely the 100 most recent calls,
    newest first; once 100 later calls exist the entry of an older call is
    gone; and [getHistory(limit)] returns a prefix of that newest-first
    list ([limit] entries when there are that many, 10 by default). *)
Theorem C7_history_bounded_newest_first
  (calls : list call) (c0 : call) (limit : nat) (stop : Z) :
  (List.length (MemoryOperations.history (record_all calls MemoryOperations.new))
     <= 100)%nat /\
  MemoryOperations.history (record_all calls MemoryOperations.new)
    = firstn 100 (rev (map entry_of calls)) /\
  MemoryOperations.history (record_all (c0 :: calls) MemoryOperations.new)
    = (if (100 <=? List.length calls)%nat
       then firstn 100 (rev (map entry_of calls))
       else (rev (map entry_of calls) ++ [entry_of c0])%list) /\
  MemoryOperations.getHistory_with (Z.of_nat limit)
      (record_all calls MemoryOperations.new)
    = firstn (Nat.min limit 100) (rev (map entry_of calls)) /\
  MemoryOperations.getHistory (record_all calls MemoryOperations.new)
    = firstn 10 (rev (map entry_of calls)) /\
  exists k,
    MemoryOperations.getHistory_with stop (record_all calls MemoryOperations.new)
      = firstn k (rev (map entry_of calls)).
Proof.
  repeat split.
  - rewrite record_all_new. apply firstn_le_length.
  - apply record_all_new.
  - rewrite record_all_new. cbn [map rev].
    assert (L : List.length (rev (map entry_of calls)) = List.length calls)
      by now rewrite length_rev, length_map.
    destruct (Nat.leb_spec 100 (List.length calls)).
    + rewrite firstn_app, L.
      replace (100 - List.length calls)%nat with 0%nat by lia.
      cbn [firstn]. apply app_nil_r.
    + apply firstn_all2. rewrite length_app, L. cbn. lia.
  - unfold MemoryOperations.getHistory_with.
    rewrite slice0_nat, record_all_new. apply firstn_firstn.
  - unfold MemoryOperations.getHistory, MemoryOperations.getHistory_with.
    rewrite (slice0_nat _ 10), record_all_new. apply firstn_firstn.
  - unfold MemoryOperations.getHistory_with.
    destruct (slice0_prefix
                (MemoryOperations.history (record_all calls MemoryOperations.new))
                stop) as [k ->].
    rewrite record_all_new, firstn_firstn. eauto.
Qed.

(** C8, as amended: an operator pressed while [waitingForOperand] is still
    true performs no evaluation (memory and history are untouched, the
    display text stays), replaces the pending operator by the new one,
    keeps [waitingForOperand] true, and sets [previousValue] to the number
    read back from the display; so [previousValue] keeps its value exactly
    when the display still reads back as that value, as in 5 + - where it
    stays 5. *)
Theorem C8_operator_reselection (now op : string) (c : Calculator.t) :
  Calculator.waitingForOperand (Calculator.st c) = true ->
  Calculator.previousValue (Calculator.st (Calculator.inputOperator now op c))
    = Some (Display.getCurrentValue (Calculator.display c)) /\
  Calculator.currentOperator (Calculator.st (Calculator.inputOperator now op c))
    = Some op /\
  Calculator.waitingForOperand (Calculator.st (Calculator.inputOperator now op c))
    = true /\
  Calculator.memory (Calculator.inputOperator now op c) = Calculator.memory c /\
  Display.currentValue (Calculator.display (Calculator.inputOperator now op c))
    = Display.currentValue (Calculator.display c) /\
  (Calculator.previousValue (Calculator.st c)
     = Some (Display.getCurrentValue (Calculator.display c)) ->
   Calculator.previousValue (Calculator.st (Calculator.inputOperator now op c))
     = Calculator.previousValue (Calculator.st c)) /\
  Calculator.previousValue (Calculator.st five_plus) = Some (ofZ 5) /\
  Calculator.previousValue
    (Calculator.st (Calculator.inputOperator now "-" five_plus)) = Some (ofZ 5) /\
  Calculator.currentOperator
    (Calculator.st (Calculator.inputOperator now "-" five_plus)) = Some "-".
Proof.
  intros H.
  destruct (inputOperator_waiting now op c H) as (Hs & Hm & Hd & _).
  rewrite Hs. cbn [Calculator.previousValue Calculator.currentOperator
                     Calculator.waitingForOperand].
  destruct (inputOperator_waiting now "-" five_plus eq_refl) as (-> & _).
  repeat split; auto.
Qed.

Lemma C8_witness :
  Calculator.previousValue
    (Calculator.st (Calculator.inputOperator "t" "×" five_plus))
  = Some (Display.getCurrentValue (Calculator.display five_plus)).
Proof.
  apply (C8_operator_reselection "t" "×" five_plus). reflexivity.
Defined.

(** C8, the claim as stated fails: after 1 ÷ 3 + an operator is pending
    and no second operand has been entered, yet pressing [-] changes
    [previousValue] from 0.333333333333333 to 0.3333333333, the number the
    display shows. *)
Lemma C8_counterexample :
  Calculator.waitingForOperand (Calculator.st third_then_plus) = true /\
  Calculator.currentOperator (Calculator.st third_then_plus) = Some "+" /\
  Calculator.previousValue (Calculator.st third_then_plus)
    = Some (parseFloat "0.333333333333333") /\
  Calculator.previousValue
    (Calculator.st (Calculator.inputOperator "t" "-" third_then_plus))
    = Some (parseFloat "0.3333333333") /\
  Calculator.previousValue
    (Calculator.st (Calculator.inputOperator "t" "-" third_then_plus))
    <> Calculator.previousValue (Calculator.st third_then_plus).
Proof. vm_compute. repeat split. discriminate. Qed.




(** C10: in every reachable state whose display holds [Error], [Infinity]
    or [-Infinity] the error flag is set and [Display.getCurrentValue()]
    returns the number 0; so an operator pressed then (with no operand
    pending, or while one is awaited) takes 0 as [previousValue], and an
    evaluation then uses 0 as its second operand. *)
Theorem C10_error_display_reads_zero
  (now op : string) (c : Calculator.t) :
  reachable c ->
  Display.is_sentinel (Display.currentValue (Calculator.display c)) = true ->
  Display.isError (Calculator.display c) = true /\
  Display.getCurrentValue (Calculator.display c) = pzero /\
  (Calculator.previousValue (Calculator.st c) = None \/
   Calculator.waitingForOperand (Calculator.st c) = true ->
   Calculator.previousValue (Calculator.st (Calculator.inputOperator now op c))
     = Some pzero) /\
  (forall p o,
     Calculator.previousValue (Calculator.st c) = Some p ->
     Calculator.currentOperator (Calculator.st c) = Some o ->
     snd (Calculator.calculate now c)
       = match Operations.calculate (VNum p) (VNum pzero) o with
         | VNum r => Some r
         | _ => None
         end).
Proof.
  intros Hr Hs.
  assert (He : Display.isError (Calculator.display c) = true).
  { rewrite (reachable_flag c Hr). exact Hs. }
  assert (H0 := getCurrentValue_error _ He).
  repeat split; auto.
  - intros [Hp | Hw].
    + unfold Calculator.inputOperator. rewrite Hp. cbn. now rewrite H0.
    + destruct (inputOperator_waiting now op c Hw) as (-> & _). cbn.
      now rewrite H0.
  - intros p o Hp Ho. unfold Calculator.calculate. rewrite Hp, Ho, H0.
    reflexivity.
Qed.

Lemma C10_witness :
  Display.getCurrentValue
    (Calculator.display
       (Calculator.run
          (keys [Calculator.Digit "5"; Calculator.Operator "÷";
                 Calculator.Digit "0"; Calculator.Equals])
          Calculator.new)) = pzero.
Proof.
  apply (C10_error_display_reads_zero "t" "+"
           (Calculator.run
              (keys [Calculator.Digit "5"; Calculator.Operator "÷";
                     Calculator.Digit "0"; Calculator.Equals])
              Calculator.new)).
  - apply run_reachable. constructor.
  - reflexivity.
Defined.

(** ** Further properties of the code *)

(** X1: [removeThousandsSeparator] undoes [addThousandsSeparator] on every
    text that holds no comma, so [toNumber] reads a text with separators as
    [parseFloat] reads the text without them. *)
Theorem X1_separator_round_trip (s : string) :
  includes s "," = false ->
  Utils.removeThousandsSeparator (Utils.addThousandsSeparator s) = s /\
  Utils.toNumber (Utils.addThousandsSeparator s) = parseFloat s.
Proof.
  intros H. unfold Utils.toNumber. rewrite remove_add, (remove_plain s H).
  split; reflexivity.
Qed.

Lemma X1_witness :
  Utils.removeThousandsSeparator (Utils.addThousandsSeparator "1234567.25")
  = "1234567.25" /\
  Utils.toNumber (Utils.addThousandsSeparator "1234567.25")
  = parseFloat "1234567.25".
Proof. apply (X1_separator_round_trip "1234567.25"). reflexivity. Defined.

(** X2: [addThousandsSeparator] changes the text before the first decimal
    point only: what follows the point is kept as it is, and a leading
    minus sign stays in front with no comma after it. *)
Theorem X2_separators_integer_part_only (ip fp : string) :
  includes ip "." = false ->
  Utils.addThousandsSeparator (ip ++ "." ++ fp)
  = Utils.addThousandsSeparator ip ++ "." ++ fp /\
  Utils.addThousandsSeparator ("-" ++ ip ++ "." ++ fp)
  = "-" ++ Utils.addThousandsSeparator ip ++ "." ++ fp.
Proof.
  intros H. split; [now apply add_fraction|].
  rewrite add_minus. now rewrite add_fraction.
Qed.

Lemma X2_witness :
  Utils.addThousandsSeparator ("1234567" ++ "." ++ "1234567")
  = Utils.addThousandsSeparator "1234567" ++ "." ++ "1234567" /\
  Utils.addThousandsSeparator ("-" ++ "1234567" ++ "." ++ "1234567")
  = "-" ++ Utils.addThousandsSeparator "1234567" ++ "." ++ "1234567".
Proof. apply (X2_separators_integer_part_only "1234567" "1234567"). reflexivity. Defined.

(** X3: for a non-empty run of decimal digits, [addThousandsSeparator]
    puts the commas so that the first group has one to three digits and
    every later group exactly three; the groups put together are the
    digits given, and there are [(length - 1) / 3] commas. *)
Theorem X3_groups_of_three (ds : string) :
  all_digits ds = true -> ds <> "" ->
  exists h t,
    split "," (Utils.addThousandsSeparator ds) = h :: t /\
    (1 <= length h <= 3)%nat /\
    Forall (fun g => length g = 3%nat) t /\
    join "" (h :: t) = ds /\
    List.length t = ((length ds - 1) / 3)%nat.
Proof. apply groups_of_digits. Qed.

Lemma X3_witness :
  exists h t,
    split "," (Utils.addThousandsSeparator "1234567") = h :: t /\
    (1 <= length h <= 3)%nat /\
    Forall (fun g => length g = 3%nat) t /\
    join "" (h :: t) = "1234567" /\
    List.length t = ((length "1234567" - 1) / 3)%nat.
Proof.
  apply (X3_groups_of_three "1234567"); [reflexivity | discriminate].
Defined.

(** X5: [calculate] does not depend on the order of the operands of an
    addition or a multiplication, whatever the two values are (numbers,
    [NaN], infinities or values of another type). *)
Theorem X5_calculate_commutes (a b : value) :
  Operations.calculate a b "+" = Operations.calculate b a "+" /\
  Operations.calculate a b "×" = Operations.calculate b a "×" /\
  Operations.calculate a b "*" = Operations.calculate b a "*".
Proof.
  split; [| split].
  - apply (calculate_comm_with JS.add); [apply JS_add_comm | reflexivity].
  - apply (calculate_comm_with JS.mul); [apply JS_mul_comm | reflexivity].
  - apply (calculate_comm_with JS.mul); [apply JS_mul_comm | reflexivity].
Qed.

(** X6: whatever its arguments, [calculate] returns a value that
    [isValidResult] accepts: one of the three sentinel strings or a number
    that is not [NaN].  No [NaN] leaves the engine. *)
Theorem X6_calculate_result_is_valid (a b : value) (op : string) :
  Operations.isValidResult (Operations.calculate a b op) = true /\
  Operations.calculate a b op <> VNum NaN.
Proof.
  pose proof (calculate_valid a b op) as V.
  split; [exact V|]. intros E. rewrite E in V. discriminate.
Qed.

(** X7: [calculate] evaluates exactly the operators that [isOperator]
    accepts and answers [Error] for any other; for an accepted operator
    [normalizeOperator] is idempotent, yields an accepted operator and
    does not change the result of [calculate]. *)
Theorem X7_operator_table (a b : value) (op : string) :
  (Utils.isOperator op = false -> Operations.calculate a b op = VStr "Error") /\
  (Utils.isOperator op = true ->
   Utils.isOperator (Utils.normalizeOperator op) = true /\
   Utils.normalizeOperator (Utils.normalizeOperator op) = Utils.normalizeOperator op /\
   Operations.calculate a b (Utils.normalizeOperator op)
   = Operations.calculate a b op).
Proof.
  split.
  - unfold Utils.isOperator. cbn [existsb]. intros H.
    repeat (apply orb_false_iff in H as [? H]).
    unfold Operations.calculate.
    destruct a as [x| | | |], b as [y| | | |]; try reflexivity.
    destruct (is_nan x || is_nan y); [reflexivity|].
    repeat match goal with E : String.eqb op _ = false |- _ => rewrite E; clear E end.
    reflexivity.
  - unfold Utils.isOperator. cbn [existsb]. intros H.
    repeat (apply orb_true_iff in H as [H | H]); try discriminate;
      apply String.eqb_eq in H; subst op; repeat split.
Qed.

Lemma X7_witness :
  Operations.calculate (VNum (ofZ 6)) (VNum (ofZ 7)) "^" = VStr "Error" /\
  Operations.calculate (VNum (ofZ 6)) (VNum (ofZ 7)) (Utils.normalizeOperator "*")
  = Operations.calculate (VNum (ofZ 6)) (VNum (ofZ 7)) "*".
Proof.
  split.
  - exact (proj1 (X7_operator_table (VNum (ofZ 6)) (VNum (ofZ 7)) "^") eq_refl).
  - exact (proj2 (proj2 (proj2 (X7_operator_table (VNum (ofZ 6)) (VNum (ofZ 7)) "*")
                           eq_refl))).
Defined.

(** X8: [sqrt] answers [Error] exactly for an argument below zero and
    [reciprocal] exactly for a zero; for every other argument that is not
    [NaN] each returns a number that is not [NaN].  A [NaN] argument comes
    back as the number [NaN], which [isValidResult] refuses. *)
Theorem X8_sqrt_reciprocal_absorb_failures (v : number) :
  (Operations.sqrt v = VStr "Error" <-> ltb v pzero = true) /\
  (Operations.reciprocal v = VStr "Error" <-> eqb v pzero = true) /\
  (is_nan v = false ->
   Operations.isValidResult (Operations.sqrt v) = true /\
   Operations.isValidResult (Operations.reciprocal v) = true) /\
  (is_nan v = true ->
   Operations.sqrt v = VNum NaN /\ Operations.reciprocal v = VNum NaN /\
   Operations.isValidResult (Operations.sqrt v) = false /\
   Operations.isValidResult (Operations.reciprocal v) = false).
Proof.
  unfold Operations.sqrt, Operations.reciprocal.
  split; [| split; [| split]].
  - destruct (ltb v pzero); split; congruence.
  - destruct (eqb v pzero); split; congruence.
  - intros N. split.
    + destruct (ltb v pzero) eqn:L; [reflexivity|].
      cbn [Operations.isValidResult]. now rewrite sqrt_not_nan.
    + destruct (eqb v pzero) eqn:E; [reflexivity|].
      cbn [Operations.isValidResult]. now rewrite div_not_nan.
  - destruct v; try discriminate. intros _. repeat split.
Qed.

Lemma X8_witness :
  Operations.isValidResult (Operations.sqrt (ofZ 2)) = true /\
  Operations.isValidResult (Operations.reciprocal (ofZ 3)) = true.
Proof.
  split.
  - exact (proj1 (proj1 (proj2 (proj2 (X8_sqrt_reciprocal_absorb_failures (ofZ 2))))
                    eq_refl)).
  - exact (proj2 (proj1 (proj2 (proj2 (X8_sqrt_reciprocal_absorb_failures (ofZ 3))))
                    eq_refl)).
Defined.

(** X10: [getHistory(limit)] returns a prefix of the history, which is
    kept newest first: its first [limit] entries for a limit that is not
    negative, entry by entry the same as the history, and all entries but
    the [k] oldest for a negative limit [-k].  The entry that
    [addToHistory] has just recorded comes first, followed by what
    [getHistory] returned before for one entry less.  After
    [clearHistory()] every limit returns nothing, and the accumulator is
    kept. *)
Theorem X10_getHistory_limits
  (m : MemoryOperations.t) (k : nat) (now op : string) (res : value)
  (limit : Z) :
  (exists rest,
     MemoryOperations.history m
     = (MemoryOperations.getHistory_with limit m ++ rest)%list) /\
  MemoryOperations.getHistory_with (Z.of_nat k) m
  = firstn k (MemoryOperations.history m) /\
  (forall i, (i < k)%nat ->
     nth_error (MemoryOperations.getHistory_with (Z.of_nat k) m) i
     = nth_error (MemoryOperations.history m) i) /\
  ((0 < k)%nat ->
   MemoryOperations.getHistory_with (- Z.of_nat k) m
   = firstn (List.length (MemoryOperations.history m) - k)
       (MemoryOperations.history m)) /\
  ((k < 100)%nat ->
   MemoryOperations.getHistory_with (Z.of_nat (S k))
     (MemoryOperations.addToHistory now op res m)
   = {| MemoryOperations.timestamp := now;
        MemoryOperations.operation := op;
        MemoryOperations.result := res |}
       :: MemoryOperations.getHistory_with (Z.of_nat k) m) /\
  MemoryOperations.getHistory_with limit (MemoryOperations.clearHistory m) = [] /\
  MemoryOperations.memory (MemoryOperations.clearHistory m)
  = MemoryOperations.memory m.
Proof.
  unfold MemoryOperations.getHistory_with.
  split; [| split; [| split; [| split; [| split; [| split]]]]].
  - destruct (slice0_prefix (MemoryOperations.history m) limit) as [j ->].
    exists (skipn j (MemoryOperations.history m)). symmetry.
    apply firstn_skipn.
  - apply slice0_nat.
  - intros i H. rewrite slice0_nat, nth_error_firstn.
    apply Nat.ltb_lt in H. now rewrite H.
  - apply slice0_negative.
  - intros H. rewrite !slice0_nat, addToHistory_history.
    rewrite firstn_firstn. replace (Nat.min (S k) 100) with (S k) by lia.
    reflexivity.
  - cbn [MemoryOperations.clearHistory MemoryOperations.history].
    destruct (slice0_prefix (@nil MemoryOperations.entry) limit) as [j ->].
    now destruct j.
  - reflexivity.
Qed.

(** X11: the calculator never changes the accumulator of its memory
    store.  In every state that a run of events reaches the accumulator
    is 0 ([hasValue()] is false), the history holds at most 100 entries,
    and every recorded result is a sentinel string or a number that is not
    [NaN]. *)
Theorem X11_reachable_memory_store (c : Calculator.t) :
  reachable c ->
  MemoryOperations.recall (Calculator.memory c) = pzero /\
  MemoryOperations.hasValue (Calculator.memory c) = false /\
  (List.length (MemoryOperations.history (Calculator.memory c)) <= 100)%nat /\
  Forall (fun e => Operations.isValidResult (MemoryOperations.result e) = true)
    (MemoryOperations.history (Calculator.memory c)).
Proof.
  intros R. destruct (reachable_memory c R) as (M & L & F).
  unfold MemoryOperations.recall, MemoryOperations.hasValue. rewrite M.
  repeat split; auto.
Qed.

Lemma X11_witness :
  MemoryOperations.recall (Calculator.memory five_div_zero) = pzero /\
  MemoryOperations.hasValue (Calculator.memory five_div_zero) = false /\
  (List.length (MemoryOperations.history (Calculator.memory five_div_zero))
   <= 100)%nat /\
  Forall (fun e => Operations.isValidResult (MemoryOperations.result e) = true)
    (MemoryOperations.history (Calculator.memory five_div_zero)).
Proof.
  apply (X11_reachable_memory_store five_div_zero).
  apply run_reachable. constructor.
Defined.

(** X12: a second press of the decimal point changes nothing:
    [inputDecimal()] twice leaves the calculator as [inputDecimal()]
    once. *)
Theorem X12_inputDecimal_idempotent (c : Calculator.t) :
  Calculator.inputDecimal (Calculator.inputDecimal c) = Calculator.inputDecimal c.
Proof. apply inputDecimal_twice. Qed.

(** X13: whatever digits and decimal points are entered with
    [appendDigit] into a fresh display, the text never grows beyond 15
    characters and never holds a second decimal point; on a display whose
    text has 15 characters or more and that shows no error, [appendDigit]
    changes nothing. *)
Theorem X13_typed_numeral_bounds
  (ks : list string) (digit : string) (d : Display.t) :
  forallb is_key ks = true ->
  (length (Display.currentValue (type_keys ks Display.new)) <= 15)%nat /\
  (count_char "." (Display.currentValue (type_keys ks Display.new)) <= 1)%nat /\
  (Display.isError d = false ->
   (15 <= length (Display.currentValue d))%nat ->
   Display.appendDigit digit d = d).
Proof.
  intros K.
  destruct (type_keys_typed ks Display.new K) as (L & C); [split; cbn; lia|].
  split; [exact L | split; [exact C|]].
  apply appendDigit_full.
Qed.

Lemma X13_witness :
  (length
     (Display.currentValue
        (type_keys ["1"; "."; "5"; "."; "2"] Display.new)) <= 15)%nat /\
  (count_char "."
     (Display.currentValue
        (type_keys ["1"; "."; "5"; "."; "2"] Display.new)) <= 1)%nat.
Proof.
  split.
  - exact (proj1 (X13_typed_numeral_bounds ["1"; "."; "5"; "."; "2"] "1"
                    Display.new eq_refl)).
  - exact (proj1 (proj2 (X13_typed_numeral_bounds ["1"; "."; "5"; "."; "2"] "1"
                           Display.new eq_refl))).
Defined.

(** X14: a digit starts a new number, that is, the display holds just
    that digit afterwards, whenever an operand is awaited, a result has
    just been calculated, an error is showing or the display reads [0];
    so it does after every operator press and after every [equals()] that
    found a pending operation, whether that succeeded or failed. *)
Theorem X14_digit_starts_new_number
  (now op digit : string) (c : Calculator.t) :
  is_digit_key digit = true ->
  (Calculator.waitingForOperand (Calculator.st c) = true \/
   Calculator.justCalculated (Calculator.st c) = true \/
   Display.isError (Calculator.display c) = true \/
   Display.currentValue (Calculator.display c) = "0" ->
   Display.currentValue (Calculator.display (Calculator.inputNumber digit c))
   = digit) /\
  Display.currentValue
    (Calculator.display
       (Calculator.inputNumber digit (Calculator.inputOperator now op c)))
  = digit /\
  (Calculator.previousValue (Calculator.st c) <> None ->
   Calculator.truthy (Calculator.currentOperator (Calculator.st c)) = true ->
   Display.currentValue
     (Calculator.display
        (Calculator.inputNumber digit (Calculator.equals now c)))
   = digit).
Proof.
  intros K. split; [| split].
  - intros H. now apply inputNumber_replaces.
  - apply inputNumber_replaces; [exact K|]. left.
    apply inputOperator_sets_waiting.
  - intros P T. destruct (equals_then_digit now c P T) as (_ & [J | E]);
      apply inputNumber_replaces; auto.
Qed.

Lemma X14_witness :
  Display.currentValue
    (Calculator.display
       (Calculator.inputNumber "7" (Calculator.equals "t" five_div_zero)))
  = "7".
Proof.
  apply (proj2 (proj2 (X14_digit_starts_new_number "t" "+" "7" five_div_zero
                         eq_refl)));
    [discriminate | reflexivity].
Defined.

(** X15: [clear()] leaves the display as the constructor does, resets
    [previousValue], [currentOperator], [waitingForOperand] and
    [lastOperation], keeps the memory store, and is idempotent; it keeps
    [justCalculated] too, so that after a result, [clear()], the decimal
    point and the digit 5 the display reads [5], where it reads [0.5] when
    no result had been showing. *)
Theorem X15_clear (c : Calculator.t) :
  Calculator.display (Calculator.clear c) = Display.new /\
  Calculator.memory (Calculator.clear c) = Calculator.memory c /\
  Calculator.previousValue (Calculator.st (Calculator.clear c)) = None /\
  Calculator.currentOperator (Calculator.st (Calculator.clear c)) = None /\
  Calculator.waitingForOperand (Calculator.st (Calculator.clear c)) = false /\
  Calculator.lastOperation (Calculator.st (Calculator.clear c)) = None /\
  Calculator.justCalculated (Calculator.st (Calculator.clear c))
  = Calculator.justCalculated (Calculator.st c) /\
  Calculator.clear (Calculator.clear c) = Calculator.clear c /\
  Display.currentValue
    (Calculator.display
       (Calculator.inputNumber "5"
          (Calculator.inputDecimal (Calculator.clear c))))
  = if Calculator.justCalculated (Calculator.st c) then "5" else "0.5".
Proof.
  repeat split. destruct c as [d m [p o w l j]]. destruct j; reflexivity.
Qed.

(** X16: [delete()] undoes a keystroke.  While a numeral of fewer than 15
    characters is being entered (no operand awaited, no result or error
    showing), a digit followed by [delete()], or a first decimal point
    followed by [delete()], leaves the text of the display and the state
    fields as they were. *)
Theorem X16_delete_undoes_keystroke (k : string) (c : Calculator.t) :
  Calculator.waitingForOperand (Calculator.st c) = false ->
  Calculator.justCalculated (Calculator.st c) = false ->
  Display.isError (Calculator.display c) = false ->
  Display.currentValue (Calculator.display c) <> "" ->
  (length (Display.currentValue (Calculator.display c)) < 15)%nat ->
  (is_digit_key k = true ->
   Display.currentValue
     (Calculator.display (Calculator.delete (Calculator.inputNumber k c)))
   = Display.currentValue (Calculator.display c) /\
   Calculator.st (Calculator.delete (Calculator.inputNumber k c))
   = Calculator.st c) /\
  (Display.hasDecimal (Calculator.display c) = false ->
   Display.currentValue
     (Calculator.display (Calculator.delete (Calculator.inputDecimal c)))
   = Display.currentValue (Calculator.display c) /\
   Calculator.st (Calculator.delete (Calculator.inputDecimal c))
   = Calculator.st c).
Proof.
  intros W J E N L. split.
  - intros K. destruct (is_digit_key_inv k K) as (ch & -> & D & Nd & _).
    unfold Calculator.inputNumber, Calculator.delete. rewrite W, J.
    cbn [Calculator.with_display Calculator.st Calculator.display]. rewrite W.
    cbn [Calculator.with_display Calculator.st Calculator.display].
    split; [| reflexivity].
    apply keystroke_undone; auto.
    + cbn. now rewrite D.
    + congruence.
  - intros H. unfold Calculator.inputDecimal, Calculator.delete. rewrite W, H.
    cbn [Calculator.with_display Calculator.st Calculator.display]. rewrite W.
    cbn [Calculator.with_display Calculator.st Calculator.display].
    split; [| reflexivity].
    apply keystroke_undone; auto.
Qed.

Lemma X16_witness :
  Display.currentValue
    (Calculator.display
       (Calculator.delete
          (Calculator.inputNumber "3"
             (Calculator.run
                (keys [Calculator.Digit "1"; Calculator.Digit "2"])
                Calculator.new))))
  = "12".
Proof.
  apply (X16_delete_undoes_keystroke "3"
           (Calculator.run (keys [Calculator.Digit "1"; Calculator.Digit "2"])
              Calculator.new));
    try reflexivity; [discriminate | cbn; lia].
Defined.

(** X4: [formatNumber] answers ["Error"] exactly for a value that is not
    of type number or is [NaN]; for every other number, finite or not, the
    text it returns is not ["Error"]. *)
Theorem X4_formatNumber_error (v : value) :
  Utils.formatNumber v = "Error" <-> not_a_number v = true.
Proof.
  split.
  - intros E. destruct v as [n | | | |]; try reflexivity.
    cbn [not_a_number]. destruct (is_nan n) eqn:N; [reflexivity|].
    pose proof (formatNumber_not_E n N) as S. rewrite E in S. discriminate.
  - destruct v as [n | | | |]; try reflexivity. cbn [not_a_number].
    intros N. unfold Utils.formatNumber, Utils.formatNumber_with. now rewrite N.
Qed.

(** X9: [fixPrecision] returns every integer of magnitude up to 295147
    unchanged, and [limitDecimals] every integer of magnitude up to
    922337203: there the scaled value is still exact in double arithmetic.
    Beyond that range [fixPrecision] can move an integer: 295149 becomes
    295148.99999999994. *)
Theorem X9_fixPrecision_exact_on_small_integers (n : Z) :
  (Z.abs n <= 295147 -> Operations.fixPrecision (ofZ n) = ofZ n) /\
  (Z.abs n <= 922337203 -> Utils.limitDecimals (ofZ n) = ofZ n) /\
  Operations.fixPrecision (ofZ 295149) = parseFloat "295148.99999999994" /\
  Operations.fixPrecision (ofZ 295149) <> ofZ 295149.
Proof.
  split; [apply fixPrecision_ofZ|].
  split; [| vm_compute; split; [reflexivity | discriminate]].
  intros H. unfold Utils.limitDecimals, Utils.limitDecimals_with.
  assert (B : Z.abs n < 2 ^ 53) by (change (2 ^ 53) with 9007199254740992; lia).
  destruct (ofZ_cases n B) as [(_ & ->) | (s & p & E & -> & D)].
  - vm_compute. reflexivity.
  - apply (places_exact 10 s p); [lia|].
    assert (Zpos p <= 922337203) by (subst n; destruct s; cbn [signed Z.abs] in H; lia).
    change (5 ^ Z.of_nat 10) with 9765625.
    change (2 ^ 53) with 9007199254740992. lia.
Qed.

Lemma X9_witness :
  Operations.fixPrecision (ofZ (-1024)) = ofZ (-1024) /\
  Utils.limitDecimals (ofZ 123456789) = ofZ 123456789.
Proof.
  split.
  - apply (proj1 (X9_fixPrecision_exact_on_small_integers (-1024))).
    vm_compute. discriminate.
  - apply (proj1 (proj2 (X9_fixPrecision_exact_on_small_integers 123456789))).
    vm_compute. discriminate.
Defined.

(** X21: on integer operands below 2^53 in magnitude, [calculate] returns
    the exact integer sum, difference or product whenever that result has
    magnitude at most 295147, and the exact quotient whenever the divisor
    is not zero, divides the dividend, and the quotient has magnitude at
    most 295147. *)
Theorem X21_integer_arithmetic_is_exact (a b : Z) :
  Z.abs a < 2 ^ 53 -> Z.abs b < 2 ^ 53 ->
  (Z.abs (a + b) <= 295147 ->
   Operations.calculate (VNum (ofZ a)) (VNum (ofZ b)) "+" = VNum (ofZ (a + b))) /\
  (Z.abs (a - b) <= 295147 ->
   Operations.calculate (VNum (ofZ a)) (VNum (ofZ b)) "-" = VNum (ofZ (a - b))) /\
  (Z.abs (a * b) <= 295147 ->
   Operations.calculate (VNum (ofZ a)) (VNum (ofZ b)) "×" = VNum (ofZ (a * b))) /\
  (b <> 0 -> a mod b = 0 -> Z.abs (a / b) <= 295147 ->
   Operations.calculate (VNum (ofZ a)) (VNum (ofZ b)) "÷" = VNum (ofZ (a / b))).
Proof. apply calculate_integers. Qed.

Lemma X21_witness :
  Operations.calculate (VNum (ofZ 12)) (VNum (ofZ (-4))) "+" = VNum (ofZ (12 + -4)) /\
  Operations.calculate (VNum (ofZ 12)) (VNum (ofZ (-4))) "÷" = VNum (ofZ (12 / -4)).
Proof.
  split.
  - apply (X21_integer_arithmetic_is_exact 12 (-4)); vm_compute;
      first [reflexivity | discriminate].
  - apply (X21_integer_arithmetic_is_exact 12 (-4)); vm_compute;
      first [reflexivity | discriminate].
Defined.

(** X23: a text that [isValidNumber] accepts is read by [toNumber] as a
    number that is not [NaN]; the text [formatNumber] writes for an integer
    below 10^15 in magnitude is accepted; the empty text and ["Error"] are
    refused, ["Infinity"] is accepted; ["12abc"] is refused although
    [toNumber] reads it as 12; a value that is not a string is refused. *)
Theorem X23_isValidNumber (n : Z) (s : string) :
  (Utils.isValidNumber (VStr s) = true -> is_nan (Utils.toNumber s) = false) /\
  (Z.abs n < 10 ^ 15 ->
   Utils.isValidNumber (VStr (Utils.formatNumber (VNum (ofZ n)))) = true) /\
  Utils.isValidNumber (VStr "") = false /\
  Utils.isValidNumber (VStr "Error") = false /\
  Utils.isValidNumber (VStr "Infinity") = true /\
  Utils.isValidNumber (VStr "12abc") = false /\
  Utils.toNumber "12abc" = ofZ 12 /\
  Utils.isValidNumber (VNum (ofZ 12)) = false.
Proof.
  split; [| split; [| vm_compute; repeat split]].
  - unfold Utils.isValidNumber, Utils.toNumber, isNaN. cbn [ToNumber].
    intros H. apply andb_prop in H as [_ H]. now apply negb_true_iff in H.
  - intros B. rewrite formatNumber_numeral by exact B.
    unfold Utils.isValidNumber.
    destruct (numeral_shape n B) as (_ & _ & R). rewrite R.
    unfold isNaN. cbn [ToNumber].
    destruct n as [| p | p]; [reflexivity | |].
    + assert (D : Zpos (digits2_pos p) <= 53)
        by (apply digits2_le53; pose proof pow10_15_lt; cbn in B; lia).
      change (Z.abs (Zpos p)) with (Zpos p). change (Zpos p <? 0) with false.
      rewrite StringToNumber_signed, parseFloat_int by exact D. reflexivity.
    + assert (D : Zpos (digits2_pos p) <= 53)
        by (apply digits2_le53; pose proof pow10_15_lt; cbn in B; lia).
      change (Z.abs (Zneg p)) with (Zpos p). change (Zneg p <? 0) with true.
      rewrite StringToNumber_signed, parseFloat_int by exact D. reflexivity.
Qed.

Lemma X23_witness :
  is_nan (Utils.toNumber "1,234.5") = false /\
  Utils.isValidNumber (VStr (Utils.formatNumber (VNum (ofZ (-1234567))))) = true.
Proof.
  split.
  - apply (proj1 (X23_isValidNumber 0 "1,234.5")). vm_compute. reflexivity.
  - apply (proj1 (proj2 (X23_isValidNumber (-1234567) ""))). vm_compute. reflexivity.
Defined.

(** X24: [hasDecimals] is false for every integer below 2^53 in
    magnitude; it is true for [NaN] and for both infinities, whose
    remainder is [NaN], and for numbers with a fractional part such as 2.5
    and -0.001. *)
Theorem X24_hasDecimals (n : Z) :
  (Z.abs n < 2 ^ 53 -> Utils.hasDecimals (ofZ n) = false) /\
  Utils.hasDecimals NaN = true /\
  Utils.hasDecimals Infinity = true /\
  Utils.hasDecimals NegInfinity = true /\
  Utils.hasDecimals (parseFloat "2.5") = true /\
  Utils.hasDecimals (parseFloat "-0.001") = true.
Proof.
  split; [| vm_compute; repeat split].
  intros B. unfold Utils.hasDecimals.
  destruct (ofZ_cases n B) as [(_ & ->) | (s & p & _ & -> & D)]; [reflexivity|].
  rewrite rem1_canon by exact D. reflexivity.
Qed.

Lemma X24_witness : Utils.hasDecimals (ofZ (-9007199254740991)) = false.
Proof.
  apply (proj1 (X24_hasDecimals (-9007199254740991))). vm_compute. reflexivity.
Defined.

Section StateMachineProperties.

Import Calculator.

(** X17: a result between 10^12 and 10^15 is held correctly but shown
    wrongly.  [showResult] stores the grouped numeral, which reads back as
    the number, but the text has more than 15 characters and
    [updateDisplay] passes it to [parseFloat], which stops at the first
    comma: the input element shows the exponential form of the leading
    group alone, a number between 1 and 999.  So 999999999999 + 1 is shown
    as 1.000000e+0. *)
Theorem X17_long_result_shows_leading_group
  (n : Z) (op : string) (d : Display.t) :
  10 ^ 12 <= n < 10 ^ 15 ->
  Display.currentValue (Display.showResult (VNum (ofZ n)) op d) = numeral n /\
  Display.isError (Display.showResult (VNum (ofZ n)) op d) = false /\
  Display.getCurrentValue (Display.showResult (VNum (ofZ n)) op d) = ofZ n /\
  Display.displayInput (Display.showResult (VNum (ofZ n)) op d)
  = Number_toExponential (ofZ (n / 10 ^ 12)) 6 /\
  1 <= n / 10 ^ 12 < 1000 /\
  Display.currentValue (display (run (press 999999999999 "+" 1) Calculator.new))
  = "1,000,000,000,000" /\
  Display.displayInput (display (run (press 999999999999 "+" 1) Calculator.new))
  = "1.000000e+0".
Proof.
  intros B.
  assert (Bn : Z.abs n < 10 ^ 15) by lia.
  destruct (long_numeral_shown n d B) as (U & G).
  assert (S : Display.showResult (VNum (ofZ n)) op d
              = match op with
                | EmptyString => Display.updateDisplay (numeral n) d
                | _ => Display.updateExpression (op ++ " =")
                         (Display.updateDisplay (numeral n) d)
                end).
  { unfold Display.showResult. cbn [Operations.isValidResult].
    rewrite ofZ_not_nan, formatNumber_numeral by exact Bn. reflexivity. }
  rewrite S, U.
  assert (T := toNumber_numeral n Bn).
  split; [| split; [| split; [| split; [| split; [exact G | vm_compute; split; reflexivity]]]]];
    destruct op; try reflexivity; exact T.
Qed.

Lemma X17_witness :
  Display.displayInput
    (Display.showResult (VNum (ofZ 123456789012345)) "" Display.new)
  = Number_toExponential (ofZ (123456789012345 / 10 ^ 12)) 6.
Proof.
  apply (X17_long_result_shows_leading_group 123456789012345 "" Display.new).
  vm_compute. split; [discriminate | reflexivity].
Defined.

(** X18: the keyboard handler tests a key name for a digit anywhere in
    it, so a key whose name contains a digit is entered whole as if it
    were a digit.  Where a digit would start a new number the display then
    holds the key name without raising the error flag, and for a name that
    starts with F, as those of the function keys F1 to F12 do, the display
    reads back as [NaN]. *)
Theorem X18_key_names_with_a_digit (now key : string) (c : Calculator.t) :
  has_digit key = true ->
  handleKeyPress now key c = inputNumber key c /\
  (starts_number c ->
   Display.currentValue (display (handleKeyPress now key c)) = key /\
   Display.isError (display (handleKeyPress now key c)) = false /\
   (prefix "F" key = true ->
    Display.getCurrentValue (display (handleKeyPress now key c)) = NaN)).
Proof.
  intros K.
  assert (E : handleKeyPress now key c = inputNumber key c)
    by (unfold handleKeyPress; now rewrite K).
  split; [exact E|]. rewrite E. intros H.
  destruct (inputNumber_key key c K H) as (V & Er).
  repeat split; auto.
  intros P. destruct key as [| ch r]; [discriminate|].
  cbn [prefix] in P. destruct (Ascii.ascii_dec "F" ch) as [<- | ]; [| discriminate].
  now apply (function_key_reads_nan r).
Qed.

Lemma X18_witness :
  Display.currentValue (display (handleKeyPress "t" "F5" Calculator.new)) = "F5" /\
  Display.getCurrentValue (display (handleKeyPress "t" "F5" Calculator.new)) = NaN.
Proof.
  split.
  - apply (proj2 (X18_key_names_with_a_digit "t" "F5" Calculator.new eq_refl)).
    right; right; right. reflexivity.
  - apply (proj2 (X18_key_names_with_a_digit "t" "F5" Calculator.new eq_refl)).
    + right; right; right. reflexivity.
    + reflexivity.
Defined.

(** X19: entering the decimal digits of an integer [n] with
    [0 <= n < 10^15], in any state in which a digit starts a new number,
    leaves the display holding and showing exactly those digits, with no
    error, and the display reads back as the number [n]; the pending
    operator and the memory store are untouched. *)
Theorem X19_typed_number_reads_back (n : Z) (c : Calculator.t) :
  0 <= n < 10 ^ 15 -> starts_number c ->
  run (keys (type_number n)) c = entered (digits n) c /\
  Display.currentValue (display (run (keys (type_number n)) c)) = digits n /\
  Display.displayInput (display (run (keys (type_number n)) c)) = digits n /\
  Display.isError (display (run (keys (type_number n)) c)) = false /\
  Display.getCurrentValue (display (run (keys (type_number n)) c)) = ofZ n /\
  previousValue (st (run (keys (type_number n)) c)) = previousValue (st c) /\
  currentOperator (st (run (keys (type_number n)) c)) = currentOperator (st c) /\
  memory (run (keys (type_number n)) c) = memory c.
Proof.
  intros B H. rewrite (type_number_entered n c B H).
  repeat split.
  unfold Display.getCurrentValue, entered.
  cbn [display Display.isError Display.currentValue].
  now apply toNumber_digits.
Qed.

Lemma X19_witness :
  Display.currentValue
    (display (run (keys (type_number 1234)) Calculator.new)) = digits 1234 /\
  Display.getCurrentValue
    (display (run (keys (type_number 1234)) Calculator.new)) = ofZ 1234.
Proof.
  assert (B : 0 <= 1234 < 10 ^ 15) by (vm_compute; split; [discriminate | reflexivity]).
  assert (S : starts_number Calculator.new) by (right; right; right; reflexivity).
  split.
  - exact (proj1 (proj2 (X19_typed_number_reads_back 1234 Calculator.new B S))).
  - exact (proj1 (proj2 (proj2 (proj2 (proj2
             (X19_typed_number_reads_back 1234 Calculator.new B S)))))).
Defined.

(** X20: on a new calculator, entering a non-negative integer [a], an
    operator, a non-negative integer [b] and [=], where the exact result
    [r] of the operation is an integer of magnitude at most 295147, leaves
    the display holding and showing the decimal numeral of [r] (grouped in
    thousands), reading back as [r], with the expression line [a op b =],
    one history entry [a op b] with result [r], no pending operator and
    [justCalculated] set.  Just beyond that range 295148 + 1 is shown as
    2.950000e+2 and held as 295,148.9999999999. *)
Theorem X20_typed_calculation (a b r : Z) (op : string) :
  0 <= a < 10 ^ 15 -> 0 <= b < 10 ^ 15 ->
  exact_result a b op = Some r ->
  let c := run (press a op b) Calculator.new in
  Display.currentValue (display c) = numeral r /\
  Display.displayInput (display c) = numeral r /\
  Display.isError (display c) = false /\
  Display.getCurrentValue (display c) = ofZ r /\
  Display.expression (display c)
  = (numeral a ++ " " ++ op ++ " " ++ numeral b) ++ " =" /\
  MemoryOperations.history (memory c)
  = [ {| MemoryOperations.timestamp := "2024-01-01T00:00:00.000Z";
         MemoryOperations.operation := numeral a ++ " " ++ op ++ " " ++ numeral b;
         MemoryOperations.result := VNum (ofZ r) |} ] /\
  previousValue (st c) = None /\
  currentOperator (st c) = None /\
  waitingForOperand (st c) = false /\
  justCalculated (st c) = true /\
  Utils.formatNumber (VNum (ofZ r)) = numeral r /\
  Display.currentValue (display (run (press 295148 "+" 1) Calculator.new))
  = "295,148.9999999999" /\
  Display.displayInput (display (run (press 295148 "+" 1) Calculator.new))
  = "2.950000e+2".
Proof.
  intros A B E c. subst c. rewrite (typed_calculation a b r op A B E).
  cbn [display memory st Display.currentValue Display.displayInput
         Display.isError Display.expression MemoryOperations.history
         previousValue currentOperator waitingForOperand justCalculated].
  destruct (calculate_exact a b op r) as (_ & Br & _);
    [pose proof pow10_15_lt; lia | pose proof pow10_15_lt; lia | exact E |].
  assert (Br' : Z.abs r < 10 ^ 15) by (change (10 ^ 15) with 1000000000000000; lia).
  repeat split.
  - unfold Display.getCurrentValue. cbn [Display.isError Display.currentValue].
    now apply toNumber_numeral.
  - now apply formatNumber_numeral.
Qed.

Lemma X20_witness :
  Display.currentValue (display (run (press 5 "+" 3) Calculator.new)) = numeral 8.
Proof.
  apply (X20_typed_calculation 5 3 8 "+");
    vm_compute; first [reflexivity | split; [discriminate | reflexivity]].
Defined.

(** X22: with the display reading a multiple [100 k] of 100 below 10^15
    in magnitude (0 in particular, as in an error state), [percentage()]
    leaves the display holding the numeral of [k], reading back as [k],
    with no error and the expression line [100k %]; it sets
    [justCalculated] and leaves [previousValue], [currentOperator],
    [waitingForOperand] and the memory store as they were. *)
Theorem X22_percentage_of_hundreds (k : Z) (c : Calculator.t) :
  Z.abs (100 * k) < 10 ^ 15 ->
  Display.getCurrentValue (display c) = ofZ (100 * k) ->
  Display.currentValue (display (percentage c)) = numeral k /\
  Display.expression (display (percentage c)) = numeral (100 * k) ++ "%" /\
  Display.isError (display (percentage c)) = false /\
  Display.getCurrentValue (display (percentage c)) = ofZ k /\
  previousValue (st (percentage c)) = previousValue (st c) /\
  currentOperator (st (percentage c)) = currentOperator (st c) /\
  waitingForOperand (st (percentage c)) = waitingForOperand (st c) /\
  justCalculated (st (percentage c)) = true /\
  memory (percentage c) = memory c.
Proof.
  intros B G. unfold percentage.
  cbn [set_justCalculated with_state with_display display st memory
         previousValue currentOperator waitingForOperand justCalculated].
  destruct (showAsPercentage_exact k (display c) B G) as (V & X & E).
  repeat split; auto.
  unfold Display.getCurrentValue. rewrite E, V.
  apply toNumber_numeral. lia.
Qed.

Lemma X22_witness :
  Display.currentValue
    (display (percentage (run (keys (type_number 2500)) Calculator.new)))
  = numeral 25 /\
  Display.currentValue (display (percentage error_then_plus)) = numeral 0.
Proof.
  split.
  - apply (X22_percentage_of_hundreds 25
             (run (keys (type_number 2500)) Calculator.new));
      vm_compute; reflexivity.
  - apply (X22_percentage_of_hundreds 0 error_then_plus); vm_compute; reflexivity.
Defined.

(** X25: every key that the keyboard handler maps reaches the handler
    that the keypad button of the same meaning reaches: a digit key the
    digit button, [+ - * /] the operator buttons [+ - × ÷], the decimal
    point, [=] and Enter, Escape, Backspace and [%] the action buttons
    decimal, calculate, clear, delete and percentage.  A key whose name
    holds no digit and is none of these leaves the calculator as it
    is. *)
Theorem X25_keyboard_agrees_with_keypad (now key : string) (c : Calculator.t) :
  (is_digit_key key = true ->
   handleKeyPress now key c = handleButtonClick now (Some key) None None c) /\
  handleKeyPress now "+" c = handleButtonClick now None (Some "+") None c /\
  handleKeyPress now "-" c = handleButtonClick now None (Some "-") None c /\
  handleKeyPress now "*" c = handleButtonClick now None (Some "×") None c /\
  handleKeyPress now "/" c = handleButtonClick now None (Some "÷") None c /\
  handleKeyPress now "." c = handleButtonClick now None None (Some "decimal") c /\
  handleKeyPress now "=" c = handleButtonClick now None None (Some "calculate") c /\
  handleKeyPress now "Enter" c
  = handleButtonClick now None None (Some "calculate") c /\
  handleKeyPress now "Escape" c = handleButtonClick now None None (Some "clear") c /\
  handleKeyPress now "Backspace" c
  = handleButtonClick now None None (Some "delete") c /\
  handleKeyPress now "%" c
  = handleButtonClick now None None (Some "percentage") c /\
  (has_digit key = false ->
   existsb (String.eqb key)
     ["."; "+"; "-"; "*"; "/"; "="; "Enter"; "Escape"; "Backspace"; "%"] = false ->
   handleKeyPress now key c = c).
Proof.
  split; [| repeat split].
  - intros K. destruct (is_digit_key_inv key K) as (ch & -> & D & _).
    unfold handleKeyPress. cbn [has_digit]. rewrite D. reflexivity.
  - intros H X. cbn [existsb] in X.
    repeat (apply orb_false_iff in X as [? X]).
    unfold handleKeyPress. rewrite H.
    repeat match goal with E : String.eqb key _ = false |- _ => rewrite E; clear E end.
    reflexivity.
Qed.

Lemma X25_witness :
  handleKeyPress "t" "7" five_plus
  = handleButtonClick "t" (Some "7") None None five_plus /\
  handleKeyPress "t" "Shift" five_plus = five_plus.
Proof.
  split.
  - apply (proj1 (X25_keyboard_agrees_with_keypad "t" "7" five_plus)). reflexivity.
  - apply (X25_keyboard_agrees_with_keypad "t" "Shift" five_plus); reflexivity.
Defined.

(** X26: operators are chained from left to right, without precedence.
    On a new calculator, entering [a op1 b op2 c =] with non-negative
    integers, where [r1], the exact result of [a op1 b], and [r2], the
    exact result of [r1 op2 c], are integers of magnitude at most 295147,
    leaves the display holding and showing the numeral of [r2] and the
    history holding the two evaluations, [r1 op2 c] first; so 2 + 3 × 4
    gives 20. *)
Theorem X26_chained_operators_left_to_right
  (a b c r1 r2 : Z) (op1 op2 : string) :
  0 <= a < 10 ^ 15 -> 0 <= b < 10 ^ 15 -> 0 <= c < 10 ^ 15 ->
  exact_result a b op1 = Some r1 ->
  exact_result r1 c op2 = Some r2 ->
  let s := run (press_chain a op1 b op2 c) Calculator.new in
  Display.currentValue (display s) = numeral r2 /\
  Display.displayInput (display s) = numeral r2 /\
  Display.isError (display s) = false /\
  Display.expression (display s)
  = (numeral r1 ++ " " ++ op2 ++ " " ++ numeral c) ++ " =" /\
  MemoryOperations.history (memory s)
  = [ {| MemoryOperations.timestamp := "2024-01-01T00:00:00.000Z";
         MemoryOperations.operation :=
           numeral r1 ++ " " ++ op2 ++ " " ++ numeral c;
         MemoryOperations.result := VNum (ofZ r2) |};
      {| MemoryOperations.timestamp := "2024-01-01T00:00:00.000Z";
         MemoryOperations.operation :=
           numeral a ++ " " ++ op1 ++ " " ++ numeral b;
         MemoryOperations.result := VNum (ofZ r1) |} ] /\
  previousValue (st s) = None /\
  currentOperator (st s) = None /\
  justCalculated (st s) = true.
Proof.
  intros A B C E1 E2 s. subst s.
  rewrite (typed_chain a b c r1 r2 op1 op2 A B C E1 E2).
  repeat split.
Qed.

Lemma X26_witness :
  Display.currentValue
    (display (run (press_chain 2 "+" 3 "×" 4) Calculator.new)) = numeral 20.
Proof.
  apply (X26_chained_operators_left_to_right 2 3 4 5 20 "+" "×");
    vm_compute; first [reflexivity | split; [discriminate | reflexivity]].
Defined.

End StateMachineProperties.
